(** * WikiGraph: the binary link-graph store of [WikiGraph.py]

    A shallow embedding of [BiDict], [WikiLinkWriter] and [WikiLinkReader],
    together with the fragments of the Python runtime they rely on
    ([struct], [varint], [zlib], slices, [sorted], dictionaries, text files),
    followed by the properties of the store format.

    Node ids, lengths and file offsets are never negative and are numbers
    of [N]; the id that a caller asks the reader about is any integer, a
    number of [Z].  Code that can raise returns a [result]. *)

From Stdlib Require Import List NArith ZArith Lia Bool.
From Stdlib Require Import Strings.Byte.
From Stdlib Require Strings.String Strings.Ascii.
From Stdlib Require Import Sorting.Sorted Sorting.Permutation Sorting.Mergesort.
From Stdlib Require Import Orders.
From Equations Require Import Equations.
Import ListNotations.

Local Open Scope N_scope.

(** [lia] also decides goals with division and remainder by constants. *)
Ltac Zify.zify_post_hook ::= Z.to_euclidean_division_equations.

(** ** Exceptions and the result monad *)

(** The Python exceptions that the modelled code can raise. *)
Inductive exn : Set :=
| ValueError
| KeyError
| IndexError
| EOFError
| StructError
| ZlibError
| UnicodeEncodeError.

Inductive result (A : Type) : Type :=
| Ok (a : A)
| Raise (e : exn).

Arguments Ok {A} a.
Arguments Raise {A} e.

Definition bind {A B : Type} (c : result A) (k : A -> result B) : result B :=
  match c with
  | Ok a => k a
  | Raise e => Raise e
  end.

Notation "x <- c1 ;; c2" := (bind c1 (fun x => c2))
  (at level 61, c1 at next level, right associativity).
Notation "' pat <- c1 ;; c2" := (bind c1 (fun x => match x with pat => c2 end))
  (at level 61, pat pattern, c1 at next level, right associativity).

(** ** Sequences *)

(** [len(l)]. *)
Definition len {A : Type} (l : list A) : N := N.of_nat (length l).

(** [l[a:b]] for non-negative [a] and [b]: out-of-range bounds are clipped. *)
Definition slice {A : Type} (l : list A) (a b : N) : list A :=
  firstn (N.to_nat (b - a)) (skipn (N.to_nat a) l).

(** [l[a:]]. *)
Definition slice_from {A : Type} (l : list A) (a : N) : list A :=
  skipn (N.to_nat a) l.

(** [l[i]] with Python's indexing: a negative [i] counts from the end. *)
Definition getitem {A : Type} (l : list A) (i : Z) : result A :=
  let n := Z.of_nat (length l) in
  let j := if (i <? 0)%Z then (n + i)%Z else i in
  if ((0 <=? j) && (j <? n))%Z%bool then
    match nth_error l (Z.to_nat j) with
    | Some x => Ok x
    | None => Raise IndexError
    end
  else Raise IndexError.

(** ** [sorted] on integers and on pairs of integers *)

Module NOrder <: TotalLeBool.
Definition t := N.
Definition leb := N.leb.
Definition leb_total : forall a1 a2, leb a1 a2 = true \/ leb a2 a1 = true.
Proof.
  intros a1 a2. unfold leb. rewrite !N.leb_le. lia.
Qed.
End NOrder.

(** Tuples [(node_id, pos)] compare lexicographically. *)
Module PairOrder <: TotalLeBool.
Definition t := (N * N)%type.
Definition leb (x y : t) : bool :=
  (fst x <? fst y) || ((fst x =? fst y) && (snd x <=? snd y)).
Definition leb_total : forall a1 a2, leb a1 a2 = true \/ leb a2 a1 = true.
Proof.
  intros [a b] [c d]. unfold leb. simpl.
  rewrite !orb_true_iff, !andb_true_iff, !N.ltb_lt, !N.eqb_eq, !N.leb_le.
  lia.
Qed.
End PairOrder.

Module NSort := Sort NOrder.
Module PairSort := Sort PairOrder.

(** [sorted(edges)]: the order of equal integers is unobservable, so any
    sorting function yields the list Python's [sorted] returns. *)
Definition sorted (l : list N) : list N := NSort.sort l.

(** [sorted(self.index)]. *)
Definition sorted_pairs (l : list (N * N)) : list (N * N) := PairSort.sort l.

(** ** Dictionaries

    A [dict] keeps its items in insertion order; assigning to a key that is
    present replaces the value in place. *)

Section Dict.
Context {K V : Type} (eq_dec : forall x y : K, {x = y} + {x <> y}).

Definition dict := list (K * V).

Fixpoint dict_find (d : dict) (k : K) : option V :=
  match d with
  | [] => None
  | (k', v) :: d' => if eq_dec k k' then Some v else dict_find d' k
  end.

(** [k in d]. *)
Definition dict_contains (d : dict) (k : K) : bool :=
  match dict_find d k with Some _ => true | None => false end.

(** [d[k]]. *)
Definition dict_getitem (d : dict) (k : K) : result V :=
  match dict_find d k with Some v => Ok v | None => Raise KeyError end.

(** [d[k] = v]. *)
Fixpoint dict_setitem (d : dict) (k : K) (v : V) : dict :=
  match d with
  | [] => [(k, v)]
  | (k', v') :: d' =>
      if eq_dec k k' then (k', v) :: d' else (k', v') :: dict_setitem d' k v
  end.
End Dict.

Arguments dict K V : clear implicits.

(** ** Text

    A Python [str] is a sequence of code points.  The sidecar is a text file
    opened with [encoding='utf-8']: writing and reading it back preserves the
    code points of every string that UTF-8 can hold, so the file is modelled
    by its decoded contents.  Newline translation on writing is the POSIX one
    (none). *)

Definition pystr := list N.

Definition pystr_eq_dec : forall x y : pystr, {x = y} + {x <> y} :=
  list_eq_dec N.eq_dec.

Definition TAB : N := 9.
Definition LF : N := 10.
Definition CR : N := 13.

(** Lone surrogates cannot be encoded as UTF-8; nothing above U+10FFFF is a
    code point. *)
Definition encodable (c : N) : bool :=
  (c <? 0xD800) || ((0xDFFF <? c) && (c <=? 0x10FFFF)).

(** [f.write(s)] on a UTF-8 text file: the text appended, or
    [UnicodeEncodeError]. *)
Definition text_write (f : pystr) (s : pystr) : result pystr :=
  if forallb encodable s then Ok (f ++ s) else Raise UnicodeEncodeError.

(** The code points for which [str.isspace] holds. *)
Definition isspace (c : N) : bool :=
  ((9 <=? c) && (c <=? 13)) || ((28 <=? c) && (c <=? 32)) ||
  (c =? 0x85) || (c =? 0xA0) || (c =? 0x1680) ||
  ((0x2000 <=? c) && (c <=? 0x200A)) ||
  (c =? 0x2028) || (c =? 0x2029) || (c =? 0x202F) || (c =? 0x205F) ||
  (c =? 0x3000).

Fixpoint lstrip (s : pystr) : pystr :=
  match s with
  | [] => []
  | c :: r => if isspace c then lstrip r else s
  end.

Definition rstrip (s : pystr) : pystr := rev (lstrip (rev s)).

(** [s.strip()]. *)
Definition strip (s : pystr) : pystr := rstrip (lstrip s).

(** [s.split(sep)] for a one-character separator. *)
Fixpoint split (sep : N) (s : pystr) : list pystr :=
  match s with
  | [] => [[]]
  | c :: r =>
      if c =? sep then [] :: split sep r
      else match split sep r with
           | p :: ps => (c :: p) :: ps
           | [] => [[c]]
           end
  end.

(** Iterating over a text file opened for reading with the default
    [newline=None]: lines end at ["\n"], ["\r"] or ["\r\n"], each handed over
    as ["\n"]; a last line without terminator is yielded as it is. *)
Fixpoint readlines_from (cur : pystr) (s : pystr) : list pystr :=
  match s with
  | [] => match cur with [] => [] | _ => [cur] end
  | c :: r =>
      if c =? LF then (cur ++ [LF]) :: readlines_from [] r
      else if c =? CR then
        match r with
        | c' :: r' =>
            if c' =? LF then (cur ++ [LF]) :: readlines_from [] r'
            else (cur ++ [LF]) :: readlines_from [] r
        | [] => (cur ++ [LF]) :: readlines_from [] r
        end
      else readlines_from (cur ++ [c]) r
  end.

Definition readlines (s : pystr) : list pystr := readlines_from [] s.

Definition N_lt_ge_dec (a b : N) : {a < b} + {b <= a}.
Proof.
  destruct (a <? b) eqn:E.
  - left. apply N.ltb_lt. exact E.
  - right. apply N.ltb_ge. exact E.
Defined.

(** [str(n)] of a non-negative integer: its decimal digits. *)
Equations? str_of_N (n : N) : pystr by wf (N.to_nat (N.log2 n)) lt :=
  str_of_N n with N_lt_ge_dec n 10 := {
    | left _ := [48 + n]
    | right _ := str_of_N (n / 10) ++ [48 + n mod 10] }.
Proof.
  assert (Hle : N.log2 (n / 10) <= N.log2 (N.shiftr n 1)).
  { apply N.log2_le_mono. rewrite N.shiftr_div_pow2. change (2 ^ 1) with 2.
    lia. }
  rewrite N.log2_shiftr in Hle.
  assert (H3 : N.log2 8 <= N.log2 n) by (apply N.log2_le_mono; lia).
  change (N.log2 8) with 3 in H3. lia.
Qed.

Definition digit_val (c : N) : option N :=
  if (48 <=? c) && (c <=? 57) then Some (c - 48) else None.

(** The digits of an integer literal: decimal digits, where single
    underscores may separate two digits. *)
Fixpoint parse_digits (s : pystr) (acc : N) (after_digit : bool) : option N :=
  match s with
  | [] => if after_digit then Some acc else None
  | c :: r =>
      match digit_val c with
      | Some d => parse_digits r (10 * acc + d) true
      | None =>
          if (c =? 95) && after_digit then parse_digits r acc false else None
      end
  end.

(** [int(s)] in base ten: surrounding whitespace is ignored, a sign may come
    first.  Decimal digits outside ASCII, which [int] also accepts, are not
    modelled: they count as malformed. *)
Definition int (s : pystr) : result Z :=
  let s := strip s in
  let '(neg, digits) :=
    match s with
    | 43 :: r => (false, r)
    | 45 :: r => (true, r)
    | _ => (false, s)
    end in
  match parse_digits digits 0 false with
  | Some n => Ok (if neg then (- Z.of_N n)%Z else Z.of_N n)
  | None => Raise ValueError
  end.

(** ** Bytes *)

(** The byte of a value below 256. *)
Definition byte_of_N (v : N) : byte :=
  match Byte.of_N v with Some b => b | None => x00 end.

(** ** The [struct] module: little-endian unsigned integers *)

Module Struct.

Fixpoint to_le (width : nat) (v : N) : list byte :=
  match width with
  | O => []
  | S w =>
      byte_of_N (v mod 256) :: to_le w (v / 256)
  end.

Fixpoint from_le (buf : list byte) : N :=
  match buf with
  | [] => 0
  | b :: r => Byte.to_N b + 256 * from_le r
  end.

(** [struct.pack] raises [struct.error] when the value does not fit. *)
Definition pack_uint (width : nat) (v : N) : result (list byte) :=
  if v <? 2 ^ (8 * N.of_nat width) then Ok (to_le width v)
  else Raise StructError.

(** [struct.unpack] raises [struct.error] unless the buffer has exactly
    the size of the format. *)
Definition unpack_uint (width : nat) (buf : list byte) : result N :=
  if Nat.eqb (length buf) width then Ok (from_le buf) else Raise StructError.

(** [struct.pack('<I', v)] and [struct.pack('<Q', v)]. *)
Definition pack_I (v : N) : result (list byte) := pack_uint 4 v.
Definition pack_Q (v : N) : result (list byte) := pack_uint 8 v.

(** [struct.pack('<II', a, b)] and [struct.pack('<QQ', a, b)]. *)
Definition pack_II (a b : N) : result (list byte) :=
  x <- pack_uint 4 a ;; y <- pack_uint 4 b ;; Ok (x ++ y).
Definition pack_QQ (a b : N) : result (list byte) :=
  x <- pack_uint 8 a ;; y <- pack_uint 8 b ;; Ok (x ++ y).

(** [struct.unpack('<I', buf)[0]] and [struct.unpack('<Q', buf)[0]]. *)
Definition unpack_I (buf : list byte) : result N := unpack_uint 4 buf.
Definition unpack_Q (buf : list byte) : result N := unpack_uint 8 buf.

(** [struct.unpack('<II', buf)] and [struct.unpack('<QQ', buf)]. *)
Definition unpack_II (buf : list byte) : result (N * N) :=
  if Nat.eqb (length buf) 8
  then Ok (from_le (firstn 4 buf), from_le (skipn 4 buf))
  else Raise StructError.
Definition unpack_QQ (buf : list byte) : result (N * N) :=
  if Nat.eqb (length buf) 16
  then Ok (from_le (firstn 8 buf), from_le (skipn 8 buf))
  else Raise StructError.

End Struct.

(** ** The [varint] package

    The program imports the [varint] package for its variable-length
    integers: unsigned LEB128, seven payload bits per byte, low group first,
    the high bit set on every byte but the last.  [encode] and
    [decode_stream] follow the loops of that package; its decoder reads
    until a byte without the high bit, however many bytes that takes, and
    raises [EOFError] when the input ends first. *)

Module Varint.

Equations? encode (number : N) : list byte
  by wf (N.to_nat (N.log2 number)) lt :=
  encode number with N.eq_dec (N.shiftr number 7) 0 := {
    | left _ := [byte_of_N (N.land number 0x7f)]
    | right _ :=
        byte_of_N (N.lor (N.land number 0x7f) 0x80)
          :: encode (N.shiftr number 7) }.
Proof.
  change (N.div2 (N.div2 (N.div2 (N.div2 (N.div2 (N.div2 (N.div2 number)))))))
    with (N.shiftr number 7) in *.
  rewrite N.log2_shiftr.
  assert (7 <= N.log2 number); [|lia].
  destruct (N.le_gt_cases 7 (N.log2 number)) as [|Hlt]; [assumption|].
  exfalso. apply n. apply N.shiftr_eq_0. assumption.
Qed.

Fixpoint decode_stream (stream : list byte) (shift res : N) : result N :=
  match stream with
  | [] => Raise EOFError
  | c :: rest =>
      let i := Byte.to_N c in
      let res := N.lor res (N.shiftl (N.land i 0x7f) shift) in
      let shift := shift + 7 in
      if N.land i 0x80 =? 0 then Ok res
      else decode_stream rest shift res
  end.

Definition decode_bytes (buf : list byte) : result N :=
  decode_stream buf 0 0.

End Varint.

(** ** The [zlib] module

    [zlib.compress] and [zlib.decompress] are an interface here: the store
    format only needs that decompression undoes compression. *)

Class Zlib : Type := {
  compress : list byte -> list byte;
  decompress : list byte -> result (list byte)
}.

Class ZlibCorrect (codec : Zlib) : Prop :=
  decompress_compress : forall data : list byte,
    decompress (compress data) = Ok data.

(** ** Binary files opened for writing *)

Record binfile : Type := {
  content : list byte;
  position : N
}.

(** [open(path, 'wb')]. *)
Definition bin_open : binfile := {| content := []; position := 0 |}.

(** [f.write(data)]: overwrites at the position and extends the file; a gap
    left by a seek past the end reads as zero bytes. *)
Definition bin_write (f : binfile) (data : list byte) : binfile :=
  let p := N.to_nat (position f) in
  let padded := content f ++ repeat x00 (p - length (content f)) in
  {| content := firstn p padded ++ data ++ skipn (p + length data) padded;
     position := position f + len data |}.

(** [f.seek(offset)]. *)
Definition bin_seek (f : binfile) (offset : N) : binfile :=
  {| content := content f; position := offset |}.

(** [f.tell()]. *)
Definition bin_tell (f : binfile) : N := position f.

(** ** Loops in the result monad *)

Fixpoint foldM {S A : Type} (f : S -> A -> result S) (l : list A) (s : S)
  : result S :=
  match l with
  | [] => Ok s
  | a :: l' => s' <- f s a ;; foldM f l' s'
  end.

(** ** [BiDict] *)

(** The values that are stored in a [BiDict]: node ids and titles, and
    [None] as the default of [get]. *)
Inductive pyval : Set :=
| PNone
| PInt (z : Z)
| PStr (s : pystr).

Definition pyval_eq_dec : forall x y : pyval, {x = y} + {x <> y}.
Proof.
  decide equality; [apply Z.eq_dec | apply pystr_eq_dec].
Defined.

Module BiDict.

Record t : Type := {
  forward : dict pyval pyval;
  backward : dict pyval pyval
}.

Definition init : t := {| forward := []; backward := [] |}.

Definition setitem (self : t) (key value : pyval) : t :=
  {| forward := dict_setitem pyval_eq_dec (forward self) key value;
     backward := dict_setitem pyval_eq_dec (backward self) value key |}.

Definition getitem (self : t) (key : pyval) : result pyval :=
  match dict_getitem pyval_eq_dec (forward self) key with
  | Ok v => Ok v
  | Raise KeyError => dict_getitem pyval_eq_dec (backward self) key
  | Raise e => Raise e
  end.

Definition get (self : t) (key : pyval) (default : pyval) : result pyval :=
  match getitem self key with
  | Ok v => Ok v
  | Raise KeyError => Ok default
  | Raise e => Raise e
  end.

Definition contains (self : t) (key : pyval) : bool :=
  dict_contains pyval_eq_dec (forward self) key
  || dict_contains pyval_eq_dec (backward self) key.

Definition length (self : t) : N := len (forward self).

Definition items (self : t) : list (pyval * pyval) := forward self.

End BiDict.

(** ** [WikiLinkWriter] *)

(** The parsed input: one dictionary per line of the JSONL file, given by
    its items [(node_title, linked_titles)]. *)
Definition jsonl := list (list (pystr * list pystr)).

Module WikiLinkWriter.
Section Writer.
Context {codec : Zlib}.

Definition MAGIC : list byte := [x57; x4c; x49; x4e; x4b; x4e; x45; x54].
Definition VERSION : N := 1.

Record t : Type := {
  outfile : binfile;
  mapfile : pystr;
  node_map : dict pystr N;
  current_node_id : N;
  index : list (N * N)
}.

Definition init : t :=
  {| outfile := bin_open; mapfile := []; node_map := [];
     current_node_id := 0; index := [] |}.

Definition set_outfile (self : t) (f : binfile) : t :=
  {| outfile := f; mapfile := mapfile self; node_map := node_map self;
     current_node_id := current_node_id self; index := index self |}.

Definition write_header (self : t) : result t :=
  let f := bin_write (outfile self) MAGIC in
  header <- Struct.pack_II VERSION 0 ;;
  Ok (set_outfile self (bin_write f header)).

(** The loop [for edge in sorted_edges] of [encode_edges].  The list is
    ascending and [prev] starts at 0, so [edge - prev] is never negative. *)
Fixpoint encode_deltas (sorted_edges : list N) (prev : N) : list byte :=
  match sorted_edges with
  | [] => []
  | edge :: rest =>
      let delta := edge - prev in
      Varint.encode delta ++ encode_deltas rest edge
  end.

Definition encode_edges (edges : list N) : list byte :=
  let encoded := Varint.encode (len edges) in
  let sorted_edges := sorted edges in
  encoded ++ encode_deltas sorted_edges 0.

(** The loop [for _ in range(num_edges)] of [verify_encoding], which
    [WikiLinkReader.get_neighbors] repeats. *)
Fixpoint decode_deltas (num_edges : nat) (data : list byte) (pos prev : N)
    (edges : list N) : result (list N) :=
  match num_edges with
  | O => Ok edges
  | S n =>
      delta <- Varint.decode_bytes (slice_from data pos) ;;
      let pos := pos + len (Varint.encode delta) in
      let prev := prev + delta in
      decode_deltas n data pos prev (edges ++ [prev])
  end.

(** [a == b] on lists of integers. *)
Definition list_N_eqb (a b : list N) : bool :=
  if list_eq_dec N.eq_dec a b then true else false.

(** The decoding half of [verify_encoding]: the number of edges, then
    that many deltas. *)
Definition decode_edges (encoded_data : list byte) : result (list N) :=
  let pos := 0 in
  num_edges <- Varint.decode_bytes (slice_from encoded_data pos) ;;
  let pos := pos + len (Varint.encode num_edges) in
  decode_deltas (N.to_nat num_edges) encoded_data pos 0 [].

Definition verify_encoding (original_edges : list N)
    (encoded_data : list byte) : result bool :=
  decoded_edges <- decode_edges encoded_data ;;
  let original_sorted := sorted original_edges in
  Ok (list_N_eqb original_sorted decoded_edges).

(** The statements under [if title not in self.node_map], which the first
    pass runs for the node title and for every linked title. *)
Definition intern (self : t) (title : pystr) : result t :=
  if dict_contains pystr_eq_dec (node_map self) title then Ok self
  else
    let node_map' :=
      dict_setitem pystr_eq_dec (node_map self) title (current_node_id self) in
    mapfile' <- text_write (mapfile self)
      (str_of_N (current_node_id self) ++ [TAB] ++ title ++ [LF]) ;;
    Ok {| outfile := outfile self; mapfile := mapfile';
          node_map := node_map';
          current_node_id := current_node_id self + 1;
          index := index self |}.

(** [for title in linked_titles]. *)
Fixpoint link_ids (self : t) (linked_titles : list pystr)
    (edge_ids : list N) : result (t * list N) :=
  match linked_titles with
  | [] => Ok (self, edge_ids)
  | title :: rest =>
      self <- intern self title ;;
      id <- dict_getitem pystr_eq_dec (node_map self) title ;;
      link_ids self rest (edge_ids ++ [id])
  end.

(** The body of [for node_title, linked_titles in data.items()]. *)
Definition ingest_item (st : t * dict N (list N))
    (item : pystr * list pystr) : result (t * dict N (list N)) :=
  let '(self, nodes_with_edges) := st in
  let '(node_title, linked_titles) := item in
  self <- intern self node_title ;;
  node_id <- dict_getitem pystr_eq_dec (node_map self) node_title ;;
  '(self, edge_ids) <- link_ids self linked_titles [] ;;
  Ok (self,
      match edge_ids with
      | [] => nodes_with_edges
      | _ :: _ => dict_setitem N.eq_dec nodes_with_edges node_id edge_ids
      end).

(** First pass: [for i, line in enumerate(jsonl_file)]. *)
Definition first_pass (self : t) (jsonl_file : jsonl)
  : result (t * dict N (list N)) :=
  foldM (fun st data => foldM ingest_item data st) jsonl_file (self, []).

(** The body of [for node_id, edge_ids in nodes_with_edges.items()]. *)
Definition write_block (st : t * N) (item : N * list N) : result (t * N) :=
  let '(self, current_pos) := st in
  let '(node_id, edge_ids) := item in
  let encoded_edges := encode_edges edge_ids in
  let compressed := compress encoded_edges in
  size <- Struct.pack_I (len compressed) ;;
  let f := bin_write (bin_write (outfile self) size) compressed in
  Ok ({| outfile := f; mapfile := mapfile self; node_map := node_map self;
         current_node_id := current_node_id self;
         index := index self ++ [(node_id, current_pos)] |},
      bin_tell f).

(** The body of [for node_id, pos in sorted(self.index)]. *)
Definition write_index_entry (f : binfile) (entry : N * N) : result binfile :=
  let '(node_id, pos) := entry in
  packed <- Struct.pack_QQ node_id pos ;;
  Ok (bin_write f packed).

Definition process_jsonl_dump (self : t) (jsonl_file : jsonl) : result t :=
  self <- write_header self ;;
  let current_pos := bin_tell (outfile self) in
  '(self, nodes_with_edges) <- first_pass self jsonl_file ;;
  '(self, current_pos) <-
    foldM write_block nodes_with_edges (self, current_pos) ;;
  let index_pos := current_pos in
  f <- foldM write_index_entry (sorted_pairs (index self)) (outfile self) ;;
  packed <- Struct.pack_Q index_pos ;;
  let f := bin_write f packed in
  let f := bin_seek f 8 in
  packed <- Struct.pack_I (current_node_id self) ;;
  let f := bin_write f packed in
  Ok (set_outfile self f).

End Writer.
End WikiLinkWriter.

(** [convert_wiki_jsonl]: a fresh writer processes the whole input; closing
    the two files leaves their contents as they are. *)
Definition convert_wiki_jsonl {codec : Zlib} (jsonl_file : jsonl)
  : result WikiLinkWriter.t :=
  WikiLinkWriter.process_jsonl_dump WikiLinkWriter.init jsonl_file.

(** ** [WikiLinkReader] *)

Module WikiLinkReader.
Section Reader.
Context {codec : Zlib}.

Record t : Type := {
  mmap : list byte;
  version : N;
  node_count : N;
  index_pos : N;
  index : list (N * N);
  title_map : BiDict.t
}.

(** The loop of [load_index]; an exception raised while an entry is read
    ends the loop. *)
Equations? load_index_loop (mmap : list byte) (pos : N)
    (index : list (N * N)) : list (N * N)
  by wf (N.to_nat (len mmap - pos)) lt :=
  load_index_loop mmap pos index
    with Z_lt_ge_dec (Z.of_N pos) (Z.of_N (len mmap) - 8) := {
    | left _ with Struct.unpack_QQ (slice mmap pos (pos + 16)) := {
        | Ok (node_id, block_pos) :=
            load_index_loop mmap (pos + 16) (index ++ [(node_id, block_pos)])
        | Raise _ := index }
    | right _ := index }.
Proof.
  lia.
Qed.

Definition load_index (mmap : list byte) (index_pos : N) : list (N * N) :=
  load_index_loop mmap index_pos [].

(** The body of [for line in f] in [load_title_map]; a line that does not
    parse is printed and skipped. *)
Definition load_title_line (bidict : BiDict.t) (line : pystr) : BiDict.t :=
  match split TAB (strip line) with
  | [node_id; title] =>
      match int node_id with
      | Ok i => BiDict.setitem bidict (PInt i) (PStr title)
      | Raise _ => bidict
      end
  | _ => bidict
  end.

Definition load_title_map (map_file : pystr) : BiDict.t :=
  fold_left load_title_line (readlines map_file) BiDict.init.

(** [WikiLinkReader(filename, map_path)], on the contents of the two
    files.  An empty file cannot be memory-mapped. *)
Definition init (file : list byte) (map_file : pystr) : result t :=
  if len file =? 0 then Raise ValueError
  else if negb (if list_eq_dec Byte.byte_eq_dec (slice file 0 8)
                     WikiLinkWriter.MAGIC then true else false)
  then Raise ValueError
  else
    '(version, node_count) <- Struct.unpack_II (slice file 8 16) ;;
    (* self.mmap.seek(-8, 2); self.mmap.read(8) *)
    if len file <? 8 then Raise ValueError
    else
      index_pos <- Struct.unpack_Q (slice file (len file - 8) (len file)) ;;
      let index := load_index file index_pos in
      let title_map := load_title_map map_file in
      Ok {| mmap := file; version := version; node_count := node_count;
            index_pos := index_pos; index := index;
            title_map := title_map |}.

(** The loop of [find_block], with [lo] and [hi] for [left] and [right]. *)
Equations? find_block_loop (index : list (N * N)) (node_id : Z) (lo hi : Z)
  : result (option N) by wf (Z.to_nat (hi - lo + 1)) lt :=
  find_block_loop index node_id lo hi with Z_le_gt_dec lo hi := {
    | left _ with getitem index ((lo + hi) / 2) := {
        | Raise e := Raise e
        | Ok (current_id, block_pos)
            with Z.compare (Z.of_N current_id) node_id := {
            | Eq := Ok (Some block_pos)
            | Lt := find_block_loop index node_id ((lo + hi) / 2 + 1) hi
            | Gt := find_block_loop index node_id lo ((lo + hi) / 2 - 1) } }
    | right _ := Ok None }.
Proof.
  all: lia.
Qed.

Definition find_block (self : t) (node_id : Z) : result (option N) :=
  match index self with
  | [] => Raise ValueError
  | _ :: _ =>
      find_block_loop (index self) node_id 0
        (Z.of_nat (length (index self)) - 1)
  end.

Definition get_neighbors (self : t) (node_id : Z) : result (list N) :=
  found <- find_block self node_id ;;
  match found with
  | None => Ok []
  | Some block_pos =>
      block_size <-
        Struct.unpack_I (slice (mmap self) block_pos (block_pos + 4)) ;;
      let compressed :=
        slice (mmap self) (block_pos + 4) (block_pos + 4 + block_size) in
      data <- decompress compressed ;;
      num_edges <- Varint.decode_bytes data ;;
      if num_edges =? 0 then Ok []
      else
        let pos := len (Varint.encode num_edges) in
        WikiLinkWriter.decode_deltas (N.to_nat num_edges) data pos 0 []
  end.

Definition get_title (self : t) (node_id : pyval) : result pyval :=
  BiDict.get (title_map self) node_id PNone.

End Reader.
End WikiLinkReader.

(** * Vocabulary of the properties *)

(** An index is ascending when its node ids increase strictly. *)
Definition ascending (index : list (N * N)) : Prop :=
  StronglySorted (fun a b : N * N => fst a < fst b) index.

(** The bytes of an index, as [struct.pack('<QQ', node_id, pos)] lays out
    each entry. *)
Definition index_bytes (index : list (N * N)) : list byte :=
  flat_map (fun e => Struct.to_le 8 (fst e) ++ Struct.to_le 8 (snd e)) index.

(** Both fields of an index entry fit the format [<QQ]. *)
Definition fits64 (e : N * N) : Prop := fst e < 2 ^ 64 /\ snd e < 2 ^ 64.

(** The entry that one stride of [load_index] reads at [pos]. *)
Definition index_entry_at (mmap : list byte) (pos : N) : N * N :=
  (Struct.from_le (slice mmap pos (pos + 8)),
   Struct.from_le (slice mmap (pos + 8) (pos + 16))).

(** The position of a file is at its end, as it is while a file is written
    sequentially. *)
Definition at_end (f : binfile) : Prop := position f = len (content f).

Section StoreVocabularyBlocks.
Context {codec : Zlib}.

(** The block of one node: length prefix, then the compressed edge list. *)
Definition block_bytes (edge_ids : list N) : list byte :=
  let compressed := compress (WikiLinkWriter.encode_edges edge_ids) in
  Struct.to_le 4 (len compressed) ++ compressed.

(** The blocks of the second pass, in the order of the dictionary. *)
Definition blocks_bytes (items : list (N * list N)) : list byte :=
  flat_map (fun item => block_bytes (snd item)) items.

(** The index entries of consecutive blocks that start at [pos]. *)
Fixpoint layout (pos : N) (items : list (N * list N)) : list (N * N) :=
  match items with
  | [] => []
  | (node_id, edge_ids) :: rest =>
      (node_id, pos) :: layout (pos + len (block_bytes edge_ids)) rest
  end.

(** The compressed edge list is short enough for its [<I] length prefix. *)
Definition block_fits (item : N * list N) : Prop :=
  len (compress (WikiLinkWriter.encode_edges (snd item))) < 2 ^ 32.

End StoreVocabularyBlocks.

(** ** The first pass: id assignment and edge collection *)

(** The input as one sequence of records, [concat] of its lines. *)
Definition records := list (pystr * list pystr).

(** Every title that occurs in the input, as node title or linked title. *)
Definition titles (input : records) : list pystr :=
  flat_map (fun item => fst item :: snd item) input.

(** One record seen: a non-empty list for [src] replaces what was kept. *)
Definition last_edges_step (src : pystr) (acc : option (list pystr))
    (item : pystr * list pystr) : option (list pystr) :=
  if pystr_eq_dec (fst item) src then
    match snd item with
    | [] => acc
    | _ :: _ => Some (snd item)
    end
  else acc.

(** The linked titles of the last record of [src] that has any. *)
Definition last_edges (input : records) (src : pystr) : option (list pystr) :=
  fold_left (last_edges_step src) input None.

(** [ids] are the ids that [node_map] gives to [linked_titles], in order. *)
Definition ids_of (node_map : dict pystr N) (linked_titles : list pystr)
    (ids : list N) : Prop :=
  Forall2 (fun t j => dict_find pystr_eq_dec node_map t = Some j)
          linked_titles ids.

(** The sidecar line of one interned title. *)
Definition sidecar_line (entry : pystr * N) : pystr :=
  str_of_N (snd entry) ++ [TAB] ++ fst entry ++ [LF].

(** Ids are dense and handed out in the order of first sight; the sidecar
    has one line per title, in that order. *)
Record node_map_ok (self : WikiLinkWriter.t) : Prop := {
  nm_keys : NoDup (map fst (WikiLinkWriter.node_map self));
  nm_ids : map snd (WikiLinkWriter.node_map self) =
           map N.of_nat (seq 0 (length (WikiLinkWriter.node_map self)));
  nm_counter : WikiLinkWriter.current_node_id self =
               len (WikiLinkWriter.node_map self);
  nm_sidecar : WikiLinkWriter.mapfile self =
               flat_map sidecar_line (WikiLinkWriter.node_map self)
}.

(** Interning only adds titles: ids once given are kept. *)
Definition extends (nm nm' : dict pystr N) : Prop :=
  forall t i, dict_find pystr_eq_dec nm t = Some i ->
              dict_find pystr_eq_dec nm' t = Some i.

(** What the first pass has established once the records [processed] have
    been ingested. *)
Record pass_inv (processed : records) (self : WikiLinkWriter.t)
    (nodes_with_edges : dict N (list N)) : Prop := {
  inv_node_map : node_map_ok self;
  inv_keys : NoDup (map fst nodes_with_edges);
  inv_interned : forall t,
    In t (titles processed) <-> In t (map fst (WikiLinkWriter.node_map self));
  inv_stored : forall src dsts,
    last_edges processed src = Some dsts ->
    exists i ids,
      dict_find pystr_eq_dec (WikiLinkWriter.node_map self) src = Some i /\
      dict_find N.eq_dec nodes_with_edges i = Some ids /\
      ids_of (WikiLinkWriter.node_map self) dsts ids;
  inv_only : forall i,
    In i (map fst nodes_with_edges) ->
    exists src,
      dict_find pystr_eq_dec (WikiLinkWriter.node_map self) src = Some i /\
      last_edges processed src <> None
}.

Section StoreVocabularyFiles.
Context {codec : Zlib}.

(** The header as it stands after the final patch: the four bytes at
    offset 8 hold the id counter, the four bytes at offset 12 are zero. *)
Definition patched_header (counter : N) : list byte :=
  WikiLinkWriter.MAGIC ++ Struct.to_le 4 counter ++ Struct.to_le 4 0.

(** A finished store: header, blocks, sorted index, index position. *)
Definition store_bytes (counter : N) (nwe : dict N (list N)) : list byte :=
  patched_header counter ++ blocks_bytes nwe ++
  index_bytes (sorted_pairs (layout 16 nwe)) ++
  Struct.to_le 8 (16 + len (blocks_bytes nwe)).

(** What [process_jsonl_dump] leaves behind when it completes, with
    [nwe] the dictionary [nodes_with_edges] of its first pass. *)
Record store_of (jsonl_file : jsonl) (self : WikiLinkWriter.t)
    (nwe : dict N (list N)) : Prop := {
  store_pass : pass_inv (concat jsonl_file) self nwe;
  store_content :
    content (WikiLinkWriter.outfile self) =
    store_bytes (WikiLinkWriter.current_node_id self) nwe;
  store_index : WikiLinkWriter.index self = layout 16 nwe;
  store_blocks_fit : Forall block_fits nwe;
  store_index_fits : Forall fits64 (sorted_pairs (layout 16 nwe));
  store_index_pos_fits : 16 + len (blocks_bytes nwe) < 2 ^ 64;
  store_counter_fits : WikiLinkWriter.current_node_id self < 2 ^ 32
}.

(** The reader that opening a finished store yields. *)
Definition opened (counter : N) (nwe : dict N (list N)) (map_file : pystr)
  : WikiLinkReader.t :=
  {| WikiLinkReader.mmap := store_bytes counter nwe;
     WikiLinkReader.version := counter;
     WikiLinkReader.node_count := 0;
     WikiLinkReader.index_pos := 16 + len (blocks_bytes nwe);
     WikiLinkReader.index := sorted_pairs (layout 16 nwe);
     WikiLinkReader.title_map := WikiLinkReader.load_title_map map_file |}.

End StoreVocabularyFiles.

(** ** The sidecar *)

(** The code points of the decimal digits. *)
Definition is_digit (c : N) : Prop := 48 <= c <= 57.

(** A title that survives the sidecar: it has no tab, no line break, and
    does not end in whitespace (so it is not empty). *)
Definition sidecar_safe (title : pystr) : bool :=
  forallb (fun c => negb ((c =? TAB) || (c =? LF) || (c =? CR))) title &&
  match rev title with
  | [] => false
  | c :: _ => negb (isspace c)
  end.

(** A code point that does not end a line. *)
Definition no_break (c : N) : Prop := c <> LF /\ c <> CR.

(** What loading one well-formed sidecar line does to the title map. *)
Definition title_entry (bidict : BiDict.t) (entry : pystr * N) : BiDict.t :=
  BiDict.setitem bidict (PInt (Z.of_N (snd entry))) (PStr (fst entry)).

(** The destination lists of all records of [src], one after the other:
    the collapse per source that the specification has in mind. *)
Definition merged_edges (input : records) (src : pystr) : list pystr :=
  flat_map (fun item => if pystr_eq_dec (fst item) src then snd item else [])
           input.

(** [map(id_of, titles)]. *)
Definition map_ids (node_map : dict pystr N) (linked_titles : list pystr)
  : list (option N) :=
  map (dict_find pystr_eq_dec node_map) linked_titles.

(** ** The order of first sight *)

(** One title seen: it is appended unless it was seen before. *)
Definition first_seen_step (seen : list pystr) (title : pystr) : list pystr :=
  if in_dec pystr_eq_dec title seen then seen else seen ++ [title].

(** The distinct titles of a list, in the order of their first
    occurrence. *)
Definition first_seen (l : list pystr) : list pystr :=
  fold_left first_seen_step l [].



(** ** A concrete codec and concrete inputs *)

(** A codec that tags its payload with one byte, and rejects anything
    else on decompression. *)
Definition tagged_codec : Zlib :=
  {| compress := fun data => x78 :: data;
     decompress := fun data =>
       match data with
       | x78 :: payload => Ok payload
       | _ => Raise ZlibError
       end |}.

(** The code points of an ASCII string. *)
Definition str (s : String.string) : pystr :=
  map Ascii.N_of_ascii (String.list_ascii_of_string s).

Section Inputs.
Import String.
Local Open Scope string_scope.

(** Three titles: [A], [A] followed by a space, and the empty title. *)
Definition title_A : pystr := str "A".
Definition title_A_padded : pystr := str "A ".
Definition title_empty : pystr := str "".

(** [{"A": ["B", "C"]}] and [{"B": []}], the first scenario of the
    specification. *)
Definition two_links : jsonl :=
  [[(str "A", [str "B"; str "C"])]; [(str "B", [])]].

(** The title [A] comes twice with edges, and once more without. *)
Definition repeated_source : jsonl :=
  [[(str "A", [str "B"])]; [(str "A", [str "C"; str "C"; str "A"])];
   [(str "B", [str "A"])]; [(str "A", [])]].

(** One node and no edge at all. *)
Definition no_edges : jsonl := [[(str "A", [])]].

(** A title that ends in a space, and an empty one. *)
Definition padded_titles : jsonl := [[(str "A ", [str ""; str "B"])]].

End Inputs.

(** The writer after it has processed an input with [tagged_codec]. *)
Definition written (jsonl_file : jsonl) : WikiLinkWriter.t :=
  match convert_wiki_jsonl (codec := tagged_codec) jsonl_file with
  | Ok self => self
  | Raise _ => WikiLinkWriter.init
  end.

(** The writers of the four inputs, evaluated. *)
Definition two_links_store : WikiLinkWriter.t :=
  Eval vm_compute in written two_links.
Definition repeated_source_store : WikiLinkWriter.t :=
  Eval vm_compute in written repeated_source.
Definition no_edges_store : WikiLinkWriter.t :=
  Eval vm_compute in written no_edges.
Definition padded_titles_store : WikiLinkWriter.t :=
  Eval vm_compute in written padded_titles.

(** Opening the two files of a writer. *)
Definition reopen (self : WikiLinkWriter.t) : result WikiLinkReader.t :=
  WikiLinkReader.init (content (WikiLinkWriter.outfile self))
    (WikiLinkWriter.mapfile self).

(** A store whose only block carries one byte after its last delta. *)
Definition trailing_byte_file : list byte :=
  let payload := WikiLinkWriter.encode_edges [1; 2] ++ [xff] in
  let compressed := compress (Zlib := tagged_codec) payload in
  WikiLinkWriter.MAGIC ++ Struct.to_le 4 1 ++ Struct.to_le 4 3 ++
  Struct.to_le 4 (len compressed) ++ compressed ++
  Struct.to_le 8 0 ++ Struct.to_le 8 16 ++
  Struct.to_le 8 (20 + len compressed).

(** A file whose index holds the ids 5 and 3, in this order. *)
Definition descending_index_file : list byte :=
  WikiLinkWriter.MAGIC ++ Struct.to_le 4 1 ++ Struct.to_le 4 0 ++
  Struct.to_le 8 5 ++ Struct.to_le 8 16 ++
  Struct.to_le 8 3 ++ Struct.to_le 8 16 ++
  Struct.to_le 8 16.

(** A file with eight bytes between the index position and the trailer. *)
Definition ragged_index_file : list byte :=
  WikiLinkWriter.MAGIC ++ Struct.to_le 4 1 ++ Struct.to_le 4 0 ++
  Struct.to_le 8 7 ++
  Struct.to_le 8 16.

(** The reader of [trailing_byte_file], evaluated. *)
Definition trailing_byte_reader : WikiLinkReader.t :=
  Eval vm_compute in
    match WikiLinkReader.init trailing_byte_file [] with
    | Ok self => self
    | Raise _ =>
        {| WikiLinkReader.mmap := []; WikiLinkReader.version := 0;
           WikiLinkReader.node_count := 0; WikiLinkReader.index_pos := 0;
           WikiLinkReader.index := [];
           WikiLinkReader.title_map := BiDict.init |}
    end.

(** * Auxiliary facts *)

Lemma bind_Ok {A B : Type} (c : result A) (k : A -> result B) (b : B) :
  bind c k = Ok b -> exists a, c = Ok a /\ k a = Ok b.
Proof.
  destruct c as [a|e]; simpl; [eauto | discriminate].
Qed.

Lemma to_N_byte_of_N (v : N) : v < 256 -> Byte.to_N (byte_of_N v) = v.
Proof.
  intros Hv. unfold byte_of_N.
  destruct (Byte.of_N v) as [b|] eqn:E.
  - apply Byte.to_of_N. exact E.
  - apply Byte.of_N_None_iff in E. lia.
Qed.

Lemma length_to_le (width : nat) (v : N) :
  length (Struct.to_le width v) = width.
Proof.
  revert v. induction width as [|w IH]; intros v; simpl; [reflexivity|].
  now rewrite IH.
Qed.

Lemma from_le_to_le (width : nat) (v : N) :
  v < 2 ^ (8 * N.of_nat width) -> Struct.from_le (Struct.to_le width v) = v.
Proof.
  revert v. induction width as [|w IH]; intros v Hv.
  - simpl in *. lia.
  - cbn [Struct.to_le Struct.from_le].
    rewrite to_N_byte_of_N by lia.
    rewrite IH; [lia|].
    replace (8 * N.of_nat (S w)) with (8 + 8 * N.of_nat w) in Hv by lia.
    rewrite N.pow_add_r in Hv. change (2 ^ 8) with 256 in Hv.
    apply N.Div0.div_lt_upper_bound. exact Hv.
Qed.

(** ** Varint: decoding undoes encoding *)

Lemma below_128_cases (P : N -> bool) :
  forallb P (map N.of_nat (seq 0 128)) = true ->
  forall x, x < 128 -> P x = true.
Proof.
  intros H x Hx. rewrite forallb_forall in H. apply H.
  rewrite <- (N2Nat.id x). apply in_map. apply in_seq. lia.
Qed.

Lemma varint_last_byte (x : N) : x < 128 ->
  N.land (Byte.to_N (byte_of_N x)) 0x7f = x /\
  N.land (Byte.to_N (byte_of_N x)) 0x80 = 0.
Proof.
  intros Hx.
  pose proof (below_128_cases
    (fun x => (N.land (Byte.to_N (byte_of_N x)) 0x7f =? x) &&
              (N.land (Byte.to_N (byte_of_N x)) 0x80 =? 0)) eq_refl x Hx) as H.
  simpl in H. apply andb_true_iff in H. destruct H as [H1 H2].
  apply N.eqb_eq in H1, H2. split; assumption.
Qed.

Lemma varint_more_byte (x : N) : x < 128 ->
  N.land (Byte.to_N (byte_of_N (N.lor x 0x80))) 0x7f = x /\
  N.land (Byte.to_N (byte_of_N (N.lor x 0x80))) 0x80 <> 0.
Proof.
  intros Hx.
  pose proof (below_128_cases
    (fun x => (N.land (Byte.to_N (byte_of_N (N.lor x 0x80))) 0x7f =? x) &&
              negb (N.land (Byte.to_N (byte_of_N (N.lor x 0x80))) 0x80 =? 0))
    eq_refl x Hx) as H.
  simpl in H. apply andb_true_iff in H. destruct H as [H1 H2].
  apply N.eqb_eq in H1. apply negb_true_iff, N.eqb_neq in H2.
  split; assumption.
Qed.

Lemma land_127_lt (n : N) : N.land n 0x7f < 128.
Proof.
  change 0x7f with (N.ones 7). rewrite N.land_ones.
  change (2 ^ 7) with 128. lia.
Qed.

Lemma low7_high (n : N) :
  N.lor (N.land n 0x7f) (N.shiftl (N.shiftr n 7) 7) = n.
Proof.
  change 0x7f with (N.ones 7).
  rewrite <- N.ldiff_ones_r, N.lor_comm. apply N.lor_ldiff_and.
Qed.

Lemma varint_encode_step (number : N) :
  Varint.encode number =
  if N.eq_dec (N.shiftr number 7) 0 then [byte_of_N (N.land number 0x7f)]
  else byte_of_N (N.lor (N.land number 0x7f) 0x80)
         :: Varint.encode (N.shiftr number 7).
Proof.
  rewrite Varint.encode_equation_1.
  destruct (N.eq_dec (N.shiftr number 7) 0); reflexivity.
Qed.

Lemma decode_stream_encode (number : N) (rest : list byte) (shift res : N) :
  Varint.decode_stream (Varint.encode number ++ rest) shift res =
  Ok (N.lor res (N.shiftl number shift)).
Proof.
  revert shift res.
  induction number as [number IH] using (well_founded_induction N.lt_wf_0).
  intros shift res. rewrite varint_encode_step.
  pose proof (land_127_lt number) as Hlt.
  destruct (N.eq_dec (N.shiftr number 7) 0) as [Hz|Hnz].
  - cbn [app Varint.decode_stream].
    destruct (varint_last_byte _ Hlt) as [H1 H2]. rewrite H1, H2. simpl.
    f_equal. f_equal. f_equal.
    rewrite <- (low7_high number) at 2. rewrite Hz. simpl.
    now rewrite N.lor_0_r.
  - cbn [app Varint.decode_stream].
    destruct (varint_more_byte _ Hlt) as [H1 H2]. rewrite H1.
    apply N.eqb_neq in H2. rewrite H2.
    rewrite IH.
    + f_equal. rewrite <- N.lor_assoc. f_equal.
      rewrite (N.add_comm shift 7), <- N.shiftl_shiftl, <- N.shiftl_lor.
      now rewrite low7_high.
    + rewrite N.shiftr_div_pow2. change (2 ^ 7) with 128.
      assert (number <> 0) by (intros ->; apply Hnz; reflexivity). lia.
Qed.

Lemma decode_bytes_encode (number : N) (rest : list byte) :
  Varint.decode_bytes (Varint.encode number ++ rest) = Ok number.
Proof.
  unfold Varint.decode_bytes. rewrite decode_stream_encode.
  now rewrite N.shiftl_0_r.
Qed.

(** ** Slices of concatenations *)

Lemma len_app {A : Type} (l1 l2 : list A) : len (l1 ++ l2) = len l1 + len l2.
Proof.
  unfold len. rewrite length_app. lia.
Qed.

Lemma slice_from_app {A : Type} (pre x : list A) :
  slice_from (pre ++ x) (len pre) = x.
Proof.
  unfold slice_from, len. rewrite Nat2N.id.
  rewrite skipn_app, skipn_all, Nat.sub_diag. reflexivity.
Qed.

Lemma slice_middle {A : Type} (pre x post : list A) (a b : N) :
  a = len pre -> b = len pre + len x ->
  slice (pre ++ x ++ post) a b = x.
Proof.
  intros -> ->. unfold slice.
  fold (slice_from (pre ++ x ++ post) (len pre)). rewrite slice_from_app.
  replace (N.to_nat (len pre + len x - len pre)) with (length x + 0)%nat
    by (unfold len; lia).
  rewrite firstn_app_2. simpl. apply app_nil_r.
Qed.

(** ** [sorted] returns the ascending rearrangement *)

Lemma sorted_ascending (l : list N) : StronglySorted N.le (sorted l).
Proof.
  unfold sorted.
  assert (Htrans : RelationClasses.Transitive
            (fun x y : N => is_true (x <=? y))).
  { intros x y z Hxy Hyz. unfold is_true in *.
    rewrite N.leb_le in *. lia. }
  pose proof (NSort.StronglySorted_sort l Htrans) as H.
  induction H as [|a l' Hs IH Hall]; constructor.
  - exact IH.
  - eapply Forall_impl; [|exact Hall].
    intros b Hb. apply N.leb_le. exact Hb.
Qed.

Lemma sorted_permutation (l : list N) : Permutation l (sorted l).
Proof.
  apply NSort.Permuted_sort.
Qed.

Lemma length_sorted (l : list N) : length (sorted l) = length l.
Proof.
  symmetry. apply Permutation_length, sorted_permutation.
Qed.

(** ** The edge-list codec *)

Lemma decode_deltas_encode_deltas (l : list N) :
  forall (pre garbage : list byte) (prev : N) (acc : list N),
    StronglySorted N.le l ->
    Forall (N.le prev) l ->
    WikiLinkWriter.decode_deltas (length l)
      (pre ++ WikiLinkWriter.encode_deltas l prev ++ garbage)
      (len pre) prev acc = Ok (acc ++ l).
Proof.
  induction l as [|edge rest IH]; intros pre garbage prev acc Hs Hprev.
  - simpl. now rewrite app_nil_r.
  - cbn [length WikiLinkWriter.decode_deltas WikiLinkWriter.encode_deltas].
    rewrite slice_from_app, <- app_assoc, decode_bytes_encode.
    cbn [bind].
    inversion Hs as [|? ? Hs' Hall]; subst.
    inversion Hprev as [|? ? Hle _]; subst.
    replace (prev + (edge - prev)) with edge by lia.
    rewrite <- len_app.
    rewrite (app_assoc pre).
    rewrite IH by assumption.
    now rewrite <- app_assoc.
Qed.

Lemma decode_deltas_encode_edges (edges : list N) (garbage : list byte) :
  WikiLinkWriter.decode_deltas (N.to_nat (len edges))
    (WikiLinkWriter.encode_edges edges ++ garbage)
    (len (Varint.encode (len edges))) 0 [] = Ok (sorted edges).
Proof.
  unfold WikiLinkWriter.encode_edges. rewrite <- app_assoc.
  unfold len at 1. rewrite Nat2N.id, <- (length_sorted edges).
  rewrite (decode_deltas_encode_deltas (sorted edges)
             (Varint.encode (len edges)) garbage 0 []).
  - reflexivity.
  - apply sorted_ascending.
  - apply Forall_forall. intros x _. lia.
Qed.

Lemma decode_bytes_encode_edges (edges : list N) (garbage : list byte) :
  Varint.decode_bytes (WikiLinkWriter.encode_edges edges ++ garbage) =
  Ok (len edges).
Proof.
  unfold WikiLinkWriter.encode_edges.
  rewrite <- app_assoc. apply decode_bytes_encode.
Qed.

Lemma decode_edges_encode_edges_garbage (edges : list N) (garbage : list byte) :
  WikiLinkWriter.decode_edges (WikiLinkWriter.encode_edges edges ++ garbage) =
  Ok (sorted edges).
Proof.
  unfold WikiLinkWriter.decode_edges.
  change (slice_from ?d 0) with d.
  rewrite decode_bytes_encode_edges. cbn [bind].
  rewrite N.add_0_l. apply decode_deltas_encode_edges.
Qed.

(** ** Binary search in the index *)

Lemma getitem_nth {A : Type} (l : list A) (i : Z) :
  (0 <= i < Z.of_nat (length l))%Z ->
  exists x, nth_error l (Z.to_nat i) = Some x /\ getitem l i = Ok x.
Proof.
  intros Hi. unfold getitem.
  destruct (Z.ltb_spec i 0); [lia|].
  destruct (Z.leb_spec 0 i); [|lia].
  destruct (Z.ltb_spec i (Z.of_nat (length l))); [|lia].
  simpl.
  destruct (nth_error l (Z.to_nat i)) as [x|] eqn:E.
  - exists x. split; reflexivity.
  - apply nth_error_None in E. lia.
Qed.

Lemma find_block_loop_miss (index : list (N * N)) (node_id lo hi : Z) :
  (0 <= lo)%Z -> (hi < Z.of_nat (length index))%Z ->
  (forall e, In e index -> Z.of_N (fst e) <> node_id) ->
  WikiLinkReader.find_block_loop index node_id lo hi = Ok None.
Proof.
  intros Hlo Hhi Hmiss.
  funelim (WikiLinkReader.find_block_loop index node_id lo hi).
  - reflexivity.
  - destruct (getitem_nth index ((lo + hi) / 2)) as (x & _ & Hx); [lia|].
    congruence.
  - destruct (getitem_nth index ((lo + hi) / 2)) as (x & Hn & Hx); [lia|].
    apply nth_error_In in Hn.
    apply Z.compare_eq in Heq.
    exfalso. apply (Hmiss x Hn).
    replace x with (current_id, block_pos) by congruence. exact Heq.
  - apply H; [lia | lia | assumption].
  - apply H; [lia | lia | assumption].
Qed.

Lemma ascending_nth (index : list (N * N)) :
  ascending index ->
  forall (i j : nat) (a b : N * N),
    (i < j)%nat -> nth_error index i = Some a -> nth_error index j = Some b ->
    fst a < fst b.
Proof.
  induction 1 as [|x l Hs IH Hall]; intros i j a b Hij Ha Hb.
  - destruct i; discriminate.
  - destruct j as [|j]; [lia|]. simpl in Hb.
    destruct i as [|i]; simpl in Ha.
    + injection Ha as <-. rewrite Forall_forall in Hall.
      apply Hall. eapply nth_error_In. exact Hb.
    + apply (IH i j); [lia | assumption | assumption].
Qed.

Lemma find_block_loop_hit (index : list (N * N)) (node_id lo hi : Z)
    (k : nat) (e : N * N) :
  ascending index ->
  nth_error index k = Some e ->
  Z.of_N (fst e) = node_id ->
  (0 <= lo <= Z.of_nat k)%Z ->
  (Z.of_nat k <= hi < Z.of_nat (length index))%Z ->
  WikiLinkReader.find_block_loop index node_id lo hi = Ok (Some (snd e)).
Proof.
  intros Hasc Hk Hid Hlo Hhi.
  funelim (WikiLinkReader.find_block_loop index node_id lo hi).
  - lia.
  - destruct (getitem_nth index ((lo + hi) / 2)) as (x & _ & Hx); [lia|].
    congruence.
  - destruct (getitem_nth index ((lo + hi) / 2)) as (x & Hn & Hx); [lia|].
    assert (x = (current_id, block_pos)) by congruence. subst x.
    apply Z.compare_eq in Heq.
    destruct (Nat.lt_trichotomy k (Z.to_nat ((lo + hi) / 2)))
      as [Hlt|[Heq'|Hgt]].
    + pose proof (ascending_nth index Hasc _ _ _ _ Hlt Hk Hn). simpl in *. lia.
    + subst k. rewrite Hk in Hn. injection Hn as ->. reflexivity.
    + pose proof (ascending_nth index Hasc _ _ _ _ Hgt Hn Hk). simpl in *. lia.
  - destruct (getitem_nth index ((lo + hi) / 2)) as (x & Hn & Hx); [lia|].
    assert (x = (current_id, block_pos)) by congruence. subst x.
    rewrite Z.compare_lt_iff in Heq.
    apply (H k e); try assumption; try lia.
    destruct (Nat.le_gt_cases k (Z.to_nat ((lo + hi) / 2))) as [Hle|Hgt];
      [|lia].
    exfalso.
    destruct (Nat.eq_dec k (Z.to_nat ((lo + hi) / 2))) as [->|Hne].
    + rewrite Hk in Hn. injection Hn as ->. simpl in *. lia.
    + assert (Hlt : (k < Z.to_nat ((lo + hi) / 2))%nat) by lia.
      pose proof (ascending_nth index Hasc _ _ _ _ Hlt Hk Hn). simpl in *. lia.
  - destruct (getitem_nth index ((lo + hi) / 2)) as (x & Hn & Hx); [lia|].
    assert (x = (current_id, block_pos)) by congruence. subst x.
    rewrite Z.compare_gt_iff in Heq.
    apply (H k e); try assumption; try lia.
    destruct (Nat.le_gt_cases (Z.to_nat ((lo + hi) / 2)) k) as [Hle|Hgt];
      [|lia].
    exfalso.
    destruct (Nat.eq_dec k (Z.to_nat ((lo + hi) / 2))) as [->|Hne].
    + rewrite Hk in Hn. injection Hn as ->. simpl in *. lia.
    + assert (Hlt : (Z.to_nat ((lo + hi) / 2) < k)%nat) by lia.
      pose proof (ascending_nth index Hasc _ _ _ _ Hlt Hn Hk). simpl in *. lia.
Qed.

Lemma find_block_hit (self : WikiLinkReader.t) (e : N * N) :
  ascending (WikiLinkReader.index self) ->
  In e (WikiLinkReader.index self) ->
  WikiLinkReader.find_block self (Z.of_N (fst e)) = Ok (Some (snd e)).
Proof.
  intros Hasc Hin. unfold WikiLinkReader.find_block.
  destruct (In_nth_error _ _ Hin) as [k Hk].
  assert (Hlen : (k < length (WikiLinkReader.index self))%nat)
    by (apply nth_error_Some; congruence).
  destruct (WikiLinkReader.index self) as [|x l] eqn:E;
    [destruct k; discriminate|].
  rewrite <- E in *.
  apply (find_block_loop_hit _ _ _ _ k e); try assumption; try reflexivity; lia.
Qed.

Lemma find_block_miss (self : WikiLinkReader.t) (node_id : Z) :
  WikiLinkReader.index self <> [] ->
  (forall e, In e (WikiLinkReader.index self) -> Z.of_N (fst e) <> node_id) ->
  WikiLinkReader.find_block self node_id = Ok None.
Proof.
  intros Hne Hmiss. unfold WikiLinkReader.find_block.
  destruct (WikiLinkReader.index self) as [|x l] eqn:E; [congruence|].
  rewrite <- E in *.
  apply find_block_loop_miss; [lia | lia | assumption].
Qed.

(** ** Loading the index *)

Lemma load_index_loop_step (mmap : list byte) (pos : N) (index : list (N * N)) :
  WikiLinkReader.load_index_loop mmap pos index =
  if Z_lt_ge_dec (Z.of_N pos) (Z.of_N (len mmap) - 8) then
    match Struct.unpack_QQ (slice mmap pos (pos + 16)) with
    | Ok (node_id, block_pos) =>
        WikiLinkReader.load_index_loop mmap (pos + 16)
          (index ++ [(node_id, block_pos)])
    | Raise _ => index
    end
  else index.
Proof.
  rewrite WikiLinkReader.load_index_loop_equation_1.
  destruct (Z_lt_ge_dec (Z.of_N pos) (Z.of_N (len mmap) - 8)); [|reflexivity].
  simpl.
  destruct (Struct.unpack_QQ (slice mmap pos (pos + 16))) as [[a b]|e];
    reflexivity.
Qed.

Lemma firstn_app_exact {A : Type} (n : nat) (l1 l2 : list A) :
  length l1 = n -> firstn n (l1 ++ l2) = l1.
Proof.
  intros <-. rewrite firstn_app, firstn_all, Nat.sub_diag. simpl.
  apply app_nil_r.
Qed.

Lemma skipn_app_exact {A : Type} (n : nat) (l1 l2 : list A) :
  length l1 = n -> skipn n (l1 ++ l2) = l2.
Proof.
  intros <-. rewrite skipn_app, skipn_all, Nat.sub_diag. reflexivity.
Qed.

Lemma unpack_QQ_to_le (a b : N) :
  a < 2 ^ 64 -> b < 2 ^ 64 ->
  Struct.unpack_QQ (Struct.to_le 8 a ++ Struct.to_le 8 b) = Ok (a, b).
Proof.
  intros Ha Hb. unfold Struct.unpack_QQ.
  rewrite length_app, !length_to_le.
  change (Nat.eqb (8 + 8) 16) with true. cbv iota.
  rewrite firstn_app_exact, skipn_app_exact by apply length_to_le.
  rewrite !from_le_to_le by assumption. reflexivity.
Qed.

Lemma load_index_loop_index_bytes (index : list (N * N)) :
  forall (pre trailer : list byte) (acc : list (N * N)),
    Forall fits64 index ->
    length trailer = 8%nat ->
    WikiLinkReader.load_index_loop (pre ++ index_bytes index ++ trailer)
      (len pre) acc = acc ++ index.
Proof.
  induction index as [|[a b] index IH]; intros pre trailer acc Hfit Htr.
  - rewrite load_index_loop_step. simpl index_bytes. simpl app.
    destruct (Z_lt_ge_dec _ _) as [Hlt|Hge].
    + rewrite len_app in Hlt. unfold len in Hlt. lia.
    + now rewrite app_nil_r.
  - rewrite load_index_loop_step.
    inversion Hfit as [|? ? [Ha Hb] Hfit']; subst. simpl in Ha, Hb.
    cbn [index_bytes flat_map fst snd].
    fold (index_bytes index).
    destruct (Z_lt_ge_dec _ _) as [Hlt|Hge].
    + rewrite <- !app_assoc.
      rewrite (app_assoc (Struct.to_le 8 a)).
      rewrite (slice_middle pre (Struct.to_le 8 a ++ Struct.to_le 8 b)); 
        [|reflexivity|].
      * rewrite unpack_QQ_to_le by assumption.
        replace (len pre + 16) with
          (len (pre ++ Struct.to_le 8 a ++ Struct.to_le 8 b)).
        -- rewrite (app_assoc pre). rewrite IH by assumption.
           now rewrite <- app_assoc.
        -- rewrite !len_app. unfold len. rewrite !length_to_le. lia.
      * rewrite len_app. unfold len. rewrite !length_to_le. lia.
    + exfalso. rewrite !len_app in Hge. unfold len in Hge.
      rewrite ?length_app, ?length_to_le in Hge. lia.
Qed.

Lemma length_slice {A : Type} (l : list A) (a b : N) :
  length (slice l a b) = Nat.min (N.to_nat (b - a)) (length l - N.to_nat a).
Proof.
  unfold slice. rewrite length_firstn, length_skipn. reflexivity.
Qed.

Lemma unpack_QQ_slice (mmap : list byte) (pos : N) :
  Struct.unpack_QQ (slice mmap pos (pos + 16)) =
  if 16 <=? len mmap - pos then Ok (index_entry_at mmap pos)
  else Raise StructError.
Proof.
  unfold Struct.unpack_QQ. rewrite length_slice.
  destruct (N.leb_spec 16 (len mmap - pos)) as [Hle|Hgt].
  - unfold len in Hle.
    replace (Nat.eqb _ 16) with true by (symmetry; apply Nat.eqb_eq; lia).
    unfold index_entry_at, slice. f_equal. f_equal.
    + rewrite firstn_firstn. f_equal. f_equal. lia.
    + rewrite skipn_firstn_comm, skipn_skipn.
      f_equal. f_equal; [lia|]. f_equal. lia.
  - unfold len in Hgt.
    replace (Nat.eqb _ 16) with false; [reflexivity|].
    symmetry. apply Nat.eqb_neq. lia.
Qed.

Lemma load_index_loop_strides (mmap : list byte) (k : nat) :
  forall (pos : N) (acc : list (N * N)),
    N.of_nat k = (len mmap - pos) / 16 ->
    WikiLinkReader.load_index_loop mmap pos acc =
    acc ++ map (fun i => index_entry_at mmap (pos + 16 * N.of_nat i)) (seq 0 k).
Proof.
  induction k as [|k IH]; intros pos acc Hk; rewrite load_index_loop_step.
  - simpl. rewrite app_nil_r.
    destruct (Z_lt_ge_dec _ _) as [Hlt|Hge]; [|reflexivity].
    rewrite unpack_QQ_slice.
    destruct (N.leb_spec 16 (len mmap - pos)); [lia | reflexivity].
  - destruct (Z_lt_ge_dec _ _) as [Hlt|Hge]; [|lia].
    rewrite unpack_QQ_slice.
    destruct (N.leb_spec 16 (len mmap - pos)) as [Hle|Hgt]; [|lia].
    unfold index_entry_at at 1. rewrite IH by lia.
    rewrite <- app_assoc. f_equal.
    cbn [seq map app]. f_equal.
    + unfold index_entry_at. repeat f_equal; lia.
    + rewrite <- seq_shift, map_map. apply map_ext.
      intros i. f_equal. lia.
Qed.

Lemma load_index_strides (mmap : list byte) (index_pos : N) :
  WikiLinkReader.load_index mmap index_pos =
  map (fun i => index_entry_at mmap (index_pos + 16 * N.of_nat i))
      (seq 0 (N.to_nat ((len mmap - index_pos) / 16))).
Proof.
  unfold WikiLinkReader.load_index.
  rewrite (load_index_loop_strides mmap
             (N.to_nat ((len mmap - index_pos) / 16))) by lia.
  reflexivity.
Qed.

(** ** The writer's output file *)

Lemma pack_uint_Ok (width : nat) (v : N) (packed : list byte) :
  Struct.pack_uint width v = Ok packed ->
  v < 2 ^ (8 * N.of_nat width) /\ packed = Struct.to_le width v.
Proof.
  unfold Struct.pack_uint.
  destruct (N.ltb_spec v (2 ^ (8 * N.of_nat width))); [|discriminate].
  intros [= <-]. split; [assumption | reflexivity].
Qed.

Lemma bin_write_at_end (f : binfile) (data : list byte) :
  at_end f ->
  content (bin_write f data) = content f ++ data /\
  at_end (bin_write f data).
Proof.
  unfold at_end, bin_write. intros Hpos. cbn [content position].
  rewrite Hpos. unfold len. rewrite Nat2N.id, Nat.sub_diag.
  cbn [repeat]. rewrite app_nil_r, firstn_all.
  rewrite skipn_all2 by lia. rewrite app_nil_r.
  split; [reflexivity|]. rewrite length_app. lia.
Qed.

Section WriterLayout.
Context {codec : Zlib}.

Lemma write_blocks_layout (items : list (N * list N)) :
  forall (self self' : WikiLinkWriter.t) (pos pos' : N),
    foldM WikiLinkWriter.write_block items (self, pos) = Ok (self', pos') ->
    at_end (WikiLinkWriter.outfile self) ->
    pos = position (WikiLinkWriter.outfile self) ->
    content (WikiLinkWriter.outfile self') =
      content (WikiLinkWriter.outfile self) ++ blocks_bytes items /\
    at_end (WikiLinkWriter.outfile self') /\
    pos' = position (WikiLinkWriter.outfile self') /\
    WikiLinkWriter.index self' =
      WikiLinkWriter.index self ++ layout pos items /\
    WikiLinkWriter.mapfile self' = WikiLinkWriter.mapfile self /\
    WikiLinkWriter.node_map self' = WikiLinkWriter.node_map self /\
    WikiLinkWriter.current_node_id self' =
      WikiLinkWriter.current_node_id self /\
    Forall block_fits items.
Proof.
  induction items as [|[node_id edge_ids] items IH];
    intros self self' pos pos' Hrun Hend Hpos.
  - simpl in Hrun. injection Hrun as <- <-.
    unfold blocks_bytes. simpl. rewrite !app_nil_r.
    repeat split; auto.
  - cbn [foldM] in Hrun.
    apply bind_Ok in Hrun. destruct Hrun as ([self1 pos1] & Hstep & Hrun).
    unfold WikiLinkWriter.write_block in Hstep.
    apply bind_Ok in Hstep. destruct Hstep as (size & Hsize & Hstep).
    apply pack_uint_Ok in Hsize. destruct Hsize as [Hfit Hsize].
    injection Hstep as <- <-.
    remember (compress (WikiLinkWriter.encode_edges edge_ids)) as compressed
      eqn:Hcompressed.
    destruct (bin_write_at_end _ size Hend) as [Hc1 He1].
    destruct (bin_write_at_end _ compressed He1) as [Hc2 He2].
    apply IH in Hrun; [|exact He2|reflexivity].
    cbn [WikiLinkWriter.outfile WikiLinkWriter.index WikiLinkWriter.mapfile
         WikiLinkWriter.node_map WikiLinkWriter.current_node_id] in Hrun.
    destruct Hrun as (Hc & He & Hp & Hi & Hm & Hn & Hk & Hf).
    assert (Hblock : block_bytes edge_ids = size ++ compressed)
      by (unfold block_bytes; rewrite <- Hcompressed, Hsize; reflexivity).
    repeat split; try assumption.
    + rewrite Hc, Hc2, Hc1. unfold blocks_bytes. cbn [flat_map snd].
      rewrite Hblock. now rewrite <- !app_assoc.
    + rewrite Hi, <- app_assoc. cbn [layout app]. do 3 f_equal.
      unfold bin_tell. rewrite He2, Hc2, Hc1, Hpos, Hend, Hblock.
      now rewrite <- app_assoc, !len_app.
    + constructor; [|assumption].
      unfold block_fits. cbn [snd]. rewrite <- Hcompressed. exact Hfit.
Qed.

Lemma write_index_entries (index : list (N * N)) :
  forall (f f' : binfile),
    foldM WikiLinkWriter.write_index_entry index f = Ok f' ->
    at_end f ->
    content f' = content f ++ index_bytes index /\ at_end f' /\
    Forall fits64 index.
Proof.
  induction index as [|[node_id pos] index IH]; intros f f' Hrun Hend.
  - simpl in Hrun. injection Hrun as <-. simpl. rewrite app_nil_r. auto.
  - cbn [foldM] in Hrun.
    apply bind_Ok in Hrun. destruct Hrun as (f1 & Hstep & Hrun).
    unfold WikiLinkWriter.write_index_entry, Struct.pack_QQ in Hstep.
    apply bind_Ok in Hstep. destruct Hstep as (packed & Hpacked & Hstep).
    apply bind_Ok in Hpacked. destruct Hpacked as (x & Hx & Hpacked).
    apply bind_Ok in Hpacked. destruct Hpacked as (y & Hy & Hpacked).
    apply pack_uint_Ok in Hx, Hy. destruct Hx as [Hx Ex], Hy as [Hy Ey].
    injection Hpacked as <-. injection Hstep as <-.
    destruct (bin_write_at_end f (x ++ y) Hend) as [Hc1 He1].
    apply IH in Hrun; [|exact He1].
    destruct Hrun as (Hc & He & Hfits).
    repeat split; try assumption.
    + rewrite Hc, Hc1. cbn [index_bytes flat_map fst snd].
      rewrite Ex, Ey. now rewrite <- !app_assoc.
    + constructor; [split; assumption | assumption].
Qed.

End WriterLayout.

(** ** Dictionaries *)

Section DictFacts.
Context {K V : Type} (eq_dec : forall x y : K, {x = y} + {x <> y}).

Lemma dict_find_setitem (d : dict K V) (k k' : K) (v : V) :
  dict_find eq_dec (dict_setitem eq_dec d k v) k' =
  if eq_dec k' k then Some v else dict_find eq_dec d k'.
Proof.
  induction d as [|[k0 v0] d IH]; simpl.
  - destruct (eq_dec k' k); reflexivity.
  - destruct (eq_dec k k0) as [->|Hne]; simpl.
    + destruct (eq_dec k' k0); reflexivity.
    + destruct (eq_dec k' k0) as [->|Hne'].
      * destruct (eq_dec k0 k); [congruence | reflexivity].
      * exact IH.
Qed.

Lemma dict_find_None (d : dict K V) (k : K) :
  dict_find eq_dec d k = None <-> ~ In k (map fst d).
Proof.
  induction d as [|[k0 v0] d IH]; simpl.
  - tauto.
  - destruct (eq_dec k k0) as [->|Hne].
    + split; [discriminate | tauto].
    + rewrite IH. split; [intros H [E|I]; [congruence | tauto] | tauto].
Qed.

Lemma dict_find_In (d : dict K V) (k : K) (v : V) :
  dict_find eq_dec d k = Some v -> In (k, v) d.
Proof.
  induction d as [|[k0 v0] d IH]; simpl; [discriminate|].
  destruct (eq_dec k k0) as [->|Hne].
  - intros [= ->]. now left.
  - intros H. right. now apply IH.
Qed.

Lemma In_dict_find (d : dict K V) (k : K) (v : V) :
  NoDup (map fst d) -> In (k, v) d -> dict_find eq_dec d k = Some v.
Proof.
  induction d as [|[k0 v0] d IH]; simpl; [tauto|].
  intros Hnd [E|Hin].
  - injection E as -> ->. destruct (eq_dec k k); [reflexivity | congruence].
  - inversion Hnd as [|? ? Hnotin Hnd']; subst.
    destruct (eq_dec k k0) as [->|Hne].
    + exfalso. apply Hnotin. change k0 with (fst (k0, v)). now apply in_map.
    + now apply IH.
Qed.

Lemma dict_setitem_new (d : dict K V) (k : K) (v : V) :
  dict_find eq_dec d k = None -> dict_setitem eq_dec d k v = d ++ [(k, v)].
Proof.
  induction d as [|[k0 v0] d IH]; simpl; [reflexivity|].
  destruct (eq_dec k k0); [discriminate|].
  intros H. now rewrite IH.
Qed.

Lemma dict_setitem_keys (d : dict K V) (k : K) (v : V) :
  map fst (dict_setitem eq_dec d k v) =
  if dict_contains eq_dec d k then map fst d else map fst d ++ [k].
Proof.
  unfold dict_contains.
  induction d as [|[k0 v0] d IH]; simpl; [reflexivity|].
  destruct (eq_dec k k0) as [->|Hne]; simpl; [reflexivity|].
  rewrite IH. destruct (dict_find eq_dec d k); reflexivity.
Qed.

Lemma dict_setitem_NoDup (d : dict K V) (k : K) (v : V) :
  NoDup (map fst d) -> NoDup (map fst (dict_setitem eq_dec d k v)).
Proof.
  intros Hnd. rewrite dict_setitem_keys. unfold dict_contains.
  destruct (dict_find eq_dec d k) eqn:E; [assumption|].
  apply dict_find_None in E.
  apply NoDup_app; [assumption | repeat constructor; simpl; tauto |].
  intros x Hx [<-|[]]. contradiction.
Qed.

End DictFacts.

Lemma NoDup_snd_injective {A B : Type} (l : list (A * B)) (a a' : A) (b : B) :
  NoDup (map snd l) -> In (a, b) l -> In (a', b) l -> a = a'.
Proof.
  induction l as [|[x y] l IH]; simpl; [tauto|].
  intros Hnd Ha Ha'. inversion Hnd as [|? ? Hnotin Hnd']; subst.
  destruct Ha as [Ea|Ha], Ha' as [Ea'|Ha'].
  - congruence.
  - injection Ea as -> ->. exfalso. apply Hnotin.
    change b with (snd (a', b)). now apply in_map.
  - injection Ea' as -> ->. exfalso. apply Hnotin.
    change b with (snd (a, b)). now apply in_map.
  - now apply IH.
Qed.

Lemma extends_refl (nm : dict pystr N) : extends nm nm.
Proof.
  intros t i H. exact H.
Qed.

Lemma extends_trans (a b c : dict pystr N) :
  extends a b -> extends b c -> extends a c.
Proof.
  intros Hab Hbc t i H. apply Hbc, Hab, H.
Qed.

Lemma ids_of_extends (nm nm' : dict pystr N) (ts : list pystr) (ids : list N) :
  extends nm nm' -> ids_of nm ts ids -> ids_of nm' ts ids.
Proof.
  intros Hext H. induction H; constructor; auto.
Qed.

Lemma node_map_injective (self : WikiLinkWriter.t) (t t' : pystr) (i : N) :
  node_map_ok self ->
  dict_find pystr_eq_dec (WikiLinkWriter.node_map self) t = Some i ->
  dict_find pystr_eq_dec (WikiLinkWriter.node_map self) t' = Some i ->
  t = t'.
Proof.
  intros Hok Ht Ht'.
  apply dict_find_In in Ht, Ht'.
  eapply NoDup_snd_injective; [|exact Ht|exact Ht'].
  rewrite (nm_ids _ Hok).
  apply Finite.Injective_map_NoDup; [|apply seq_NoDup].
  intros x y Hxy. lia.
Qed.

Lemma node_map_bound (self : WikiLinkWriter.t) (t : pystr) (i : N) :
  node_map_ok self ->
  dict_find pystr_eq_dec (WikiLinkWriter.node_map self) t = Some i ->
  i < WikiLinkWriter.current_node_id self.
Proof.
  intros Hok Ht. apply dict_find_In in Ht.
  apply (in_map snd) in Ht. rewrite (nm_ids _ Hok) in Ht. simpl in Ht.
  apply in_map_iff in Ht. destruct Ht as (k & <- & Hk).
  apply in_seq in Hk. rewrite (nm_counter _ Hok). unfold len. lia.
Qed.

Lemma intern_spec (self self' : WikiLinkWriter.t) (title : pystr) :
  WikiLinkWriter.intern self title = Ok self' ->
  node_map_ok self ->
  node_map_ok self' /\
  WikiLinkWriter.outfile self' = WikiLinkWriter.outfile self /\
  WikiLinkWriter.index self' = WikiLinkWriter.index self /\
  extends (WikiLinkWriter.node_map self) (WikiLinkWriter.node_map self') /\
  (exists i, dict_find pystr_eq_dec (WikiLinkWriter.node_map self') title
             = Some i) /\
  (forall t, In t (map fst (WikiLinkWriter.node_map self')) ->
             In t (map fst (WikiLinkWriter.node_map self)) \/ t = title).
Proof.
  unfold WikiLinkWriter.intern, dict_contains. intros Hrun Hok.
  destruct (dict_find pystr_eq_dec (WikiLinkWriter.node_map self) title)
    as [i|] eqn:Hfind.
  - injection Hrun as <-.
    repeat split; try assumption; try reflexivity; try apply Hok.
    + apply extends_refl.
    + now exists i.
    + intros t Ht. now left.
  - apply bind_Ok in Hrun. destruct Hrun as (mapfile' & Hwrite & Hrun).
    injection Hrun as <-.
    unfold text_write in Hwrite.
    destruct (forallb encodable _); [|discriminate].
    injection Hwrite as <-.
    pose proof (dict_setitem_new pystr_eq_dec _ title
                  (WikiLinkWriter.current_node_id self) Hfind) as Hnew.
    repeat split; cbn [WikiLinkWriter.node_map WikiLinkWriter.mapfile
      WikiLinkWriter.current_node_id WikiLinkWriter.outfile
      WikiLinkWriter.index]; try reflexivity.
    + apply dict_setitem_NoDup. apply Hok.
    + rewrite Hnew, map_app, length_app. cbn [map snd length].
      rewrite Nat.add_1_r, seq_S, map_app, (nm_ids _ Hok). cbn [map].
      rewrite (nm_counter _ Hok). reflexivity.
    + rewrite Hnew, len_app, (nm_counter _ Hok). reflexivity.
    + rewrite Hnew, flat_map_app, (nm_sidecar _ Hok). cbn [flat_map].
      rewrite app_nil_r. reflexivity.
    + intros t i Ht. rewrite dict_find_setitem.
      destruct (pystr_eq_dec t title) as [->|]; [congruence | exact Ht].
    + exists (WikiLinkWriter.current_node_id self).
      rewrite dict_find_setitem.
      destruct (pystr_eq_dec title title); [reflexivity | congruence].
    + intros t Ht. rewrite Hnew, map_app in Ht. apply in_app_or in Ht.
      destruct Ht as [Ht|[<-|[]]]; [now left | now right].
Qed.

Lemma link_ids_spec (linked_titles : list pystr) :
  forall (self self' : WikiLinkWriter.t) (acc edge_ids : list N),
    WikiLinkWriter.link_ids self linked_titles acc = Ok (self', edge_ids) ->
    node_map_ok self ->
    node_map_ok self' /\
    WikiLinkWriter.outfile self' = WikiLinkWriter.outfile self /\
    WikiLinkWriter.index self' = WikiLinkWriter.index self /\
    extends (WikiLinkWriter.node_map self) (WikiLinkWriter.node_map self') /\
    (exists ids, edge_ids = acc ++ ids /\
                 ids_of (WikiLinkWriter.node_map self') linked_titles ids) /\
    (forall t, In t (map fst (WikiLinkWriter.node_map self')) ->
               In t (map fst (WikiLinkWriter.node_map self)) \/
               In t linked_titles).
Proof.
  induction linked_titles as [|title rest IH];
    intros self self' acc edge_ids Hrun Hok.
  - simpl in Hrun. injection Hrun as <- <-.
    repeat split; try assumption; try reflexivity; try apply Hok.
    + apply extends_refl.
    + exists []. split; [now rewrite app_nil_r | constructor].
    + intros t Ht. now left.
  - cbn [WikiLinkWriter.link_ids] in Hrun.
    apply bind_Ok in Hrun. destruct Hrun as (self1 & Hintern & Hrun).
    apply bind_Ok in Hrun. destruct Hrun as (id & Hid & Hrun).
    destruct (intern_spec _ _ _ Hintern Hok)
      as (Hok1 & Hout1 & Hidx1 & Hext1 & _ & Hkeys1).
    destruct (IH _ _ _ _ Hrun Hok1)
      as (Hok' & Hout' & Hidx' & Hext' & (ids & -> & Hids) & Hkeys').
    unfold dict_getitem in Hid.
    destruct (dict_find pystr_eq_dec (WikiLinkWriter.node_map self1) title)
      as [i|] eqn:Hfind; [|discriminate].
    injection Hid as ->.
    split; [exact Hok'|]. split; [congruence|]. split; [congruence|].
    split; [|split].
    + eapply extends_trans; eassumption.
    + exists (id :: ids). split; [now rewrite <- app_assoc|].
      constructor; [now apply Hext' | assumption].
    + intros t Ht. apply Hkeys' in Ht. destruct Ht as [Ht|Ht].
      * apply Hkeys1 in Ht. destruct Ht as [Ht| ->]; [now left|].
        right. now left.
      * right. now right.
Qed.

(** ** The first pass: the invariant of its loop *)

Lemma dict_find_keys {K V : Type} (eq_dec : forall x y : K, {x = y} + {x <> y})
    (d : dict K V) (k : K) :
  In k (map fst d) <-> exists v, dict_find eq_dec d k = Some v.
Proof.
  split.
  - intros Hin. destruct (dict_find eq_dec d k) as [v|] eqn:E; [now exists v|].
    apply dict_find_None in E. contradiction.
  - intros [v Hv]. apply dict_find_In in Hv.
    change k with (fst (k, v)). now apply in_map.
Qed.

Lemma last_edges_snoc (input : records) (item : pystr * list pystr)
    (src : pystr) :
  last_edges (input ++ [item]) src =
  last_edges_step src (last_edges input src) item.
Proof.
  unfold last_edges. now rewrite fold_left_app.
Qed.

Lemma titles_app (a b : records) : titles (a ++ b) = titles a ++ titles b.
Proof.
  unfold titles. apply flat_map_app.
Qed.

Lemma ids_of_nil (nm : dict pystr N) (ts : list pystr) (ids : list N) :
  ids_of nm ts ids -> (ids = [] <-> ts = []).
Proof.
  intros H. destruct H; split; intros; congruence.
Qed.

Lemma ingest_item_inv (processed : records) (self self' : WikiLinkWriter.t)
    (nwe nwe' : dict N (list N)) (item : pystr * list pystr) :
  WikiLinkWriter.ingest_item (self, nwe) item = Ok (self', nwe') ->
  pass_inv processed self nwe ->
  pass_inv (processed ++ [item]) self' nwe' /\
  WikiLinkWriter.outfile self' = WikiLinkWriter.outfile self /\
  WikiLinkWriter.index self' = WikiLinkWriter.index self.
Proof.
  destruct item as [src dsts]. intros Hrun Hinv.
  unfold WikiLinkWriter.ingest_item in Hrun.
  apply bind_Ok in Hrun. destruct Hrun as (self1 & Hintern & Hrun).
  apply bind_Ok in Hrun. destruct Hrun as (node_id & Hid & Hrun).
  apply bind_Ok in Hrun. destruct Hrun as ([self2 edge_ids] & Hlink & Hrun).
  injection Hrun as <- <-.
  destruct (intern_spec _ _ _ Hintern (inv_node_map _ _ _ Hinv))
    as (Hok1 & Hout1 & Hidx1 & Hext1 & _ & Hkeys1).
  destruct (link_ids_spec _ _ _ _ _ Hlink Hok1)
    as (Hok2 & Hout2 & Hidx2 & Hext2 & (ids & -> & Hids) & Hkeys2).
  simpl app in *.
  unfold dict_getitem in Hid.
  destruct (dict_find pystr_eq_dec (WikiLinkWriter.node_map self1) src)
    as [i|] eqn:Hsrc; [|discriminate].
  injection Hid as ->.
  assert (Hsrc2 : dict_find pystr_eq_dec (WikiLinkWriter.node_map self2) src
                  = Some node_id) by (apply Hext2; exact Hsrc).
  assert (Hext : extends (WikiLinkWriter.node_map self)
                         (WikiLinkWriter.node_map self2))
    by (eapply extends_trans; eassumption).
  split; [|split; congruence].
  constructor.
  - exact Hok2.
  - destruct ids; [apply Hinv|].
    apply dict_setitem_NoDup. apply Hinv.
  - intros t. rewrite titles_app. unfold titles at 2. cbn [flat_map fst snd].
    rewrite app_nil_r, in_app_iff. split.
    + intros [Ht|[<-|Ht]].
      * apply (inv_interned _ _ _ Hinv) in Ht.
        apply (dict_find_keys pystr_eq_dec) in Ht. destruct Ht as [v Hv].
        apply (dict_find_keys pystr_eq_dec). exists v. now apply Hext.
      * apply (dict_find_keys pystr_eq_dec). now exists node_id.
      * clear - Hids Ht.
        induction Hids as [|t0 j ts js Hj _ IH]; [destruct Ht|].
        destruct Ht as [<-|Ht]; [|now apply IH].
        apply (dict_find_keys pystr_eq_dec). now exists j.
    + intros Ht. apply Hkeys2 in Ht. destruct Ht as [Ht|Ht].
      * apply Hkeys1 in Ht. destruct Ht as [Ht| ->].
        -- left. now apply (inv_interned _ _ _ Hinv).
        -- right. now left.
      * right. now right.
  - intros src' dsts' Hlast. rewrite last_edges_snoc in Hlast.
    unfold last_edges_step in Hlast. cbn [fst snd] in Hlast.
    assert (Hold : last_edges processed src' = Some dsts' ->
                   (src' = src -> dsts = []) ->
                   exists i ids0,
                     dict_find pystr_eq_dec (WikiLinkWriter.node_map self2) src'
                       = Some i /\
                     dict_find N.eq_dec
                       match ids with
                       | [] => nwe
                       | _ :: _ => dict_setitem N.eq_dec nwe node_id ids
                       end i = Some ids0 /\
                     ids_of (WikiLinkWriter.node_map self2) dsts' ids0).
    { intros Hl Hdiff.
      destruct (inv_stored _ _ _ Hinv _ _ Hl)
        as (i & ids0 & Hi & Hfind & Hids0).
      exists i, ids0. split; [now apply Hext|]. split.
      - destruct ids as [|j ids']; [exact Hfind|].
        rewrite dict_find_setitem.
        destruct (N.eq_dec i node_id) as [->|Hne]; [|exact Hfind].
        exfalso.
        assert (src' = src).
        { eapply node_map_injective; [exact Hok2| |exact Hsrc2].
          now apply Hext. }
        specialize (Hdiff H).
        apply (ids_of_nil _ _ _ Hids) in Hdiff. discriminate.
      - eapply ids_of_extends; eassumption. }
    destruct (pystr_eq_dec src src') as [<-|Hne].
    + destruct dsts as [|d dsts0].
      * apply Hold; [exact Hlast | reflexivity].
      * injection Hlast as <-.
        exists node_id, ids. split; [exact Hsrc2|]. split; [|exact Hids].
        destruct ids as [|j ids']; [inversion Hids|].
        rewrite dict_find_setitem.
        destruct (N.eq_dec node_id node_id); [reflexivity | congruence].
    + apply Hold; [exact Hlast | congruence].
  - intros i Hi.
    assert (Hkeep : forall s, last_edges processed s <> None ->
                last_edges (processed ++ [(src, dsts)]) s <> None).
    { intros s Hs. rewrite last_edges_snoc. unfold last_edges_step.
      cbn [fst snd]. destruct (pystr_eq_dec src s); [|exact Hs].
      destruct dsts; [exact Hs | discriminate]. }
    assert (Hold : In i (map fst nwe) ->
      exists src0,
        dict_find pystr_eq_dec (WikiLinkWriter.node_map self2) src0 = Some i /\
        last_edges (processed ++ [(src, dsts)]) src0 <> None).
    { intros Hin. destruct (inv_only _ _ _ Hinv _ Hin) as (s & Hs & Hl).
      exists s. split; [now apply Hext | now apply Hkeep]. }
    destruct ids as [|j ids']; [now apply Hold|].
    rewrite dict_setitem_keys in Hi.
    destruct (dict_contains N.eq_dec nwe node_id); [now apply Hold|].
    apply in_app_or in Hi. destruct Hi as [Hi|[<-|[]]]; [now apply Hold|].
    exists src. split; [exact Hsrc2|].
    rewrite last_edges_snoc. unfold last_edges_step. cbn [fst snd].
    destruct (pystr_eq_dec src src); [|congruence].
    destruct dsts; [inversion Hids | discriminate].
Qed.

Lemma ingest_items_inv (items : records) :
  forall (processed : records) (self self' : WikiLinkWriter.t)
         (nwe nwe' : dict N (list N)),
    foldM WikiLinkWriter.ingest_item items (self, nwe) = Ok (self', nwe') ->
    pass_inv processed self nwe ->
    pass_inv (processed ++ items) self' nwe' /\
    WikiLinkWriter.outfile self' = WikiLinkWriter.outfile self /\
    WikiLinkWriter.index self' = WikiLinkWriter.index self.
Proof.
  induction items as [|item items IH];
    intros processed self self' nwe nwe' Hrun Hinv.
  - simpl in Hrun. injection Hrun as <- <-. rewrite app_nil_r. auto.
  - cbn [foldM] in Hrun.
    apply bind_Ok in Hrun. destruct Hrun as ([self1 nwe1] & Hstep & Hrun).
    destruct (ingest_item_inv _ _ _ _ _ _ Hstep Hinv)
      as (Hinv1 & Hout1 & Hidx1).
    destruct (IH _ _ _ _ _ Hrun Hinv1) as (Hinv' & Hout' & Hidx').
    rewrite <- app_assoc in Hinv'. simpl in Hinv'.
    split; [exact Hinv' | split; congruence].
Qed.

Lemma ingest_lines_inv (jsonl_file : jsonl) :
  forall (processed : records) (self self' : WikiLinkWriter.t)
         (nwe nwe' : dict N (list N)),
    foldM (fun st data => foldM WikiLinkWriter.ingest_item data st)
          jsonl_file (self, nwe) = Ok (self', nwe') ->
    pass_inv processed self nwe ->
    pass_inv (processed ++ concat jsonl_file) self' nwe' /\
    WikiLinkWriter.outfile self' = WikiLinkWriter.outfile self /\
    WikiLinkWriter.index self' = WikiLinkWriter.index self.
Proof.
  induction jsonl_file as [|data rest IH];
    intros processed self self' nwe nwe' Hrun Hinv.
  - simpl in Hrun. injection Hrun as <- <-. simpl. rewrite app_nil_r. auto.
  - cbn [foldM] in Hrun.
    apply bind_Ok in Hrun. destruct Hrun as ([self1 nwe1] & Hstep & Hrun).
    destruct (ingest_items_inv _ _ _ _ _ _ Hstep Hinv)
      as (Hinv1 & Hout1 & Hidx1).
    destruct (IH _ _ _ _ _ Hrun Hinv1) as (Hinv' & Hout' & Hidx').
    rewrite <- app_assoc in Hinv'. simpl concat.
    split; [exact Hinv' | split; congruence].
Qed.

Lemma pass_inv_start (self : WikiLinkWriter.t) :
  WikiLinkWriter.node_map self = [] ->
  WikiLinkWriter.mapfile self = [] ->
  WikiLinkWriter.current_node_id self = 0 ->
  pass_inv [] self [].
Proof.
  intros Hnm Hmf Hc. constructor.
  - constructor; rewrite ?Hnm, ?Hmf, ?Hc; simpl; try reflexivity. constructor.
  - constructor.
  - intros t. rewrite Hnm. simpl. tauto.
  - intros src dsts H. discriminate.
  - intros i [].
Qed.

Lemma first_pass_inv (self self' : WikiLinkWriter.t) (jsonl_file : jsonl)
    (nwe : dict N (list N)) :
  WikiLinkWriter.first_pass self jsonl_file = Ok (self', nwe) ->
  WikiLinkWriter.node_map self = [] ->
  WikiLinkWriter.mapfile self = [] ->
  WikiLinkWriter.current_node_id self = 0 ->
  pass_inv (concat jsonl_file) self' nwe /\
  WikiLinkWriter.outfile self' = WikiLinkWriter.outfile self /\
  WikiLinkWriter.index self' = WikiLinkWriter.index self.
Proof.
  intros Hrun Hnm Hmf Hc.
  apply (ingest_lines_inv jsonl_file [] self self' [] nwe Hrun).
  now apply pass_inv_start.
Qed.

(** ** The layout of a finished store *)

Lemma bin_write_patch (f : binfile) (offset : N) (data : list byte) :
  offset <= len (content f) ->
  content (bin_write (bin_seek f offset) data) =
  firstn (N.to_nat offset) (content f) ++ data ++
  skipn (N.to_nat offset + length data) (content f).
Proof.
  intros Hoff. unfold bin_write, bin_seek. cbn [content position].
  replace (N.to_nat offset - length (content f))%nat with 0%nat
    by (unfold len in Hoff; lia).
  cbn [repeat]. now rewrite app_nil_r.
Qed.

Section StoreLayout.
Context {codec : Zlib}.

Lemma process_jsonl_dump_store (jsonl_file : jsonl) (self : WikiLinkWriter.t) :
  convert_wiki_jsonl jsonl_file = Ok self ->
  exists nwe, store_of jsonl_file self nwe.
Proof.
  unfold convert_wiki_jsonl, WikiLinkWriter.process_jsonl_dump.
  intros Hrun.
  apply bind_Ok in Hrun. destruct Hrun as (self0 & Hheader & Hrun).
  apply bind_Ok in Hrun. destruct Hrun as ([self1 nwe] & Hfirst & Hrun).
  apply bind_Ok in Hrun. destruct Hrun as ([self2 pos2] & Hsecond & Hrun).
  apply bind_Ok in Hrun. destruct Hrun as (f3 & Hindex & Hrun).
  apply bind_Ok in Hrun. destruct Hrun as (trailer & Htrailer & Hrun).
  apply bind_Ok in Hrun. destruct Hrun as (count & Hcount & Hrun).
  injection Hrun as <-.
  (* the header *)
  unfold WikiLinkWriter.write_header, Struct.pack_II in Hheader.
  apply bind_Ok in Hheader. destruct Hheader as (header & Hpack & Hheader).
  apply bind_Ok in Hpack. destruct Hpack as (hv & Hhv & Hpack).
  apply bind_Ok in Hpack. destruct Hpack as (hc & Hhc & Hpack).
  apply pack_uint_Ok in Hhv, Hhc. destruct Hhv as [_ Hhv], Hhc as [_ Hhc].
  injection Hpack as <-. injection Hheader as <-.
  assert (Hend0 : at_end bin_open) by reflexivity.
  destruct (bin_write_at_end bin_open WikiLinkWriter.MAGIC Hend0)
    as [Hc0 He0].
  destruct (bin_write_at_end _ (hv ++ hc) He0) as [Hc0' He0'].
  (* the first pass *)
  apply first_pass_inv in Hfirst; try reflexivity.
  cbn [WikiLinkWriter.outfile WikiLinkWriter.index WikiLinkWriter.set_outfile]
    in Hfirst.
  destruct Hfirst as (Hinv & Hout1 & Hidx1).
  (* the blocks *)
  apply write_blocks_layout in Hsecond;
    [| rewrite Hout1; exact He0'
     | rewrite Hout1; reflexivity ].
  destruct Hsecond as (Hc2 & He2 & Hp2 & Hi2 & Hm2 & Hn2 & Hk2 & Hfit2).
  (* the index *)
  apply write_index_entries in Hindex; [|exact He2].
  destruct Hindex as (Hc3 & He3 & Hfit3).
  apply pack_uint_Ok in Htrailer, Hcount.
  destruct Htrailer as [Hpos Htrailer], Hcount as [Hcnt Hcount].
  destruct (bin_write_at_end f3 trailer He3) as [Hc4 He4].
  assert (Hhdr : content (WikiLinkWriter.outfile self1) =
                 WikiLinkWriter.MAGIC ++ hv ++ hc).
  { rewrite Hout1, Hc0', Hc0. reflexivity. }
  assert (Hpos2 : pos2 = 16 + len (blocks_bytes nwe)).
  { rewrite Hp2, He2, Hc2, Hhdr, !len_app, Hhv, Hhc. reflexivity. }
  assert (Hidx : WikiLinkWriter.index self2 = layout 16 nwe).
  { rewrite Hi2, Hidx1. simpl. f_equal.
    unfold bin_tell.
    cbn [WikiLinkWriter.outfile WikiLinkWriter.set_outfile].
    rewrite He0', Hc0', Hc0, Hhv, Hhc. reflexivity. }
  exists nwe. constructor;
    cbn [WikiLinkWriter.outfile WikiLinkWriter.index WikiLinkWriter.set_outfile
         WikiLinkWriter.current_node_id WikiLinkWriter.node_map
         WikiLinkWriter.mapfile].
  - destruct Hinv as [Hok Hkeys Hint Hst Honly].
    constructor;
      cbn [WikiLinkWriter.node_map WikiLinkWriter.set_outfile];
      rewrite ?Hn2; try assumption.
    destruct Hok as [H1 H2 H3 H4].
    constructor; cbn [WikiLinkWriter.node_map WikiLinkWriter.mapfile
      WikiLinkWriter.current_node_id WikiLinkWriter.set_outfile];
      rewrite ?Hn2, ?Hm2, ?Hk2; assumption.
  - rewrite bin_write_patch
      by (rewrite Hc4, Hc3, Hc2, Hhdr, !len_app;
          change (len WikiLinkWriter.MAGIC) with 8; lia).
    rewrite Hc4, Hc3, Hc2, Hhdr, Hidx, Hcount, Htrailer, Hpos2.
    unfold store_bytes, patched_header.
    rewrite <- !app_assoc.
    change (N.to_nat 8) with (length WikiLinkWriter.MAGIC).
    rewrite firstn_app_exact by reflexivity.
    rewrite length_to_le, Nat.add_comm, <- skipn_skipn.
    rewrite skipn_app_exact by reflexivity.
    rewrite skipn_app_exact by (rewrite Hhv; apply length_to_le).
    rewrite Hhc. reflexivity.
  - exact Hidx.
  - exact Hfit2.
  - rewrite <- Hidx. exact Hfit3.
  - rewrite <- Hpos2. exact Hpos.
  - exact Hcnt.
Qed.

End StoreLayout.

(** ** Reading a block *)

Section ReaderFacts.
Context {codec : Zlib}.

Lemma sorted_nil : sorted [] = [].
Proof.
  reflexivity.
Qed.

(** A block that holds an encoded edge list, possibly followed by further
    bytes, is read back as the ascending edge list. *)
Lemma get_neighbors_block (self : WikiLinkReader.t) (node_id : Z)
    (block_pos block_size : N) (edges : list N) (garbage : list byte) :
  WikiLinkReader.find_block self node_id = Ok (Some block_pos) ->
  Struct.unpack_I
    (slice (WikiLinkReader.mmap self) block_pos (block_pos + 4))
    = Ok block_size ->
  decompress (slice (WikiLinkReader.mmap self) (block_pos + 4)
                (block_pos + 4 + block_size))
    = Ok (WikiLinkWriter.encode_edges edges ++ garbage) ->
  WikiLinkReader.get_neighbors self node_id = Ok (sorted edges).
Proof.
  intros Hfind Hsize Hdata. unfold WikiLinkReader.get_neighbors.
  rewrite Hfind. cbn [bind]. rewrite Hsize. cbn [bind].
  rewrite Hdata. cbn [bind].
  rewrite decode_bytes_encode_edges. cbn [bind].
  destruct (N.eqb_spec (len edges) 0) as [Hz|Hnz].
  - destruct edges; [now rewrite sorted_nil | discriminate].
  - apply decode_deltas_encode_edges.
Qed.

Lemma layout_keys (items : list (N * list N)) (pos : N) :
  map fst (layout pos items) = map fst items.
Proof.
  revert pos. induction items as [|[i e] items IH]; intros pos; simpl.
  - reflexivity.
  - now rewrite IH.
Qed.

Lemma layout_block (items : list (N * list N)) :
  forall (start node_id : N) (edge_ids : list N),
    In (node_id, edge_ids) items ->
    exists pos pre post,
      In (node_id, pos) (layout start items) /\
      blocks_bytes items = pre ++ block_bytes edge_ids ++ post /\
      pos = start + len pre.
Proof.
  induction items as [|[i e] items IH]; intros start node_id edge_ids Hin.
  - destruct Hin.
  - destruct Hin as [E|Hin].
    + injection E as -> ->.
      exists start, [], (blocks_bytes items). split; [now left|].
      split; [reflexivity|]. unfold len. simpl. lia.
    + destruct (IH (start + len (block_bytes e)) _ _ Hin)
        as (pos & pre & post & Hpos & Hbytes & ->).
      exists (start + len (block_bytes e) + len pre),
             (block_bytes e ++ pre), post.
      split; [now right|]. split.
      * unfold blocks_bytes in *. cbn [flat_map snd].
        rewrite Hbytes. now rewrite <- app_assoc.
      * rewrite len_app. lia.
Qed.

Lemma layout_source (items : list (N * list N)) :
  forall (start : N) (entry : N * N),
    In entry (layout start items) -> In (fst entry) (map fst items).
Proof.
  intros start entry Hin. rewrite <- (layout_keys items start).
  now apply in_map.
Qed.

End ReaderFacts.

Lemma sorted_pairs_permutation (index : list (N * N)) :
  Permutation index (sorted_pairs index).
Proof.
  apply PairSort.Permuted_sort.
Qed.

Lemma sorted_pairs_ascending (index : list (N * N)) :
  NoDup (map fst index) -> ascending (sorted_pairs index).
Proof.
  intros Hnd.
  assert (Hnd' : NoDup (map fst (sorted_pairs index))).
  { eapply Permutation_NoDup; [|exact Hnd].
    apply Permutation_map, sorted_pairs_permutation. }
  assert (Htrans : RelationClasses.Transitive
            (fun x y : N * N => is_true (PairOrder.leb x y))).
  { intros [a b] [c d] [e f]. unfold is_true, PairOrder.leb. simpl.
    rewrite !orb_true_iff, !andb_true_iff, !N.ltb_lt, !N.eqb_eq, !N.leb_le.
    lia. }
  pose proof (PairSort.StronglySorted_sort index Htrans) as Hs.
  fold (sorted_pairs index) in Hs.
  unfold ascending.
  induction Hs as [|x l Hs IH Hall]; constructor.
  - apply IH. now inversion Hnd'.
  - inversion Hnd' as [|? ? Hnotin _]; subst.
    rewrite Forall_forall in *. intros y Hy.
    specialize (Hall y Hy). unfold is_true, PairOrder.leb in Hall.
    rewrite orb_true_iff, andb_true_iff, N.ltb_lt, N.eqb_eq in Hall.
    destruct Hall as [Hlt|[Heq _]]; [exact Hlt|].
    exfalso. apply Hnotin. rewrite Heq. now apply in_map.
Qed.

(** ** Opening a finished store *)

Lemma unpack_II_to_le (a b : N) :
  a < 2 ^ 32 -> b < 2 ^ 32 ->
  Struct.unpack_II (Struct.to_le 4 a ++ Struct.to_le 4 b) = Ok (a, b).
Proof.
  intros Ha Hb. unfold Struct.unpack_II.
  rewrite length_app, !length_to_le.
  change (Nat.eqb (4 + 4) 8) with true. cbv iota.
  rewrite firstn_app_exact, skipn_app_exact by apply length_to_le.
  rewrite !from_le_to_le by assumption. reflexivity.
Qed.

Lemma unpack_uint_to_le (width : nat) (v : N) :
  v < 2 ^ (8 * N.of_nat width) ->
  Struct.unpack_uint width (Struct.to_le width v) = Ok v.
Proof.
  intros Hv. unfold Struct.unpack_uint.
  rewrite length_to_le, Nat.eqb_refl, from_le_to_le by assumption.
  reflexivity.
Qed.

Lemma len_to_le (width : nat) (v : N) :
  len (Struct.to_le width v) = N.of_nat width.
Proof.
  unfold len. now rewrite length_to_le.
Qed.

Section OpenStore.
Context {codec : Zlib}.

Lemma len_patched_header (counter : N) : len (patched_header counter) = 16.
Proof.
  unfold patched_header, len. rewrite !length_app, !length_to_le.
  reflexivity.
Qed.

Lemma init_store (counter : N) (nwe : dict N (list N)) (map_file : pystr) :
  counter < 2 ^ 32 ->
  Forall fits64 (sorted_pairs (layout 16 nwe)) ->
  16 + len (blocks_bytes nwe) < 2 ^ 64 ->
  WikiLinkReader.init (store_bytes counter nwe) map_file =
  Ok (opened counter nwe map_file).
Proof.
  intros Hcounter Hfits Hpos. unfold WikiLinkReader.init, opened.
  set (file := store_bytes counter nwe).
  set (idx := sorted_pairs (layout 16 nwe)) in *.
  set (ipos := 16 + len (blocks_bytes nwe)) in *.
  assert (Hlen : len file =
                 16 + len (blocks_bytes nwe) + len (index_bytes idx) + 8).
  { unfold file, store_bytes. rewrite !len_app, len_patched_header.
    rewrite len_to_le. fold idx. lia. }
  destruct (N.eqb_spec (len file) 0) as [Hz|_]; [lia|].
  assert (Hmagic : slice file 0 8 = WikiLinkWriter.MAGIC).
  { unfold file, store_bytes, patched_header. rewrite <- !app_assoc.
    apply (slice_middle [] WikiLinkWriter.MAGIC); reflexivity. }
  rewrite Hmagic.
  destruct (list_eq_dec Byte.byte_eq_dec WikiLinkWriter.MAGIC
              WikiLinkWriter.MAGIC) as [_|Hne]; [|congruence].
  cbn [negb].
  assert (Hhdr : slice file 8 16 = Struct.to_le 4 counter ++ Struct.to_le 4 0).
  { unfold file, store_bytes, patched_header. rewrite <- !app_assoc.
    rewrite (app_assoc (Struct.to_le 4 counter)).
    apply slice_middle; [reflexivity|].
    rewrite len_app, !len_to_le. reflexivity. }
  rewrite Hhdr, unpack_II_to_le by (assumption || reflexivity).
  cbn [bind].
  destruct (N.ltb_spec (len file) 8) as [Hlt|_]; [lia|].
  assert (Htrailer : slice file (len file - 8) (len file) =
                     Struct.to_le 8 ipos).
  { unfold file at 1, store_bytes. fold idx. fold ipos.
    rewrite (app_assoc (patched_header counter)).
    rewrite (app_assoc (patched_header counter ++ blocks_bytes nwe)).
    rewrite <- (app_nil_r (Struct.to_le 8 ipos)) at 1.
    apply slice_middle.
    - rewrite Hlen, !len_app, len_patched_header. lia.
    - rewrite Hlen, !len_app, len_patched_header, len_to_le. lia. }
  rewrite Htrailer. unfold Struct.unpack_Q.
  rewrite unpack_uint_to_le by exact Hpos. cbn [bind].
  do 2 f_equal.
  unfold WikiLinkReader.load_index, file, store_bytes. fold idx. fold ipos.
  rewrite (app_assoc (patched_header counter)).
  replace ipos with (len (patched_header counter ++ blocks_bytes nwe))
    by (rewrite len_app, len_patched_header; reflexivity).
  rewrite load_index_loop_index_bytes; [reflexivity | exact Hfits |].
  apply length_to_le.
Qed.

End OpenStore.

Section StoredEdges.
Context {codec : Zlib} {codec_ok : ZlibCorrect codec}.

Lemma get_neighbors_stored (counter : N) (nwe : dict N (list N))
    (map_file : pystr) (node_id : N) (edge_ids : list N) :
  NoDup (map fst nwe) ->
  Forall block_fits nwe ->
  In (node_id, edge_ids) nwe ->
  WikiLinkReader.get_neighbors (opened counter nwe map_file) (Z.of_N node_id)
  = Ok (sorted edge_ids).
Proof.
  intros Hkeys Hfit Hin.
  destruct (layout_block nwe 16 node_id edge_ids Hin)
    as (pos & pre & post & Hentry & Hbytes & Hpos).
  set (compressed := compress (WikiLinkWriter.encode_edges edge_ids)).
  assert (Hsize : len compressed < 2 ^ 32).
  { rewrite Forall_forall in Hfit. apply (Hfit _ Hin). }
  assert (Hfile : store_bytes counter nwe =
            (patched_header counter ++ pre) ++
            Struct.to_le 4 (len compressed) ++ compressed ++
            (post ++ index_bytes (sorted_pairs (layout 16 nwe)) ++
             Struct.to_le 8 (16 + len (blocks_bytes nwe)))).
  { unfold store_bytes. rewrite Hbytes. unfold block_bytes.
    fold compressed. now rewrite <- !app_assoc. }
  assert (Hpre : len (patched_header counter ++ pre) = pos).
  { rewrite len_app, len_patched_header. lia. }
  apply (get_neighbors_block _ _ pos (len compressed) edge_ids []).
  - apply (find_block_hit (opened counter nwe map_file) (node_id, pos)).
    + apply sorted_pairs_ascending. now rewrite layout_keys.
    + eapply Permutation_in; [apply sorted_pairs_permutation | exact Hentry].
  - cbn [WikiLinkReader.mmap opened]. rewrite Hfile.
    rewrite slice_middle;
      [ apply unpack_uint_to_le; exact Hsize
      | now rewrite Hpre
      | rewrite Hpre, len_to_le; reflexivity ].
  - cbn [WikiLinkReader.mmap opened]. rewrite Hfile.
    rewrite (app_assoc (patched_header counter ++ pre)).
    rewrite slice_middle.
    + rewrite app_nil_r. apply decompress_compress.
    + rewrite len_app, Hpre, len_to_le. reflexivity.
    + rewrite len_app, Hpre, len_to_le. reflexivity.
Qed.

Lemma get_neighbors_absent (counter : N) (nwe : dict N (list N))
    (map_file : pystr) (node_id : Z) :
  nwe <> [] ->
  (forall i, In i (map fst nwe) -> Z.of_N i <> node_id) ->
  WikiLinkReader.get_neighbors (opened counter nwe map_file) node_id = Ok [].
Proof.
  intros Hne Hmiss. unfold WikiLinkReader.get_neighbors.
  rewrite find_block_miss; [reflexivity | |].
  - cbn [WikiLinkReader.index opened]. intros Hnil.
    apply Hne.
    pose proof (Permutation_length (sorted_pairs_permutation (layout 16 nwe)))
      as Hlen.
    rewrite Hnil in Hlen.
    destruct nwe as [|[i e] rest]; [reflexivity | discriminate].
  - cbn [WikiLinkReader.index opened]. intros e He.
    apply Hmiss.
    apply (layout_source nwe 16).
    eapply Permutation_in; [|exact He].
    apply Permutation_sym, sorted_pairs_permutation.
Qed.

End StoredEdges.

(** ** The sidecar: decimal ids *)

Lemma str_of_N_step (n : N) :
  str_of_N n =
  if N_lt_ge_dec n 10 then [48 + n]
  else str_of_N (n / 10) ++ [48 + n mod 10].
Proof.
  rewrite str_of_N_equation_1.
  destruct (N_lt_ge_dec n 10); reflexivity.
Qed.

Lemma str_of_N_digits (n : N) :
  Forall is_digit (str_of_N n) /\ str_of_N n <> [].
Proof.
  induction n as [n IH] using (well_founded_induction N.lt_wf_0).
  rewrite str_of_N_step. destruct (N_lt_ge_dec n 10) as [Hlt|Hge].
  - split; [|discriminate]. repeat constructor; lia.
  - destruct (IH (n / 10)) as [Hd Hne]; [lia|]. split.
    + apply Forall_app. split; [exact Hd|].
      repeat constructor; lia.
    + intros H. apply app_eq_nil in H. destruct H as [_ H]. discriminate.
Qed.

Lemma digit_val_digit (c : N) : is_digit c -> digit_val c = Some (c - 48).
Proof.
  unfold is_digit, digit_val. intros [Hlo Hhi].
  destruct (N.leb_spec 48 c); [|lia].
  destruct (N.leb_spec c 57); [reflexivity | lia].
Qed.

Lemma parse_digits_app (s : pystr) (c acc : N) (after_digit : bool) :
  Forall is_digit s -> is_digit c ->
  parse_digits (s ++ [c]) acc after_digit =
  match parse_digits s acc true with
  | Some v => Some (10 * v + (c - 48))
  | None => None
  end.
Proof.
  intros Hs Hc. revert acc after_digit.
  induction Hs as [|d s Hd Hs IH]; intros acc after_digit.
  - simpl. now rewrite digit_val_digit.
  - simpl. rewrite digit_val_digit by assumption. apply IH.
Qed.

Lemma parse_digits_str_of_N (n : N) :
  parse_digits (str_of_N n) 0 false = Some n.
Proof.
  induction n as [n IH] using (well_founded_induction N.lt_wf_0).
  rewrite str_of_N_step. destruct (N_lt_ge_dec n 10) as [Hlt|Hge].
  - cbn [parse_digits]. rewrite digit_val_digit by (unfold is_digit; lia).
    f_equal. lia.
  - rewrite parse_digits_app;
      [| apply str_of_N_digits | unfold is_digit; lia].
    assert (Htrue : parse_digits (str_of_N (n / 10)) 0 true = Some (n / 10)).
    { specialize (IH (n / 10) ltac:(lia)).
      destruct (str_of_N_digits (n / 10)) as [Hd Hne].
      destruct (str_of_N (n / 10)) as [|d s]; [congruence|].
      inversion Hd; subst. cbn [parse_digits] in *.
      rewrite digit_val_digit in * by assumption. exact IH. }
    rewrite Htrue. f_equal. lia.
Qed.

Lemma is_digit_not_space (c : N) : is_digit c -> isspace c = false.
Proof.
  unfold is_digit, isspace. intros [Hlo Hhi].
  repeat match goal with
  | |- context [?a <=? ?b] => destruct (N.leb_spec a b); try lia
  | |- context [?a =? ?b] => destruct (N.eqb_spec a b); try lia
  end; reflexivity.
Qed.

Lemma lstrip_not_space (c : N) (s : pystr) :
  isspace c = false -> lstrip (c :: s) = c :: s.
Proof.
  intros H. simpl. now rewrite H.
Qed.

Lemma strip_digits (s : pystr) :
  Forall is_digit s -> strip s = s.
Proof.
  intros Hs. unfold strip, rstrip.
  destruct s as [|c s]; [reflexivity|].
  inversion Hs as [|? ? Hc Hs']; subst.
  rewrite lstrip_not_space by now apply is_digit_not_space.
  assert (Hrev : Forall is_digit (rev (c :: s)))
    by (apply Forall_rev; exact Hs).
  destruct (rev (c :: s)) as [|d r] eqn:E.
  - apply (f_equal (@rev N)) in E. rewrite rev_involutive in E. discriminate.
  - inversion Hrev; subst.
    rewrite lstrip_not_space by now apply is_digit_not_space.
    rewrite <- E. apply rev_involutive.
Qed.

Lemma int_str_of_N (n : N) : int (str_of_N n) = Ok (Z.of_N n).
Proof.
  unfold int. destruct (str_of_N_digits n) as [Hd Hne].
  rewrite strip_digits by exact Hd.
  pose proof (parse_digits_str_of_N n) as Hp.
  destruct (str_of_N n) as [|c s]; [congruence|].
  inversion Hd as [|? ? Hc _]; subst. unfold is_digit in Hc.
  destruct c as [|p]; [lia|].
  revert Hp.
  do 6 (destruct p as [p|p|]; try (exfalso; lia));
    intros Hp; cbn [fst snd]; rewrite Hp; reflexivity.
Qed.

(** ** The sidecar: lines *)

Lemma readlines_from_line (body : pystr) :
  forall (cur rest : pystr),
    Forall no_break body ->
    readlines_from cur (body ++ LF :: rest) =
    (cur ++ body ++ [LF]) :: readlines_from [] rest.
Proof.
  induction body as [|c body IH]; intros cur rest Hb.
  - reflexivity.
  - inversion Hb as [|? ? [Hlf Hcr] Hb']; subst.
    cbn [app readlines_from].
    destruct (N.eqb_spec c LF); [contradiction|].
    destruct (N.eqb_spec c CR); [contradiction|].
    rewrite IH by assumption. now rewrite <- app_assoc.
Qed.

Lemma split_no_sep (sep : N) (s : pystr) :
  ~ In sep s -> split sep s = [s].
Proof.
  induction s as [|c s IH]; intros Hs; [reflexivity|].
  simpl. destruct (N.eqb_spec c sep) as [->|Hne].
  - exfalso. apply Hs. now left.
  - rewrite IH; [reflexivity|]. intros H. apply Hs. now right.
Qed.

Lemma split_at_sep (sep : N) (a b : pystr) :
  ~ In sep a -> split sep (a ++ sep :: b) = a :: split sep b.
Proof.
  induction a as [|c a IH]; intros Ha.
  - simpl. now rewrite N.eqb_refl.
  - simpl. destruct (N.eqb_spec c sep) as [->|Hne].
    + exfalso. apply Ha. now left.
    + rewrite IH; [reflexivity|]. intros H. apply Ha. now right.
Qed.

Lemma sidecar_safe_spec (title : pystr) :
  sidecar_safe title = true ->
  ~ In TAB title /\ Forall no_break title /\
  exists body c, title = body ++ [c] /\ isspace c = false.
Proof.
  unfold sidecar_safe. rewrite andb_true_iff, forallb_forall.
  intros [Hall Hlast]. split; [|split].
  - intros Hin. specialize (Hall _ Hin). now rewrite N.eqb_refl in Hall.
  - apply Forall_forall. intros c Hc. specialize (Hall _ Hc).
    rewrite negb_true_iff, !orb_false_iff, !N.eqb_neq in Hall.
    split; tauto.
  - destruct (rev title) as [|c r] eqn:E; [discriminate|].
    exists (rev r), c. split.
    + apply (f_equal (@rev N)) in E. rewrite rev_involutive in E.
      exact E.
    + now apply negb_true_iff.
Qed.

Lemma digits_no_tab (s : pystr) : Forall is_digit s -> ~ In TAB s.
Proof.
  intros Hs Hin. rewrite Forall_forall in Hs. specialize (Hs _ Hin).
  unfold is_digit, TAB in Hs. lia.
Qed.

Lemma digits_no_break (s : pystr) : Forall is_digit s -> Forall no_break s.
Proof.
  apply Forall_impl. unfold is_digit, no_break, LF, CR. intros c Hc. lia.
Qed.

Lemma rstrip_space (s : pystr) (c : N) :
  isspace c = true -> rstrip (s ++ [c]) = rstrip s.
Proof.
  intros Hc. unfold rstrip. rewrite rev_app_distr. cbn [rev app lstrip].
  now rewrite Hc.
Qed.

Lemma rstrip_not_space (s : pystr) (c : N) :
  isspace c = false -> rstrip (s ++ [c]) = s ++ [c].
Proof.
  intros Hc. unfold rstrip. rewrite rev_app_distr. cbn [rev app].
  rewrite lstrip_not_space by exact Hc.
  cbn [rev]. now rewrite rev_involutive.
Qed.

Lemma strip_sidecar_line (digits title : pystr) :
  Forall is_digit digits -> digits <> [] ->
  (exists body c, title = body ++ [c] /\ isspace c = false) ->
  strip (digits ++ [TAB] ++ title ++ [LF]) = digits ++ [TAB] ++ title.
Proof.
  intros Hd Hne (body & c & -> & Hc). unfold strip.
  destruct digits as [|d digits]; [congruence|].
  inversion Hd as [|? ? Hd0 _]; subst.
  cbn [app]. rewrite lstrip_not_space by now apply is_digit_not_space.
  replace (d :: digits ++ TAB :: (body ++ [c]) ++ [LF])
    with (((d :: digits ++ TAB :: body) ++ [c]) ++ [LF])
    by (cbn [app]; now rewrite <- !app_assoc).
  rewrite rstrip_space by reflexivity.
  rewrite rstrip_not_space by exact Hc.
  cbn [app]. now rewrite <- !app_assoc.
Qed.

Lemma load_title_line_sidecar (bidict : BiDict.t) (entry : pystr * N) :
  sidecar_safe (fst entry) = true ->
  WikiLinkReader.load_title_line bidict (sidecar_line entry) =
  BiDict.setitem bidict (PInt (Z.of_N (snd entry))) (PStr (fst entry)).
Proof.
  destruct entry as [title id]. cbn [fst snd]. intros Hsafe.
  apply sidecar_safe_spec in Hsafe. destruct Hsafe as (Htab & _ & Hlast).
  destruct (str_of_N_digits id) as [Hd Hne].
  unfold WikiLinkReader.load_title_line, sidecar_line. cbn [fst snd].
  rewrite strip_sidecar_line by assumption.
  cbn [app]. rewrite split_at_sep by now apply digits_no_tab.
  rewrite split_no_sep by exact Htab.
  now rewrite int_str_of_N.
Qed.

Lemma readlines_sidecar (node_map : dict pystr N) :
  Forall (fun entry => sidecar_safe (fst entry) = true) node_map ->
  readlines (flat_map sidecar_line node_map) = map sidecar_line node_map.
Proof.
  unfold readlines. induction 1 as [|[title id] node_map Hsafe _ IH].
  - reflexivity.
  - cbn [flat_map map]. unfold sidecar_line at 1. cbn [fst snd] in *.
    apply sidecar_safe_spec in Hsafe. destruct Hsafe as (_ & Hbreak & _).
    replace ((str_of_N id ++ [TAB] ++ title ++ [LF]) ++
             flat_map sidecar_line node_map)
      with ((str_of_N id ++ [TAB] ++ title) ++
            LF :: flat_map sidecar_line node_map)
      by (rewrite <- !app_assoc; reflexivity).
    rewrite readlines_from_line.
    + rewrite IH. cbn [app]. unfold sidecar_line. cbn [fst snd app].
      rewrite <- !app_assoc. reflexivity.
    + apply Forall_app. split; [apply digits_no_break, str_of_N_digits|].
      constructor; [unfold no_break, TAB, LF, CR; lia | exact Hbreak].
Qed.

(** ** The sidecar: the loaded title map *)

Lemma load_title_map_sidecar (node_map : dict pystr N) :
  Forall (fun entry => sidecar_safe (fst entry) = true) node_map ->
  WikiLinkReader.load_title_map (flat_map sidecar_line node_map) =
  fold_left title_entry node_map BiDict.init.
Proof.
  intros Hsafe. unfold WikiLinkReader.load_title_map.
  rewrite readlines_sidecar by exact Hsafe.
  generalize BiDict.init.
  induction Hsafe as [|entry node_map He _ IH]; intros b; [reflexivity|].
  cbn [map fold_left]. rewrite load_title_line_sidecar by exact He.
  apply IH.
Qed.

Lemma title_entries_lookup (node_map : dict pystr N) :
  NoDup (map fst node_map) -> NoDup (map snd node_map) ->
  let bidict := fold_left title_entry node_map BiDict.init in
  (forall t i, In (t, i) node_map ->
     dict_find pyval_eq_dec (BiDict.forward bidict) (PInt (Z.of_N i))
       = Some (PStr t) /\
     dict_find pyval_eq_dec (BiDict.backward bidict) (PStr t)
       = Some (PInt (Z.of_N i))) /\
  (forall s, dict_find pyval_eq_dec (BiDict.forward bidict) (PStr s) = None).
Proof.
  induction node_map as [|[t0 i0] node_map IH] using rev_ind;
    intros Hk Hv; cbn zeta.
  - split; [intros t i []|reflexivity].
  - rewrite fold_left_app. cbn [fold_left].
    rewrite map_app in Hk, Hv. cbn [map fst snd] in Hk, Hv.
    apply NoDup_remove in Hk, Hv. rewrite app_nil_r in Hk, Hv.
    destruct Hk as [Hk Hk0], Hv as [Hv Hv0].
    destruct (IH Hk Hv) as [Hin Hstr].
    remember (fold_left title_entry node_map BiDict.init) as b eqn:Hb.
    unfold title_entry, BiDict.setitem.
    cbn [BiDict.forward BiDict.backward fst snd].
    split.
    + intros t i Hti. rewrite !dict_find_setitem.
      apply in_app_or in Hti. destruct Hti as [Hti|[E|[]]].
      * destruct (pyval_eq_dec (PInt (Z.of_N i)) (PInt (Z.of_N i0))) as [E|_].
        { exfalso. apply Hv0. injection E as E. apply N2Z.inj in E. subst i0.
          change i with (snd (t, i)). now apply in_map. }
        destruct (pyval_eq_dec (PStr t) (PStr t0)) as [E|_].
        { exfalso. apply Hk0. injection E as <-.
          change t with (fst (t, i)). now apply in_map. }
        now apply Hin.
      * injection E as <- <-.
        destruct (pyval_eq_dec (PInt (Z.of_N i0)) (PInt (Z.of_N i0)));
          [|congruence].
        destruct (pyval_eq_dec (PStr t0) (PStr t0)); [|congruence].
        split; reflexivity.
    + intros s. rewrite dict_find_setitem.
      destruct (pyval_eq_dec (PStr s) (PInt (Z.of_N i0))); [discriminate|].
      apply Hstr.
Qed.

Lemma bidict_get_forward (bidict : BiDict.t) (key value default : pyval) :
  dict_find pyval_eq_dec (BiDict.forward bidict) key = Some value ->
  BiDict.get bidict key default = Ok value.
Proof.
  intros H. unfold BiDict.get, BiDict.getitem, dict_getitem. now rewrite H.
Qed.

Lemma bidict_get_backward (bidict : BiDict.t) (key value default : pyval) :
  dict_find pyval_eq_dec (BiDict.forward bidict) key = None ->
  dict_find pyval_eq_dec (BiDict.backward bidict) key = Some value ->
  BiDict.get bidict key default = Ok value.
Proof.
  intros Hf Hb. unfold BiDict.get, BiDict.getitem, dict_getitem.
  now rewrite Hf, Hb.
Qed.

(** The title map loaded from the sidecar of a writer whose titles are all
    safe answers both directions for every interned title. *)
Lemma title_map_roundtrip (self : WikiLinkWriter.t) (t : pystr) (i : N) :
  node_map_ok self ->
  (forall t', In t' (map fst (WikiLinkWriter.node_map self)) ->
              sidecar_safe t' = true) ->
  dict_find pystr_eq_dec (WikiLinkWriter.node_map self) t = Some i ->
  let bidict := WikiLinkReader.load_title_map (WikiLinkWriter.mapfile self) in
  BiDict.get bidict (PInt (Z.of_N i)) PNone = Ok (PStr t) /\
  BiDict.get bidict (PStr t) PNone = Ok (PInt (Z.of_N i)).
Proof.
  intros Hok Hsafe Hfind. cbn zeta.
  rewrite (nm_sidecar _ Hok).
  rewrite load_title_map_sidecar.
  - destruct (title_entries_lookup (WikiLinkWriter.node_map self))
      as [Hin Hstr].
    + apply Hok.
    + rewrite (nm_ids _ Hok).
      apply Finite.Injective_map_NoDup; [|apply seq_NoDup].
      intros x y Hxy. lia.
    + apply dict_find_In in Hfind. destruct (Hin _ _ Hfind) as [Hf Hb].
      split.
      * now apply bidict_get_forward.
      * apply bidict_get_backward; [apply Hstr | exact Hb].
  - apply Forall_forall. intros [t' i'] Hin. cbn [fst]. apply Hsafe.
    change t' with (fst (t', i')). now apply in_map.
Qed.

(** ** Opening an arbitrary file *)

Lemma init_total (file : list byte) (map_file : pystr) :
  16 <= len file ->
  slice file 0 8 = WikiLinkWriter.MAGIC ->
  WikiLinkReader.init file map_file =
  Ok {| WikiLinkReader.mmap := file;
        WikiLinkReader.version := Struct.from_le (slice file 8 12);
        WikiLinkReader.node_count := Struct.from_le (slice file 12 16);
        WikiLinkReader.index_pos :=
          Struct.from_le (slice file (len file - 8) (len file));
        WikiLinkReader.index :=
          WikiLinkReader.load_index file
            (Struct.from_le (slice file (len file - 8) (len file)));
        WikiLinkReader.title_map := WikiLinkReader.load_title_map map_file |}.
Proof.
  intros Hlen Hmagic. unfold WikiLinkReader.init.
  destruct (N.eqb_spec (len file) 0) as [Hz|_]; [lia|].
  rewrite Hmagic.
  destruct (list_eq_dec Byte.byte_eq_dec WikiLinkWriter.MAGIC
              WikiLinkWriter.MAGIC) as [_|Hne]; [|congruence].
  cbn [negb]. unfold Struct.unpack_II. rewrite length_slice.
  replace (Nat.eqb _ 8) with true
    by (symmetry; apply Nat.eqb_eq; unfold len in Hlen; lia).
  cbn [bind].
  destruct (N.ltb_spec (len file) 8) as [Hlt|_]; [lia|].
  unfold Struct.unpack_Q, Struct.unpack_uint. rewrite length_slice.
  replace (Nat.eqb _ 8) with true
    by (symmetry; apply Nat.eqb_eq; unfold len in *; lia).
  cbn [bind]. do 2 f_equal.
  - unfold slice. rewrite firstn_firstn. do 2 f_equal.
  - unfold slice. rewrite skipn_firstn_comm, skipn_skipn. do 2 f_equal.
Qed.

(** ** Decoding returns as many values as the count says *)

Lemma decode_deltas_length (num_edges : nat) (data : list byte) :
  forall (pos prev : N) (acc edges : list N),
    WikiLinkWriter.decode_deltas num_edges data pos prev acc = Ok edges ->
    length edges = (length acc + num_edges)%nat.
Proof.
  induction num_edges as [|n IH]; intros pos prev acc edges Hrun.
  - simpl in Hrun. injection Hrun as <-. lia.
  - cbn [WikiLinkWriter.decode_deltas] in Hrun.
    apply bind_Ok in Hrun. destruct Hrun as (delta & _ & Hrun).
    apply IH in Hrun. rewrite length_app in Hrun. simpl in Hrun. lia.
Qed.

(** ** Index entries and the blocks they point at *)

Section StoreFacts.
Context {codec : Zlib}.

Lemma layout_entry (items : list (N * list N)) :
  forall (start node_id pos : N),
    In (node_id, pos) (layout start items) ->
    exists edge_ids pre post,
      In (node_id, edge_ids) items /\
      blocks_bytes items = pre ++ block_bytes edge_ids ++ post /\
      pos = start + len pre.
Proof.
  induction items as [|[i e] items IH]; intros start node_id pos Hin.
  - destruct Hin.
  - destruct Hin as [E|Hin].
    + injection E as -> ->.
      exists e, [], (blocks_bytes items). split; [now left|].
      split; [reflexivity|]. unfold len. simpl. lia.
    + destruct (IH _ _ _ Hin) as (edge_ids & pre & post & Hi & Hbytes & ->).
      exists edge_ids, (block_bytes e ++ pre), post.
      split; [now right|]. split.
      * unfold blocks_bytes in *. cbn [flat_map snd].
        rewrite Hbytes. now rewrite <- app_assoc.
      * rewrite len_app. lia.
Qed.

(** The edge list kept for a node id is the one of the last record of its
    title that has edges. *)
Lemma stored_edges_source (processed : records) (self : WikiLinkWriter.t)
    (nwe : dict N (list N)) (node_id : N) (edge_ids : list N) :
  pass_inv processed self nwe ->
  In (node_id, edge_ids) nwe ->
  exists src dsts,
    last_edges processed src = Some dsts /\
    dict_find pystr_eq_dec (WikiLinkWriter.node_map self) src = Some node_id /\
    ids_of (WikiLinkWriter.node_map self) dsts edge_ids.
Proof.
  intros Hinv Hin.
  assert (Hkey : In node_id (map fst nwe))
    by (change node_id with (fst (node_id, edge_ids)); now apply in_map).
  destruct (inv_only _ _ _ Hinv _ Hkey) as (src & Hsrc & Hlast).
  destruct (last_edges processed src) as [dsts|] eqn:E; [|congruence].
  destruct (inv_stored _ _ _ Hinv _ _ E) as (i & ids & Hi & Hfind & Hids).
  assert (i = node_id) by congruence. subst i.
  apply (In_dict_find N.eq_dec) in Hin; [|apply Hinv].
  assert (ids = edge_ids) by congruence. subst ids.
  exists src, dsts. auto.
Qed.

Lemma convert_opens (jsonl_file : jsonl) (self : WikiLinkWriter.t) :
  convert_wiki_jsonl jsonl_file = Ok self ->
  exists nwe,
    store_of jsonl_file self nwe /\
    WikiLinkReader.init (content (WikiLinkWriter.outfile self))
      (WikiLinkWriter.mapfile self) =
    Ok (opened (WikiLinkWriter.current_node_id self) nwe
          (WikiLinkWriter.mapfile self)).
Proof.
  intros Hrun. destruct (process_jsonl_dump_store _ _ Hrun) as [nwe Hstore].
  exists nwe. split; [exact Hstore|].
  rewrite (store_content _ _ _ Hstore).
  apply init_store; apply Hstore.
Qed.

End StoreFacts.

Lemma last_edges_fold_some (input : records) (src : pystr)
    (acc : list pystr) :
  (forall ds, In (src, ds) input -> ds = []) ->
  fold_left (last_edges_step src) input (Some acc) = Some acc.
Proof.
  induction input as [|[t ds] input IH]; intros Hempty; [reflexivity|].
  cbn [fold_left]. unfold last_edges_step at 2. cbn [fst snd].
  destruct (pystr_eq_dec t src) as [->|Hne].
  - rewrite (Hempty ds) by now left.
    apply IH. intros ds' H. apply Hempty. now right.
  - apply IH. intros ds' H. apply Hempty. now right.
Qed.

Lemma last_edges_split (before after : records) (src : pystr)
    (dsts : list pystr) :
  dsts <> [] ->
  (forall ds, In (src, ds) after -> ds = []) ->
  last_edges (before ++ (src, dsts) :: after) src = Some dsts.
Proof.
  intros Hne Hafter. unfold last_edges.
  rewrite fold_left_app. cbn [fold_left].
  unfold last_edges_step at 2. cbn [fst snd].
  destruct (pystr_eq_dec src src); [|congruence].
  destruct dsts as [|d dsts]; [congruence|].
  now apply last_edges_fold_some.
Qed.

(** * Properties of the store *)

Lemma tagged_codec_ok : ZlibCorrect tagged_codec.
Proof.
  intros data. reflexivity.
Defined.

(** ** Edge lists *)

(** C3: decoding the output of [encode_edges] (the count, then that many
    deltas accumulated from zero) yields the sorted list; the encoder does
    not remove duplicates, so it is [sort(L)], and [verify_encoding]
    accepts every encoding. *)
Theorem edge_list_roundtrip (edges : list N) :
  WikiLinkWriter.decode_edges (WikiLinkWriter.encode_edges edges)
    = Ok (sorted edges) /\
  WikiLinkWriter.verify_encoding edges (WikiLinkWriter.encode_edges edges)
    = Ok true.
Proof.
  assert (H : WikiLinkWriter.decode_edges (WikiLinkWriter.encode_edges edges)
              = Ok (sorted edges)).
  { rewrite <- (app_nil_r (WikiLinkWriter.encode_edges edges)).
    apply decode_edges_encode_edges_garbage. }
  split; [exact H|].
  unfold WikiLinkWriter.verify_encoding. rewrite H. cbn [bind].
  unfold WikiLinkWriter.list_N_eqb.
  destruct (list_eq_dec N.eq_dec (sorted edges) (sorted edges));
    [reflexivity | congruence].
Qed.

Example duplicates_are_kept :
  WikiLinkWriter.decode_edges (WikiLinkWriter.encode_edges [5; 3; 5])
  = Ok [3; 5; 5].
Proof.
  vm_compute. reflexivity.
Qed.

(** C6, as the specification states it, fails: a block whose payload has a
    byte after the last delta is decoded without any error. *)
Lemma trailing_garbage_accepted :
  exists self,
    WikiLinkReader.init trailing_byte_file [] = Ok self /\
    decompress (Zlib := tagged_codec) (slice trailing_byte_file 20 25)
      = Ok (WikiLinkWriter.encode_edges [1; 2] ++ [xff]) /\
    WikiLinkReader.get_neighbors (codec := tagged_codec) self 0 = Ok [1; 2].
Proof.
  eexists. split; [vm_compute; reflexivity|].
  split; vm_compute; reflexivity.
Qed.

(** C6, amended: a block whose payload is an encoded edge list followed by
    any bytes is read back as the ascending edge list, which has exactly as
    many values as the count; the bytes after the last delta are ignored. *)
Theorem trailing_bytes_ignored {codec : Zlib} (self : WikiLinkReader.t)
    (node_id : Z) (block_pos block_size : N) (edges : list N)
    (garbage : list byte) :
  WikiLinkReader.find_block self node_id = Ok (Some block_pos) ->
  Struct.unpack_I (slice (WikiLinkReader.mmap self) block_pos (block_pos + 4))
    = Ok block_size ->
  decompress (slice (WikiLinkReader.mmap self) (block_pos + 4)
                (block_pos + 4 + block_size))
    = Ok (WikiLinkWriter.encode_edges edges ++ garbage) ->
  WikiLinkReader.get_neighbors self node_id = Ok (sorted edges) /\
  len (sorted edges) = len edges.
Proof.
  intros Hfind Hsize Hdata. split.
  - eapply get_neighbors_block; eassumption.
  - unfold len. now rewrite length_sorted.
Qed.

Lemma trailing_bytes_ignored_witness :
  WikiLinkReader.get_neighbors (codec := tagged_codec)
    trailing_byte_reader 0 = Ok (sorted [1; 2]) /\
  len (sorted [1; 2]) = len [1; 2].
Proof.
  apply (trailing_bytes_ignored (codec := tagged_codec)
           trailing_byte_reader 0 16 5 [1; 2] [xff]).
  - vm_compute. reflexivity.
  - vm_compute. reflexivity.
  - vm_compute. reflexivity.
Defined.

(** ** Absent ids *)

(** C4, as the specification states it, fails: when no node has edges the
    index is empty and every query raises. *)
Lemma empty_index_raises :
  exists self,
    convert_wiki_jsonl (codec := tagged_codec) no_edges = Ok no_edges_store /\
    reopen no_edges_store = Ok self /\
    WikiLinkReader.index self = [] /\
    WikiLinkReader.get_neighbors (codec := tagged_codec) self 0
      = Raise ValueError /\
    WikiLinkReader.get_neighbors (codec := tagged_codec) self 7
      = Raise ValueError.
Proof.
  eexists. split; [vm_compute; reflexivity|].
  split; [vm_compute; reflexivity|].
  repeat split; vm_compute; reflexivity.
Qed.

(** C4, amended: for an id that has no index entry, [get_neighbors] returns
    the empty list when the index has at least one entry, and raises
    [ValueError] when the index is empty. *)
Theorem absent_id_neighbors {codec : Zlib} (self : WikiLinkReader.t)
    (node_id : Z) :
  (forall e, In e (WikiLinkReader.index self) -> Z.of_N (fst e) <> node_id) ->
  WikiLinkReader.get_neighbors self node_id =
  match WikiLinkReader.index self with
  | [] => Raise ValueError
  | _ :: _ => Ok []
  end.
Proof.
  intros Hmiss. unfold WikiLinkReader.get_neighbors.
  destruct (WikiLinkReader.index self) as [|e index] eqn:E.
  - unfold WikiLinkReader.find_block. rewrite E. reflexivity.
  - rewrite find_block_miss; [reflexivity | congruence |].
    rewrite E. exact Hmiss.
Qed.

Lemma absent_id_neighbors_witness :
  (forall e, In e (WikiLinkReader.index trailing_byte_reader) ->
             Z.of_N (fst e) <> 4%Z) /\
  WikiLinkReader.get_neighbors (codec := tagged_codec)
    trailing_byte_reader 4 = Ok [].
Proof.
  assert (H : forall e, In e (WikiLinkReader.index trailing_byte_reader) ->
                        Z.of_N (fst e) <> 4%Z).
  { intros e [<-|[]]. simpl. lia. }
  split; [exact H|].
  exact (absent_id_neighbors (codec := tagged_codec) trailing_byte_reader 4 H).
Defined.

(** ** Opening a file: the index region and the version field *)

(** C5, as the specification states it, fails: an index whose ids decrease
    is loaded as it is, and so is an index region of eight bytes, read
    together with the eight bytes of the trailer. *)
Lemma malformed_index_accepted :
  exists self self',
    WikiLinkReader.init descending_index_file [] = Ok self /\
    WikiLinkReader.index self = [(5, 16); (3, 16)] /\
    WikiLinkReader.init ragged_index_file [] = Ok self' /\
    WikiLinkReader.index_pos self' = 16 /\
    len ragged_index_file - 8 - WikiLinkReader.index_pos self' = 8 /\
    WikiLinkReader.index self' = [(7, 16)].
Proof.
  do 2 eexists. split; [vm_compute; reflexivity|].
  split; [vm_compute; reflexivity|].
  split; [vm_compute; reflexivity|].
  repeat split; vm_compute; reflexivity.
Qed.

(** C5, amended: opening a file of at least 16 bytes that starts with the
    magic never fails.  The index holds one entry per 16-byte stride from
    [index_pos] that lies within the file, that is
    [(file_len - index_pos) / 16] entries, read in file order; neither the
    order of the ids nor the length of the region is checked. *)
Theorem load_index_accepts_any_region (file : list byte) (map_file : pystr) :
  16 <= len file ->
  slice file 0 8 = WikiLinkWriter.MAGIC ->
  exists self,
    WikiLinkReader.init file map_file = Ok self /\
    Struct.unpack_Q (slice file (len file - 8) (len file))
      = Ok (WikiLinkReader.index_pos self) /\
    WikiLinkReader.index self =
    map (fun i => index_entry_at file
                    (WikiLinkReader.index_pos self + 16 * N.of_nat i))
        (seq 0 (N.to_nat ((len file - WikiLinkReader.index_pos self) / 16))).
Proof.
  intros Hlen Hmagic. eexists. split; [now apply init_total|].
  cbn [WikiLinkReader.index WikiLinkReader.index_pos]. split.
  - unfold Struct.unpack_Q, Struct.unpack_uint. rewrite length_slice.
    replace (Nat.eqb _ 8) with true; [reflexivity|].
    symmetry. apply Nat.eqb_eq. unfold len in *. lia.
  - apply load_index_strides.
Qed.

Lemma load_index_accepts_any_region_witness :
  exists self,
    WikiLinkReader.init ragged_index_file [] = Ok self /\
    Struct.unpack_Q
      (slice ragged_index_file (len ragged_index_file - 8)
         (len ragged_index_file))
      = Ok (WikiLinkReader.index_pos self) /\
    WikiLinkReader.index self =
    map (fun i => index_entry_at ragged_index_file
                    (WikiLinkReader.index_pos self + 16 * N.of_nat i))
        (seq 0 (N.to_nat ((len ragged_index_file
                           - WikiLinkReader.index_pos self) / 16))).
Proof.
  apply (load_index_accepts_any_region ragged_index_file []).
  - vm_compute. discriminate.
  - vm_compute. reflexivity.
Defined.

(** C7, as the specification states it, fails: the store written for
    [two_links] has 3 in its version field, and the reader opens it and
    answers queries. *)
Lemma unknown_version_accepted :
  exists self,
    convert_wiki_jsonl (codec := tagged_codec) two_links = Ok two_links_store /\
    reopen two_links_store = Ok self /\
    WikiLinkReader.version self = 3 /\
    WikiLinkReader.get_neighbors (codec := tagged_codec) self 0 = Ok [1; 2].
Proof.
  eexists. split; [vm_compute; reflexivity|].
  split; [vm_compute; reflexivity|].
  split; vm_compute; reflexivity.
Qed.

(** C7, amended: the reader reads the version field and keeps it, without
    comparing it with anything: a file of at least 16 bytes that starts with
    the magic opens whatever its version field holds. *)
Theorem version_not_checked (file : list byte) (map_file : pystr) :
  16 <= len file ->
  slice file 0 8 = WikiLinkWriter.MAGIC ->
  exists self,
    WikiLinkReader.init file map_file = Ok self /\
    Struct.unpack_I (slice file 8 12) = Ok (WikiLinkReader.version self).
Proof.
  intros Hlen Hmagic. eexists. split; [now apply init_total|].
  cbn [WikiLinkReader.version].
  unfold Struct.unpack_I, Struct.unpack_uint. rewrite length_slice.
  replace (Nat.eqb _ 4) with true; [reflexivity|].
  symmetry. apply Nat.eqb_eq. unfold len in *. lia.
Qed.

Lemma version_not_checked_witness :
  exists self,
    WikiLinkReader.init descending_index_file [] = Ok self /\
    Struct.unpack_I (slice descending_index_file 8 12)
      = Ok (WikiLinkReader.version self).
Proof.
  apply (version_not_checked descending_index_file []).
  - vm_compute. discriminate.
  - vm_compute. reflexivity.
Defined.

(** ** The header of a finished store *)

(** C2: the final patch is written at offset 8, over the version field.  In
    every finished store the four bytes at offset 8 hold the id counter and
    the four bytes at offset 12, the node-count field, still hold zero. *)
Theorem header_patch_overwrites_version {codec : Zlib} (jsonl_file : jsonl)
    (self : WikiLinkWriter.t) :
  convert_wiki_jsonl jsonl_file = Ok self ->
  let file := content (WikiLinkWriter.outfile self) in
  slice file 0 8 = WikiLinkWriter.MAGIC /\
  Struct.unpack_I (slice file 8 12)
    = Ok (WikiLinkWriter.current_node_id self) /\
  Struct.unpack_I (slice file 12 16) = Ok 0.
Proof.
  intros Hrun. cbn zeta.
  destruct (process_jsonl_dump_store _ _ Hrun) as [nwe Hstore].
  rewrite (store_content _ _ _ Hstore).
  unfold store_bytes, patched_header. rewrite <- !app_assoc.
  split; [|split].
  - apply (slice_middle [] WikiLinkWriter.MAGIC); reflexivity.
  - rewrite slice_middle; [| reflexivity | rewrite len_to_le; reflexivity].
    apply unpack_uint_to_le. apply Hstore.
  - rewrite (app_assoc WikiLinkWriter.MAGIC).
    rewrite slice_middle;
      [ | rewrite len_app, len_to_le; reflexivity
        | rewrite len_app, !len_to_le; reflexivity ].
    apply unpack_uint_to_le. reflexivity.
Qed.

Lemma header_patch_overwrites_version_witness :
  convert_wiki_jsonl (codec := tagged_codec) two_links = Ok two_links_store /\
  (let file := content (WikiLinkWriter.outfile two_links_store) in
   slice file 0 8 = WikiLinkWriter.MAGIC /\
   Struct.unpack_I (slice file 8 12) = Ok 3 /\
   Struct.unpack_I (slice file 12 16) = Ok 0).
Proof.
  assert (H : convert_wiki_jsonl (codec := tagged_codec) two_links
              = Ok two_links_store) by (vm_compute; reflexivity).
  split; [exact H|].
  exact (header_patch_overwrites_version (codec := tagged_codec)
           two_links two_links_store H).
Defined.

(** ** The index of a finished store *)

(** C9: the index entries that finalization writes, [sorted(self.index)],
    ascend strictly by node id; they fill the file from the index position
    to the trailer; and the offset of each entry is the position of a block:
    the four bytes there are the length of the compressed edge list of that
    node, which follows them. *)
Theorem index_invariant {codec : Zlib} (jsonl_file : jsonl)
    (self : WikiLinkWriter.t) :
  convert_wiki_jsonl jsonl_file = Ok self ->
  let file := content (WikiLinkWriter.outfile self) in
  let entries := sorted_pairs (WikiLinkWriter.index self) in
  ascending entries /\
  (exists index_pos,
     Struct.unpack_Q (slice file (len file - 8) (len file)) = Ok index_pos /\
     slice file index_pos (len file - 8) = index_bytes entries) /\
  (forall node_id pos,
     In (node_id, pos) entries ->
     exists src dsts edge_ids,
       last_edges (concat jsonl_file) src = Some dsts /\
       dict_find pystr_eq_dec (WikiLinkWriter.node_map self) src
         = Some node_id /\
       ids_of (WikiLinkWriter.node_map self) dsts edge_ids /\
       let compressed := compress (WikiLinkWriter.encode_edges edge_ids) in
       16 <= pos /\
       Struct.unpack_I (slice file pos (pos + 4)) = Ok (len compressed) /\
       slice file (pos + 4) (pos + 4 + len compressed) = compressed).
Proof.
  intros Hrun. cbn zeta.
  destruct (process_jsonl_dump_store _ _ Hrun) as [nwe Hstore].
  pose proof (store_pass _ _ _ Hstore) as Hinv.
  rewrite (store_content _ _ _ Hstore), (store_index _ _ _ Hstore).
  set (counter := WikiLinkWriter.current_node_id self).
  set (entries := sorted_pairs (layout 16 nwe)).
  assert (Hlen : len (store_bytes counter nwe) =
                 16 + len (blocks_bytes nwe) + len (index_bytes entries) + 8).
  { unfold store_bytes. rewrite !len_app, len_patched_header, len_to_le.
    fold entries. lia. }
  split; [|split].
  - apply sorted_pairs_ascending. rewrite layout_keys. apply Hinv.
  - exists (16 + len (blocks_bytes nwe)). split.
    + unfold store_bytes at 1. fold entries.
      rewrite (app_assoc (patched_header counter)).
      rewrite (app_assoc (patched_header counter ++ blocks_bytes nwe)).
      rewrite <- (app_nil_r (Struct.to_le 8 _)) at 1.
      rewrite slice_middle.
      * apply unpack_uint_to_le. apply Hstore.
      * rewrite Hlen, !len_app, len_patched_header. lia.
      * rewrite Hlen, !len_app, len_patched_header, len_to_le. lia.
    + unfold store_bytes at 1. fold entries.
      rewrite (app_assoc (patched_header counter)).
      apply slice_middle.
      * rewrite len_app, len_patched_header. reflexivity.
      * rewrite Hlen, len_app, len_patched_header. lia.
  - intros node_id pos Hin.
    assert (Hin' : In (node_id, pos) (layout 16 nwe)).
    { eapply Permutation_in; [|exact Hin].
      apply Permutation_sym, sorted_pairs_permutation. }
    destruct (layout_entry _ _ _ _ Hin')
      as (edge_ids & pre & post & Hitem & Hbytes & ->).
    destruct (stored_edges_source _ _ _ _ _ Hinv Hitem)
      as (src & dsts & Hlast & Hsrc & Hids).
    exists src, dsts, edge_ids.
    split; [exact Hlast|]. split; [exact Hsrc|]. split; [exact Hids|].
    cbn zeta.
    set (compressed := compress (WikiLinkWriter.encode_edges edge_ids)).
    assert (Hsize : len compressed < 2 ^ 32).
    { pose proof (store_blocks_fit _ _ _ Hstore) as Hfit.
      rewrite Forall_forall in Hfit. apply (Hfit _ Hitem). }
    assert (Hfile : store_bytes counter nwe =
              (patched_header counter ++ pre) ++
              Struct.to_le 4 (len compressed) ++ compressed ++
              (post ++ index_bytes entries ++
               Struct.to_le 8 (16 + len (blocks_bytes nwe)))).
    { unfold store_bytes. rewrite Hbytes. unfold block_bytes.
      fold compressed. fold entries. now rewrite <- !app_assoc. }
    assert (Hpre : len (patched_header counter ++ pre) = 16 + len pre).
    { rewrite len_app, len_patched_header. reflexivity. }
    split; [lia|]. split.
    + rewrite Hfile.
      rewrite slice_middle;
        [ apply unpack_uint_to_le; exact Hsize
        | now rewrite Hpre
        | rewrite Hpre, len_to_le; reflexivity ].
    + rewrite Hfile.
      rewrite (app_assoc (patched_header counter ++ pre)).
      apply slice_middle.
      * rewrite len_app, Hpre, len_to_le. reflexivity.
      * rewrite len_app, Hpre, len_to_le. reflexivity.
Qed.

Lemma index_invariant_witness :
  convert_wiki_jsonl (codec := tagged_codec) repeated_source
    = Ok repeated_source_store /\
  (let file := content (WikiLinkWriter.outfile repeated_source_store) in
   let entries := sorted_pairs (WikiLinkWriter.index repeated_source_store) in
   ascending entries /\
   (exists index_pos,
      Struct.unpack_Q (slice file (len file - 8) (len file)) = Ok index_pos /\
      slice file index_pos (len file - 8) = index_bytes entries) /\
   (forall node_id pos,
      In (node_id, pos) entries ->
      exists src dsts edge_ids,
        last_edges (concat repeated_source) src = Some dsts /\
        dict_find pystr_eq_dec (WikiLinkWriter.node_map repeated_source_store)
          src = Some node_id /\
        ids_of (WikiLinkWriter.node_map repeated_source_store) dsts edge_ids /\
        let compressed :=
          compress (Zlib := tagged_codec)
            (WikiLinkWriter.encode_edges edge_ids) in
        16 <= pos /\
        Struct.unpack_I (slice file pos (pos + 4)) = Ok (len compressed) /\
        slice file (pos + 4) (pos + 4 + len compressed) = compressed)).
Proof.
  assert (H : convert_wiki_jsonl (codec := tagged_codec) repeated_source
              = Ok repeated_source_store) by (vm_compute; reflexivity).
  split; [exact H|].
  exact (index_invariant (codec := tagged_codec)
           repeated_source repeated_source_store H).
Defined.

(** ** Round trips through the two files *)

Section EndToEnd.
Context {codec : Zlib} {codec_ok : ZlibCorrect codec}.

(** The reader of a finished store returns, for the title of every node
    with edges, the ascending ids of the last record of that title that
    has edges. *)
Lemma stored_neighbors (jsonl_file : jsonl) (self : WikiLinkWriter.t)
    (nwe : dict N (list N)) (src : pystr) (dsts : list pystr) :
  store_of jsonl_file self nwe ->
  last_edges (concat jsonl_file) src = Some dsts ->
  exists i ids,
    dict_find pystr_eq_dec (WikiLinkWriter.node_map self) src = Some i /\
    ids_of (WikiLinkWriter.node_map self) dsts ids /\
    In i (map fst nwe) /\
    WikiLinkReader.get_neighbors
      (opened (WikiLinkWriter.current_node_id self) nwe
         (WikiLinkWriter.mapfile self)) (Z.of_N i) = Ok (sorted ids).
Proof.
  intros Hstore Hlast.
  pose proof (store_pass _ _ _ Hstore) as Hinv.
  destruct (inv_stored _ _ _ Hinv _ _ Hlast) as (i & ids & Hi & Hfind & Hids).
  exists i, ids. split; [exact Hi|]. split; [exact Hids|].
  apply dict_find_In in Hfind. split.
  - change i with (fst (i, ids)). now apply in_map.
  - apply get_neighbors_stored; [apply Hinv | apply Hstore | exact Hfind].
Qed.

End EndToEnd.

(** C1, as the specification states it, fails.  With two records for [A],
    [["B"]] and then [["C"; "C"; "A"]], the ids of the merged list are
    0, 1, 2, 2 and the reader returns only the second record, [0; 2; 2];
    with no edge at all, the query raises. *)
Lemma merged_roundtrip_fails :
  exists self self',
    convert_wiki_jsonl (codec := tagged_codec) repeated_source
      = Ok repeated_source_store /\
    reopen repeated_source_store = Ok self /\
    map_ids (WikiLinkWriter.node_map repeated_source_store)
      (merged_edges (concat repeated_source) title_A)
      = [Some 1; Some 2; Some 2; Some 0] /\
    WikiLinkReader.get_neighbors (codec := tagged_codec) self 0
      = Ok [0; 2; 2] /\
    sorted [1; 2; 2; 0] = [0; 1; 2; 2] /\
    sorted (nodup N.eq_dec [1; 2; 2; 0]) = [0; 1; 2] /\
    convert_wiki_jsonl (codec := tagged_codec) no_edges = Ok no_edges_store /\
    reopen no_edges_store = Ok self' /\
    WikiLinkReader.get_neighbors (codec := tagged_codec) self' 0
      = Raise ValueError.
Proof.
  do 2 eexists. split; [vm_compute; reflexivity|].
  split; [vm_compute; reflexivity|].
  repeat split; vm_compute; reflexivity.
Qed.

(** C1, amended: when the writer completes, the reader opens the two files,
    and for every source title that has a record with edges,
    [get_neighbors] of its id is the ascending list, duplicates kept, of the
    ids of the linked titles of the last such record.  For an interned title
    without such a record it is the empty list, provided some title has
    edges. *)
Theorem roundtrip_last_record {codec : Zlib} {codec_ok : ZlibCorrect codec}
    (jsonl_file : jsonl) (self : WikiLinkWriter.t) :
  convert_wiki_jsonl jsonl_file = Ok self ->
  exists reader,
    WikiLinkReader.init (content (WikiLinkWriter.outfile self))
      (WikiLinkWriter.mapfile self) = Ok reader /\
    (forall src dsts,
       last_edges (concat jsonl_file) src = Some dsts ->
       exists i ids,
         dict_find pystr_eq_dec (WikiLinkWriter.node_map self) src = Some i /\
         ids_of (WikiLinkWriter.node_map self) dsts ids /\
         WikiLinkReader.get_neighbors reader (Z.of_N i) = Ok (sorted ids)) /\
    (forall src i,
       dict_find pystr_eq_dec (WikiLinkWriter.node_map self) src = Some i ->
       last_edges (concat jsonl_file) src = None ->
       (exists src', last_edges (concat jsonl_file) src' <> None) ->
       WikiLinkReader.get_neighbors reader (Z.of_N i) = Ok []).
Proof.
  intros Hrun. destruct (convert_opens _ _ Hrun) as (nwe & Hstore & Hopen).
  pose proof (store_pass _ _ _ Hstore) as Hinv.
  eexists. split; [exact Hopen|]. split.
  - intros src dsts Hlast.
    destruct (stored_neighbors _ _ _ _ _ Hstore Hlast)
      as (i & ids & Hi & Hids & _ & Hget).
    exists i, ids. auto.
  - intros src i Hi Hnone (src' & Hsome).
    apply get_neighbors_absent.
    + destruct (last_edges (concat jsonl_file) src') as [dsts'|] eqn:E;
        [|congruence].
      destruct (inv_stored _ _ _ Hinv _ _ E) as (j & ids & _ & Hfind & _).
      intros ->. discriminate.
    + intros j Hj Heq. apply N2Z.inj in Heq. subst j.
      destruct (inv_only _ _ _ Hinv _ Hj) as (s & Hs & Hlast).
      assert (s = src)
        by (eapply node_map_injective; [apply Hinv | exact Hs | exact Hi]).
      subst s. contradiction.
Qed.

Lemma roundtrip_last_record_witness :
  convert_wiki_jsonl (codec := tagged_codec) repeated_source
    = Ok repeated_source_store /\
  exists reader,
    WikiLinkReader.init
      (content (WikiLinkWriter.outfile repeated_source_store))
      (WikiLinkWriter.mapfile repeated_source_store) = Ok reader /\
    (forall src dsts,
       last_edges (concat repeated_source) src = Some dsts ->
       exists i ids,
         dict_find pystr_eq_dec
           (WikiLinkWriter.node_map repeated_source_store) src = Some i /\
         ids_of (WikiLinkWriter.node_map repeated_source_store) dsts ids /\
         WikiLinkReader.get_neighbors (codec := tagged_codec) reader (Z.of_N i)
           = Ok (sorted ids)) /\
    (forall src i,
       dict_find pystr_eq_dec
         (WikiLinkWriter.node_map repeated_source_store) src = Some i ->
       last_edges (concat repeated_source) src = None ->
       (exists src', last_edges (concat repeated_source) src' <> None) ->
       WikiLinkReader.get_neighbors (codec := tagged_codec) reader (Z.of_N i)
         = Ok []).
Proof.
  assert (H : convert_wiki_jsonl (codec := tagged_codec) repeated_source
              = Ok repeated_source_store) by (vm_compute; reflexivity).
  split; [exact H|].
  exact (roundtrip_last_record (codec := tagged_codec)
           (codec_ok := tagged_codec_ok)
           repeated_source repeated_source_store H).
Defined.

(** C10: when a source title has several records with edges, the store
    holds the edge list of the last of them only, and the index, as kept by
    the writer and as loaded by the reader, has exactly one entry for the
    id of that title. *)
Theorem duplicate_source_last_wins {codec : Zlib}
    {codec_ok : ZlibCorrect codec} (jsonl_file : jsonl)
    (self : WikiLinkWriter.t) (before after : records) (src : pystr)
    (dsts : list pystr) :
  convert_wiki_jsonl jsonl_file = Ok self ->
  concat jsonl_file = before ++ (src, dsts) :: after ->
  dsts <> [] ->
  (forall ds, In (src, ds) after -> ds = []) ->
  exists reader i ids,
    WikiLinkReader.init (content (WikiLinkWriter.outfile self))
      (WikiLinkWriter.mapfile self) = Ok reader /\
    dict_find pystr_eq_dec (WikiLinkWriter.node_map self) src = Some i /\
    ids_of (WikiLinkWriter.node_map self) dsts ids /\
    WikiLinkReader.get_neighbors reader (Z.of_N i) = Ok (sorted ids) /\
    count_occ N.eq_dec (map fst (WikiLinkWriter.index self)) i = 1%nat /\
    count_occ N.eq_dec (map fst (WikiLinkReader.index reader)) i = 1%nat.
Proof.
  intros Hrun Hsplit Hne Hafter.
  destruct (convert_opens _ _ Hrun) as (nwe & Hstore & Hopen).
  pose proof (store_pass _ _ _ Hstore) as Hinv.
  assert (Hlast : last_edges (concat jsonl_file) src = Some dsts)
    by (rewrite Hsplit; now apply last_edges_split).
  destruct (stored_neighbors _ _ _ _ _ Hstore Hlast)
    as (i & ids & Hi & Hids & Hkey & Hget).
  eexists. exists i, ids.
  split; [exact Hopen|]. split; [exact Hi|]. split; [exact Hids|].
  split; [exact Hget|].
  assert (Hone : forall l, NoDup l -> In i l -> count_occ N.eq_dec l i = 1%nat).
  { intros l Hnd Hin.
    pose proof (proj1 (NoDup_count_occ N.eq_dec l) Hnd i) as Hle.
    pose proof (proj1 (count_occ_In N.eq_dec l i) Hin) as Hgt. lia. }
  split.
  - rewrite (store_index _ _ _ Hstore), layout_keys.
    apply Hone; [apply Hinv | exact Hkey].
  - cbn [WikiLinkReader.index opened].
    assert (Hperm : Permutation (map fst nwe)
                      (map fst (sorted_pairs (layout 16 nwe)))).
    { rewrite <- (layout_keys nwe 16) at 1.
      apply Permutation_map, sorted_pairs_permutation. }
    apply Hone.
    + eapply Permutation_NoDup; [exact Hperm | apply Hinv].
    + eapply Permutation_in; [exact Hperm | exact Hkey].
Qed.

Lemma duplicate_source_last_wins_witness :
  exists reader i ids,
    WikiLinkReader.init
      (content (WikiLinkWriter.outfile repeated_source_store))
      (WikiLinkWriter.mapfile repeated_source_store) = Ok reader /\
    dict_find pystr_eq_dec (WikiLinkWriter.node_map repeated_source_store)
      title_A = Some i /\
    ids_of (WikiLinkWriter.node_map repeated_source_store)
      [[67]; [67]; [65]] ids /\
    WikiLinkReader.get_neighbors (codec := tagged_codec) reader (Z.of_N i)
      = Ok (sorted ids) /\
    count_occ N.eq_dec
      (map fst (WikiLinkWriter.index repeated_source_store)) i = 1%nat /\
    count_occ N.eq_dec (map fst (WikiLinkReader.index reader)) i = 1%nat.
Proof.
  apply (duplicate_source_last_wins (codec := tagged_codec)
           (codec_ok := tagged_codec_ok)
           repeated_source repeated_source_store
           [(title_A, [[66]])] [([66], [title_A]); (title_A, [])]
           title_A [[67]; [67]; [65]]).
  - vm_compute. reflexivity.
  - reflexivity.
  - discriminate.
  - intros ds [E|[E|[]]].
    + vm_compute in E. discriminate.
    + vm_compute in E. injection E as <-. reflexivity.
Defined.

(** ** Titles through the sidecar *)

(** C8, as the specification states it, fails: a title that ends in a space
    comes back without it, so the title as interned is not found, and an
    empty title is not loaded at all. *)
Lemma padded_title_lost :
  exists self,
    convert_wiki_jsonl (codec := tagged_codec) padded_titles
      = Ok padded_titles_store /\
    reopen padded_titles_store = Ok self /\
    dict_find pystr_eq_dec (WikiLinkWriter.node_map padded_titles_store)
      title_A_padded = Some 0 /\
    WikiLinkReader.get_title self (PInt 0) = Ok (PStr title_A) /\
    BiDict.get (WikiLinkReader.title_map self) (PStr title_A_padded) PNone
      = Ok PNone /\
    dict_find pystr_eq_dec (WikiLinkWriter.node_map padded_titles_store)
      title_empty = Some 1 /\
    WikiLinkReader.get_title self (PInt 1) = Ok PNone.
Proof.
  eexists. split; [vm_compute; reflexivity|].
  split; [vm_compute; reflexivity|].
  repeat split; vm_compute; reflexivity.
Qed.

(** C8, amended: when no title of the input has a tab, a line feed or a
    carriage return, and none ends in whitespace or is empty, the title map
    that the reader loads answers both directions: every id below the node
    count has a title whose id it is, and every title of the input is mapped
    to its id and back, unchanged. *)
Theorem title_roundtrip {codec : Zlib} (jsonl_file : jsonl)
    (self : WikiLinkWriter.t) :
  convert_wiki_jsonl jsonl_file = Ok self ->
  forallb sidecar_safe (titles (concat jsonl_file)) = true ->
  exists reader,
    WikiLinkReader.init (content (WikiLinkWriter.outfile self))
      (WikiLinkWriter.mapfile self) = Ok reader /\
    (forall i, i < WikiLinkWriter.current_node_id self ->
       exists t,
         WikiLinkReader.get_title reader (PInt (Z.of_N i)) = Ok (PStr t) /\
         BiDict.get (WikiLinkReader.title_map reader) (PStr t) PNone
           = Ok (PInt (Z.of_N i))) /\
    (forall t, In t (titles (concat jsonl_file)) ->
       exists i,
         dict_find pystr_eq_dec (WikiLinkWriter.node_map self) t = Some i /\
         i < WikiLinkWriter.current_node_id self /\
         BiDict.get (WikiLinkReader.title_map reader) (PStr t) PNone
           = Ok (PInt (Z.of_N i)) /\
         WikiLinkReader.get_title reader (PInt (Z.of_N i)) = Ok (PStr t)).
Proof.
  intros Hrun Hsafe. rewrite forallb_forall in Hsafe.
  destruct (convert_opens _ _ Hrun) as (nwe & Hstore & Hopen).
  pose proof (store_pass _ _ _ Hstore) as Hinv.
  pose proof (inv_node_map _ _ _ Hinv) as Hok.
  assert (Hkeys : forall t,
            In t (map fst (WikiLinkWriter.node_map self)) ->
            sidecar_safe t = true).
  { intros t Ht. apply Hsafe. now apply (inv_interned _ _ _ Hinv). }
  eexists. split; [exact Hopen|].
  unfold WikiLinkReader.get_title. cbn [WikiLinkReader.title_map opened].
  split.
  - intros i Hi.
    assert (Hin : In i (map snd (WikiLinkWriter.node_map self))).
    { rewrite (nm_ids _ Hok). rewrite <- (N2Nat.id i).
      apply in_map. apply in_seq.
      rewrite (nm_counter _ Hok) in Hi. unfold len in Hi. lia. }
    apply in_map_iff in Hin. destruct Hin as ([t j] & Hj & Hin).
    cbn [snd] in Hj. subst j.
    apply (In_dict_find pystr_eq_dec) in Hin; [|apply Hok].
    exists t. now apply title_map_roundtrip.
  - intros t Ht.
    apply (inv_interned _ _ _ Hinv) in Ht.
    apply (dict_find_keys pystr_eq_dec) in Ht. destruct Ht as [i Hi].
    exists i. split; [exact Hi|].
    split; [eapply node_map_bound; eassumption|].
    destruct (title_map_roundtrip self t i Hok Hkeys Hi) as [Hf Hb].
    split; assumption.
Qed.

Lemma title_roundtrip_witness :
  exists reader,
    WikiLinkReader.init
      (content (WikiLinkWriter.outfile repeated_source_store))
      (WikiLinkWriter.mapfile repeated_source_store) = Ok reader /\
    (forall i, i < WikiLinkWriter.current_node_id repeated_source_store ->
       exists t,
         WikiLinkReader.get_title reader (PInt (Z.of_N i)) = Ok (PStr t) /\
         BiDict.get (WikiLinkReader.title_map reader) (PStr t) PNone
           = Ok (PInt (Z.of_N i))) /\
    (forall t, In t (titles (concat repeated_source)) ->
       exists i,
         dict_find pystr_eq_dec
           (WikiLinkWriter.node_map repeated_source_store) t = Some i /\
         i < WikiLinkWriter.current_node_id repeated_source_store /\
         BiDict.get (WikiLinkReader.title_map reader) (PStr t) PNone
           = Ok (PInt (Z.of_N i)) /\
         WikiLinkReader.get_title reader (PInt (Z.of_N i)) = Ok (PStr t)).
Proof.
  apply (title_roundtrip (codec := tagged_codec)
           repeated_source repeated_source_store).
  - vm_compute. reflexivity.
  - vm_compute. reflexivity.
Defined.

(** * Further properties *)

(** ** [BiDict] *)

(** X1: after [d[key] = value], [d[key]] is [value], and both [key] and
    [value] are members of [d]. *)
Theorem bidict_set_then_get (self : BiDict.t) (key value : pyval) :
  BiDict.getitem (BiDict.setitem self key value) key = Ok value /\
  BiDict.contains (BiDict.setitem self key value) key = true /\
  BiDict.contains (BiDict.setitem self key value) value = true.
Proof.
  unfold BiDict.getitem, BiDict.contains, BiDict.setitem, dict_getitem,
    dict_contains.
  cbn [BiDict.forward BiDict.backward].
  rewrite !dict_find_setitem.
  destruct (pyval_eq_dec key key); [|congruence].
  destruct (pyval_eq_dec value value); [|congruence].
  repeat split. apply orb_true_r.
Qed.

(** X2: after [d[key] = value], looking up [value] gives [key] back, unless
    [value] is itself a key of the forward dictionary, which is asked
    first. *)
Theorem bidict_reverse_lookup (self : BiDict.t) (key value : pyval) :
  value <> key ->
  dict_find pyval_eq_dec (BiDict.forward self) value = None ->
  BiDict.getitem (BiDict.setitem self key value) value = Ok key.
Proof.
  intros Hne Hfwd.
  unfold BiDict.getitem, BiDict.setitem, dict_getitem.
  cbn [BiDict.forward BiDict.backward].
  rewrite !dict_find_setitem.
  destruct (pyval_eq_dec value key); [congruence|].
  rewrite Hfwd.
  destruct (pyval_eq_dec value value); [reflexivity | congruence].
Qed.

Lemma bidict_reverse_lookup_witness :
  PStr [65] <> PInt 0 /\
  dict_find pyval_eq_dec (BiDict.forward BiDict.init) (PStr [65]) = None /\
  BiDict.getitem (BiDict.setitem BiDict.init (PInt 0) (PStr [65])) (PStr [65])
    = Ok (PInt 0).
Proof.
  assert (H1 : PStr [65] <> PInt 0) by discriminate.
  assert (H2 : dict_find pyval_eq_dec (BiDict.forward BiDict.init) (PStr [65])
               = None) by reflexivity.
  split; [exact H1|]. split; [exact H2|].
  exact (bidict_reverse_lookup BiDict.init (PInt 0) (PStr [65]) H1 H2).
Defined.

(** X3: assigning a second value to a key leaves the backward entry of the
    first value in place: [d[key]] is the new value, and the old value is
    still mapped back to [key]. *)
Theorem bidict_overwrite_keeps_old_reverse (self : BiDict.t)
    (key old new : pyval) :
  old <> key ->
  old <> new ->
  dict_find pyval_eq_dec (BiDict.forward self) old = None ->
  let self' := BiDict.setitem (BiDict.setitem self key old) key new in
  BiDict.getitem self' key = Ok new /\
  BiDict.getitem self' old = Ok key.
Proof.
  intros Hkey Hnew Hfwd. cbn zeta.
  unfold BiDict.getitem, BiDict.setitem, dict_getitem.
  cbn [BiDict.forward BiDict.backward].
  rewrite !dict_find_setitem.
  destruct (pyval_eq_dec key key); [|congruence].
  destruct (pyval_eq_dec old key); [congruence|].
  rewrite Hfwd.
  destruct (pyval_eq_dec old new); [congruence|].
  destruct (pyval_eq_dec old old); [|congruence].
  split; reflexivity.
Qed.

Lemma bidict_overwrite_keeps_old_reverse_witness :
  let self' :=
    BiDict.setitem (BiDict.setitem BiDict.init (PInt 0) (PStr [65]))
      (PInt 0) (PStr [66]) in
  BiDict.getitem self' (PInt 0) = Ok (PStr [66]) /\
  BiDict.getitem self' (PStr [65]) = Ok (PInt 0).
Proof.
  apply (bidict_overwrite_keeps_old_reverse BiDict.init
           (PInt 0) (PStr [65]) (PStr [66])).
  - discriminate.
  - discriminate.
  - reflexivity.
Defined.

(** X4: a key is in neither dictionary exactly when [d[key]] raises
    [KeyError], and then [get] returns the default; [getitem] raises
    nothing else. *)
Theorem bidict_absent_key (self : BiDict.t) (key default : pyval) :
  (BiDict.contains self key = false <->
   BiDict.getitem self key = Raise KeyError) /\
  (BiDict.contains self key = false ->
   BiDict.get self key default = Ok default) /\
  (forall e, BiDict.getitem self key = Raise e -> e = KeyError).
Proof.
  unfold BiDict.contains, BiDict.get, BiDict.getitem, dict_getitem,
    dict_contains.
  destruct (dict_find pyval_eq_dec (BiDict.forward self) key) as [v|];
    destruct (dict_find pyval_eq_dec (BiDict.backward self) key) as [v'|];
    cbn; repeat split; intros; congruence.
Qed.

(** X5: [len] counts the keys of the forward dictionary: an assignment adds
    one unless the key was there already. *)
Theorem bidict_length_setitem (self : BiDict.t) (key value : pyval) :
  BiDict.length (BiDict.setitem self key value) =
  if dict_contains pyval_eq_dec (BiDict.forward self) key
  then BiDict.length self
  else BiDict.length self + 1.
Proof.
  unfold BiDict.length, BiDict.setitem, len. cbn [BiDict.forward].
  rewrite <- !(length_map fst), dict_setitem_keys.
  destruct (dict_contains pyval_eq_dec (BiDict.forward self) key);
    [reflexivity|].
  rewrite length_app. simpl. lia.
Qed.

(** ** The edge-list codec *)

Lemma ascending_permutation_unique (a b : list N) :
  StronglySorted N.le a -> StronglySorted N.le b -> Permutation a b -> a = b.
Proof.
  intros Ha. revert b. induction Ha as [|x a Ha IH Hx]; intros b Hb Hperm.
  - apply Permutation_nil in Hperm. now subst.
  - destruct Hb as [|y b Hb Hy].
    + apply Permutation_sym, Permutation_nil in Hperm. discriminate.
    + assert (Hxy : x = y).
      { rewrite Forall_forall in Hx, Hy.
        assert (Hin1 : In y (x :: a))
          by (eapply Permutation_in; [apply Permutation_sym; exact Hperm|];
              now left).
        assert (Hin2 : In x (y :: b))
          by (eapply Permutation_in; [exact Hperm|]; now left).
        destruct Hin1 as [E|Hin1]; [congruence|].
        destruct Hin2 as [E|Hin2]; [congruence|].
        specialize (Hx _ Hin1). specialize (Hy _ Hin2). lia. }
      subst y. f_equal. apply IH; [exact Hb|].
      eapply Permutation_cons_inv. exact Hperm.
Qed.

Lemma sorted_permutation_iff (a b : list N) :
  sorted a = sorted b <-> Permutation a b.
Proof.
  split.
  - intros H.
    eapply Permutation_trans; [apply sorted_permutation|].
    rewrite H. apply Permutation_sym, sorted_permutation.
  - intros H. apply ascending_permutation_unique;
      try apply sorted_ascending.
    eapply Permutation_trans; [apply Permutation_sym, sorted_permutation|].
    eapply Permutation_trans; [exact H | apply sorted_permutation].
Qed.

(** X6: the encoding of an edge list does not depend on the order in which
    the edges are given. *)
Theorem encode_edges_order_insensitive (edges edges' : list N) :
  Permutation edges edges' ->
  WikiLinkWriter.encode_edges edges = WikiLinkWriter.encode_edges edges'.
Proof.
  intros Hperm. unfold WikiLinkWriter.encode_edges, len.
  rewrite (Permutation_length Hperm).
  now rewrite (proj2 (sorted_permutation_iff edges edges') Hperm).
Qed.

Lemma encode_edges_order_insensitive_witness :
  Permutation [5; 3; 5] [3; 5; 5] /\
  WikiLinkWriter.encode_edges [5; 3; 5] = WikiLinkWriter.encode_edges [3; 5; 5].
Proof.
  assert (H : Permutation [5; 3; 5] [3; 5; 5]) by apply perm_swap.
  split; [exact H|].
  exact (encode_edges_order_insensitive [5; 3; 5] [3; 5; 5] H).
Defined.

(** X7: [verify_encoding] never raises on the output of [encode_edges], and
    returns [True] exactly when the edges it is given are a rearrangement
    of the encoded ones. *)
Theorem verify_encoding_accepts_rearrangements (original_edges edges : list N) :
  exists verdict,
    WikiLinkWriter.verify_encoding original_edges
      (WikiLinkWriter.encode_edges edges) = Ok verdict /\
    (verdict = true <-> Permutation original_edges edges).
Proof.
  unfold WikiLinkWriter.verify_encoding.
  rewrite <- (app_nil_r (WikiLinkWriter.encode_edges edges)).
  rewrite decode_edges_encode_edges_garbage. cbn [bind].
  eexists. split; [reflexivity|].
  unfold WikiLinkWriter.list_N_eqb.
  rewrite <- sorted_permutation_iff.
  destruct (list_eq_dec N.eq_dec (sorted original_edges) (sorted edges));
    split; intros; congruence.
Qed.

Lemma StronglySorted_snoc (l : list N) (x : N) :
  StronglySorted N.le l -> Forall (fun y => y <= x) l ->
  StronglySorted N.le (l ++ [x]).
Proof.
  intros Hs Hall. induction Hs as [|y l Hs IH Hy].
  - repeat constructor.
  - inversion Hall as [|? ? Hyx Hall']; subst.
    cbn [app]. constructor; [now apply IH|].
    apply Forall_app. split; [exact Hy|]. repeat constructor. exact Hyx.
Qed.

Lemma decode_deltas_ascending (num_edges : nat) (data : list byte) :
  forall (pos prev : N) (acc edges : list N),
    WikiLinkWriter.decode_deltas num_edges data pos prev acc = Ok edges ->
    StronglySorted N.le acc ->
    Forall (fun y => y <= prev) acc ->
    StronglySorted N.le edges.
Proof.
  induction num_edges as [|n IH]; intros pos prev acc edges Hrun Hs Hall.
  - simpl in Hrun. now injection Hrun as <-.
  - cbn [WikiLinkWriter.decode_deltas] in Hrun.
    apply bind_Ok in Hrun. destruct Hrun as (delta & _ & Hrun).
    apply IH in Hrun; [exact Hrun| |].
    + apply StronglySorted_snoc; [exact Hs|].
      eapply Forall_impl; [|exact Hall]. cbn. intros y Hy. lia.
    + apply Forall_app. split.
      * eapply Forall_impl; [|exact Hall]. cbn. intros y Hy. lia.
      * repeat constructor. lia.
Qed.

(** X8: whatever the file holds, a list that [get_neighbors] returns is in
    ascending order: each value is the one before plus a delta that is not
    negative. *)
Theorem get_neighbors_ascending {codec : Zlib} (self : WikiLinkReader.t)
    (node_id : Z) (edges : list N) :
  WikiLinkReader.get_neighbors self node_id = Ok edges ->
  StronglySorted N.le edges.
Proof.
  unfold WikiLinkReader.get_neighbors. intros Hrun.
  apply bind_Ok in Hrun. destruct Hrun as ([block_pos|] & _ & Hrun).
  - apply bind_Ok in Hrun. destruct Hrun as (block_size & _ & Hrun).
    apply bind_Ok in Hrun. destruct Hrun as (data & _ & Hrun).
    apply bind_Ok in Hrun. destruct Hrun as (num_edges & _ & Hrun).
    destruct (num_edges =? 0).
    + injection Hrun as <-. constructor.
    + eapply decode_deltas_ascending; [exact Hrun | constructor | constructor].
  - injection Hrun as <-. constructor.
Qed.

Lemma get_neighbors_ascending_witness :
  WikiLinkReader.get_neighbors (codec := tagged_codec) trailing_byte_reader 0
    = Ok [1; 2] /\
  StronglySorted N.le [1; 2].
Proof.
  assert (H : WikiLinkReader.get_neighbors (codec := tagged_codec)
                trailing_byte_reader 0 = Ok [1; 2])
    by (vm_compute; reflexivity).
  split; [exact H|].
  exact (get_neighbors_ascending (codec := tagged_codec)
           trailing_byte_reader 0 [1; 2] H).
Defined.





(** ** The first pass: the order of the ids *)

Lemma dict_contains_In {K V : Type}
    (eq_dec : forall x y : K, {x = y} + {x <> y}) (d : dict K V) (k : K) :
  dict_contains eq_dec d k = true <-> In k (map fst d).
Proof.
  rewrite (dict_find_keys eq_dec). unfold dict_contains.
  destruct (dict_find eq_dec d k) as [v|]; split; intros H.
  - now exists v.
  - reflexivity.
  - discriminate.
  - destruct H as [v H]. discriminate.
Qed.

Lemma intern_keys (self self' : WikiLinkWriter.t) (title : pystr) :
  WikiLinkWriter.intern self title = Ok self' ->
  map fst (WikiLinkWriter.node_map self') =
  first_seen_step (map fst (WikiLinkWriter.node_map self)) title.
Proof.
  unfold WikiLinkWriter.intern, first_seen_step. intros Hrun.
  destruct (dict_contains pystr_eq_dec (WikiLinkWriter.node_map self) title)
    eqn:Hc.
  - injection Hrun as <-. apply dict_contains_In in Hc.
    destruct (in_dec pystr_eq_dec title _); [reflexivity | contradiction].
  - apply bind_Ok in Hrun. destruct Hrun as (mapfile' & _ & Hrun).
    injection Hrun as <-. cbn [WikiLinkWriter.node_map].
    rewrite dict_setitem_keys, Hc.
    destruct (in_dec pystr_eq_dec title _) as [Hin|_]; [|reflexivity].
    apply (dict_contains_In pystr_eq_dec) in Hin. congruence.
Qed.

Lemma link_ids_keys (linked_titles : list pystr) :
  forall (self self' : WikiLinkWriter.t) (acc edge_ids : list N),
    WikiLinkWriter.link_ids self linked_titles acc = Ok (self', edge_ids) ->
    map fst (WikiLinkWriter.node_map self') =
    fold_left first_seen_step linked_titles
      (map fst (WikiLinkWriter.node_map self)).
Proof.
  induction linked_titles as [|title rest IH];
    intros self self' acc edge_ids Hrun.
  - simpl in Hrun. now injection Hrun as <- <-.
  - cbn [WikiLinkWriter.link_ids] in Hrun.
    apply bind_Ok in Hrun. destruct Hrun as (self1 & Hintern & Hrun).
    apply bind_Ok in Hrun. destruct Hrun as (id & _ & Hrun).
    cbn [fold_left]. rewrite <- (intern_keys _ _ _ Hintern).
    eapply IH. exact Hrun.
Qed.

Lemma ingest_item_keys (self self' : WikiLinkWriter.t)
    (nwe nwe' : dict N (list N)) (item : pystr * list pystr) :
  WikiLinkWriter.ingest_item (self, nwe) item = Ok (self', nwe') ->
  map fst (WikiLinkWriter.node_map self') =
  fold_left first_seen_step (fst item :: snd item)
    (map fst (WikiLinkWriter.node_map self)).
Proof.
  destruct item as [src dsts]. intros Hrun.
  unfold WikiLinkWriter.ingest_item in Hrun.
  apply bind_Ok in Hrun. destruct Hrun as (self1 & Hintern & Hrun).
  apply bind_Ok in Hrun. destruct Hrun as (node_id & _ & Hrun).
  apply bind_Ok in Hrun. destruct Hrun as ([self2 edge_ids] & Hlink & Hrun).
  injection Hrun as <- _.
  cbn [fold_left fst snd]. rewrite <- (intern_keys _ _ _ Hintern).
  eapply link_ids_keys. exact Hlink.
Qed.

Lemma ingest_items_keys (items : records) :
  forall (self self' : WikiLinkWriter.t) (nwe nwe' : dict N (list N)),
    foldM WikiLinkWriter.ingest_item items (self, nwe) = Ok (self', nwe') ->
    map fst (WikiLinkWriter.node_map self') =
    fold_left first_seen_step (titles items)
      (map fst (WikiLinkWriter.node_map self)).
Proof.
  induction items as [|item items IH]; intros self self' nwe nwe' Hrun.
  - simpl in Hrun. now injection Hrun as <- <-.
  - cbn [foldM] in Hrun.
    apply bind_Ok in Hrun. destruct Hrun as ([self1 nwe1] & Hstep & Hrun).
    change (titles (item :: items))
      with ((fst item :: snd item) ++ titles items).
    rewrite fold_left_app, <- (ingest_item_keys _ _ _ _ _ Hstep).
    eapply IH. exact Hrun.
Qed.

Lemma first_pass_keys (jsonl_file : jsonl) :
  forall (self self' : WikiLinkWriter.t) (nwe nwe' : dict N (list N)),
    foldM (fun st data => foldM WikiLinkWriter.ingest_item data st)
          jsonl_file (self, nwe) = Ok (self', nwe') ->
    map fst (WikiLinkWriter.node_map self') =
    fold_left first_seen_step (titles (concat jsonl_file))
      (map fst (WikiLinkWriter.node_map self)).
Proof.
  induction jsonl_file as [|data rest IH]; intros self self' nwe nwe' Hrun.
  - simpl in Hrun. now injection Hrun as <- <-.
  - cbn [foldM] in Hrun.
    apply bind_Ok in Hrun. destruct Hrun as ([self1 nwe1] & Hstep & Hrun).
    cbn [concat]. rewrite titles_app, fold_left_app.
    rewrite <- (ingest_items_keys _ _ _ _ _ Hstep).
    eapply IH. exact Hrun.
Qed.

Section WriterSteps.
Context {codec : Zlib}.

Lemma write_blocks_keep_maps (items : list (N * list N)) :
  forall (self self' : WikiLinkWriter.t) (pos pos' : N),
    foldM WikiLinkWriter.write_block items (self, pos) = Ok (self', pos') ->
    WikiLinkWriter.node_map self' = WikiLinkWriter.node_map self /\
    WikiLinkWriter.mapfile self' = WikiLinkWriter.mapfile self /\
    WikiLinkWriter.current_node_id self' = WikiLinkWriter.current_node_id self.
Proof.
  induction items as [|[node_id edge_ids] items IH];
    intros self self' pos pos' Hrun.
  - simpl in Hrun. injection Hrun as <- <-. auto.
  - cbn [foldM] in Hrun.
    apply bind_Ok in Hrun. destruct Hrun as ([self1 pos1] & Hstep & Hrun).
    unfold WikiLinkWriter.write_block in Hstep.
    apply bind_Ok in Hstep. destruct Hstep as (size & _ & Hstep).
    injection Hstep as <- <-.
    apply IH in Hrun. exact Hrun.
Qed.

(** The first pass inside a completed run, and what the rest of the run
    leaves of its result. *)
Lemma convert_first_pass (jsonl_file : jsonl) (self : WikiLinkWriter.t) :
  convert_wiki_jsonl jsonl_file = Ok self ->
  exists self0 self1 nwe,
    WikiLinkWriter.node_map self0 = [] /\
    WikiLinkWriter.first_pass self0 jsonl_file = Ok (self1, nwe) /\
    WikiLinkWriter.node_map self = WikiLinkWriter.node_map self1 /\
    WikiLinkWriter.mapfile self = WikiLinkWriter.mapfile self1 /\
    WikiLinkWriter.current_node_id self = WikiLinkWriter.current_node_id self1.
Proof.
  unfold convert_wiki_jsonl, WikiLinkWriter.process_jsonl_dump.
  intros Hrun.
  apply bind_Ok in Hrun. destruct Hrun as (self0 & Hheader & Hrun).
  apply bind_Ok in Hrun. destruct Hrun as ([self1 nwe] & Hfirst & Hrun).
  apply bind_Ok in Hrun. destruct Hrun as ([self2 pos2] & Hsecond & Hrun).
  apply bind_Ok in Hrun. destruct Hrun as (f3 & _ & Hrun).
  apply bind_Ok in Hrun. destruct Hrun as (trailer & _ & Hrun).
  apply bind_Ok in Hrun. destruct Hrun as (count & _ & Hrun).
  injection Hrun as <-.
  unfold WikiLinkWriter.write_header in Hheader.
  apply bind_Ok in Hheader. destruct Hheader as (header & _ & Hheader).
  injection Hheader as <-.
  destruct (write_blocks_keep_maps _ _ _ _ _ Hsecond) as (Hn & Hm & Hc).
  exists (WikiLinkWriter.set_outfile WikiLinkWriter.init
            (bin_write (bin_write (WikiLinkWriter.outfile WikiLinkWriter.init)
                          WikiLinkWriter.MAGIC) header)),
         self1, nwe.
  split; [reflexivity|]. split; [exact Hfirst|].
  cbn [WikiLinkWriter.node_map WikiLinkWriter.mapfile
       WikiLinkWriter.current_node_id WikiLinkWriter.set_outfile].
  auto.
Qed.

End WriterSteps.

Lemma combine_fst_snd {A B : Type} (l : list (A * B)) :
  combine (map fst l) (map snd l) = l.
Proof.
  induction l as [|[a b] l IH]; [reflexivity|]. simpl. now rewrite IH.
Qed.

(** X10: ids are handed out densely from 0 in the order in which titles
    are first seen, node title before linked titles, record after record:
    the title map pairs the distinct titles of the input, in that order,
    with 0, 1, 2, ..., and the id counter ends at their number. *)
Theorem ids_in_order_of_first_sight {codec : Zlib} (jsonl_file : jsonl)
    (self : WikiLinkWriter.t) :
  convert_wiki_jsonl jsonl_file = Ok self ->
  let seen := first_seen (titles (concat jsonl_file)) in
  WikiLinkWriter.node_map self =
    combine seen (map N.of_nat (seq 0 (length seen))) /\
  WikiLinkWriter.current_node_id self = len seen.
Proof.
  intros Hrun. cbn zeta.
  destruct (convert_first_pass _ _ Hrun)
    as (self0 & self1 & nwe & Hfresh & Hfirst & Hn & Hm & Hc).
  destruct (process_jsonl_dump_store _ _ Hrun) as [nwe' Hstore].
  pose proof (inv_node_map _ _ _ (store_pass _ _ _ Hstore)) as Hok.
  assert (Hkeys : map fst (WikiLinkWriter.node_map self) =
                  first_seen (titles (concat jsonl_file))).
  { rewrite Hn. unfold WikiLinkWriter.first_pass in Hfirst.
    rewrite (first_pass_keys _ _ _ _ _ Hfirst), Hfresh. reflexivity. }
  split.
  - rewrite <- (combine_fst_snd (WikiLinkWriter.node_map self)) at 1.
    rewrite (nm_ids _ Hok), <- Hkeys, length_map. reflexivity.
  - rewrite (nm_counter _ Hok), <- Hkeys. unfold len.
    now rewrite length_map.
Qed.

Lemma ids_in_order_of_first_sight_witness :
  WikiLinkWriter.node_map repeated_source_store =
    combine (first_seen (titles (concat repeated_source)))
      (map N.of_nat
         (seq 0 (length (first_seen (titles (concat repeated_source)))))) /\
  WikiLinkWriter.current_node_id repeated_source_store =
    len (first_seen (titles (concat repeated_source))).
Proof.
  apply (ids_in_order_of_first_sight (codec := tagged_codec)
           repeated_source repeated_source_store).
  vm_compute. reflexivity.
Defined.

(** X11: the sidecar of a completed run is one line [id<TAB>title<LF>] per
    entry of the title map, in the order of the ids, and nothing else. *)
Theorem sidecar_lines {codec : Zlib} (jsonl_file : jsonl)
    (self : WikiLinkWriter.t) :
  convert_wiki_jsonl jsonl_file = Ok self ->
  WikiLinkWriter.mapfile self =
  flat_map (fun entry => str_of_N (snd entry) ++ [TAB] ++ fst entry ++ [LF])
           (WikiLinkWriter.node_map self).
Proof.
  intros Hrun.
  destruct (process_jsonl_dump_store _ _ Hrun) as [nwe Hstore].
  exact (nm_sidecar _ (inv_node_map _ _ _ (store_pass _ _ _ Hstore))).
Qed.

Lemma sidecar_lines_witness :
  WikiLinkWriter.mapfile two_links_store =
  flat_map (fun entry => str_of_N (snd entry) ++ [TAB] ++ fst entry ++ [LF])
           (WikiLinkWriter.node_map two_links_store).
Proof.
  apply (sidecar_lines (codec := tagged_codec) two_links two_links_store).
  vm_compute. reflexivity.
Defined.

(** X12: the index has an entry for an id exactly when the id belongs to
    a title that has a record with at least one linked title; titles that
    occur only as linked titles, or only with empty lists, have none. *)
Theorem index_covers_sources_with_edges {codec : Zlib} (jsonl_file : jsonl)
    (self : WikiLinkWriter.t) :
  convert_wiki_jsonl jsonl_file = Ok self ->
  forall i,
    In i (map fst (WikiLinkWriter.index self)) <->
    exists src,
      dict_find pystr_eq_dec (WikiLinkWriter.node_map self) src = Some i /\
      last_edges (concat jsonl_file) src <> None.
Proof.
  intros Hrun i.
  destruct (process_jsonl_dump_store _ _ Hrun) as [nwe Hstore].
  pose proof (store_pass _ _ _ Hstore) as Hinv.
  rewrite (store_index _ _ _ Hstore), layout_keys. split.
  - apply (inv_only _ _ _ Hinv).
  - intros (src & Hsrc & Hlast).
    destruct (last_edges (concat jsonl_file) src) as [dsts|] eqn:E;
      [|congruence].
    destruct (inv_stored _ _ _ Hinv _ _ E) as (j & ids & Hj & Hfind & _).
    assert (j = i) by congruence. subst j.
    apply (dict_find_keys N.eq_dec). now exists ids.
Qed.

Lemma index_covers_sources_with_edges_witness :
  convert_wiki_jsonl (codec := tagged_codec) two_links = Ok two_links_store /\
  forall i,
    In i (map fst (WikiLinkWriter.index two_links_store)) <->
    exists src,
      dict_find pystr_eq_dec (WikiLinkWriter.node_map two_links_store) src
        = Some i /\
      last_edges (concat two_links) src <> None.
Proof.
  assert (H : convert_wiki_jsonl (codec := tagged_codec) two_links
              = Ok two_links_store) by (vm_compute; reflexivity).
  split; [exact H|].
  exact (index_covers_sources_with_edges (codec := tagged_codec)
           two_links two_links_store H).
Defined.

(** ** How a run of the writer can fail *)












Section WriterFailures.
Context {codec : Zlib}.



End WriterFailures.


(** ** Opening a file: the ways to fail *)

(** X14: the reader refuses a file that does not start with the magic
    with [ValueError], and a file that has the magic but fewer than 16
    bytes with [struct.error]; a reader that it returns maps the very file,
    which has the magic and at least 16 bytes. *)
Theorem init_rejections (file : list byte) (map_file : pystr) :
  (slice file 0 8 <> WikiLinkWriter.MAGIC ->
   WikiLinkReader.init file map_file = Raise ValueError) /\
  (slice file 0 8 = WikiLinkWriter.MAGIC -> len file < 16 ->
   WikiLinkReader.init file map_file = Raise StructError) /\
  (forall self,
     WikiLinkReader.init file map_file = Ok self ->
     slice file 0 8 = WikiLinkWriter.MAGIC /\ 16 <= len file /\
     WikiLinkReader.mmap self = file).
Proof.
  assert (Hbad : slice file 0 8 <> WikiLinkWriter.MAGIC ->
                 WikiLinkReader.init file map_file = Raise ValueError).
  { intros Hne. unfold WikiLinkReader.init.
    destruct (len file =? 0); [reflexivity|].
    destruct (list_eq_dec Byte.byte_eq_dec (slice file 0 8)
                WikiLinkWriter.MAGIC); [contradiction | reflexivity]. }
  assert (Hshort : slice file 0 8 = WikiLinkWriter.MAGIC -> len file < 16 ->
                   WikiLinkReader.init file map_file = Raise StructError).
  { intros Hmagic Hlen. unfold WikiLinkReader.init.
    assert (Hlen8 : (length (slice file 0 8) = 8)%nat)
      by (rewrite Hmagic; reflexivity).
    rewrite length_slice in Hlen8.
    destruct (N.eqb_spec (len file) 0) as [Hz|_];
      [unfold len in Hz; lia|].
    destruct (list_eq_dec Byte.byte_eq_dec (slice file 0 8)
                WikiLinkWriter.MAGIC); [|contradiction].
    cbn [negb]. unfold Struct.unpack_II. rewrite length_slice.
    replace (Nat.eqb _ 8) with false; [reflexivity|].
    symmetry. apply Nat.eqb_neq. unfold len in Hlen. lia. }
  split; [exact Hbad|]. split; [exact Hshort|].
  intros self Hrun.
  destruct (list_eq_dec Byte.byte_eq_dec (slice file 0 8)
              WikiLinkWriter.MAGIC) as [Hmagic|Hne];
    [|rewrite Hbad in Hrun by exact Hne; discriminate].
  destruct (N.lt_ge_cases (len file) 16) as [Hlt|Hge];
    [rewrite Hshort in Hrun by assumption; discriminate|].
  rewrite init_total in Hrun by assumption.
  injection Hrun as <-. auto.
Qed.

(** ** Binary search in an arbitrary index *)

Lemma find_block_loop_sound (index : list (N * N)) (node_id lo hi : Z) :
  (0 <= lo)%Z -> (hi < Z.of_nat (length index))%Z ->
  match WikiLinkReader.find_block_loop index node_id lo hi with
  | Ok (Some block_pos) =>
      exists n, Z.of_N n = node_id /\ In (n, block_pos) index
  | Ok None => True
  | Raise _ => False
  end.
Proof.
  intros Hlo Hhi.
  funelim (WikiLinkReader.find_block_loop index node_id lo hi).
  - exact I.
  - destruct (getitem_nth index ((lo + hi) / 2)) as (x & _ & Hx); [lia|].
    congruence.
  - destruct (getitem_nth index ((lo + hi) / 2)) as (x & Hn & Hx); [lia|].
    assert (x = (current_id, block_pos)) by congruence. subst x.
    apply Z.compare_eq in Heq. exists current_id.
    split; [exact Heq|]. eapply nth_error_In. exact Hn.
  - apply H; lia.
  - apply H; lia.
Qed.

(** X15: whatever the order of the index, a position that [find_block]
    returns belongs to an entry with the id that was asked for; and
    [find_block] raises only on an empty index, [ValueError]: the search
    never reads outside the index. *)
Theorem find_block_sound (self : WikiLinkReader.t) (node_id : Z) :
  (forall block_pos,
     WikiLinkReader.find_block self node_id = Ok (Some block_pos) ->
     exists n, Z.of_N n = node_id /\
               In (n, block_pos) (WikiLinkReader.index self)) /\
  (forall e,
     WikiLinkReader.find_block self node_id = Raise e ->
     e = ValueError /\ WikiLinkReader.index self = []).
Proof.
  unfold WikiLinkReader.find_block.
  destruct (WikiLinkReader.index self) as [|x l] eqn:E.
  - split; [discriminate|]. intros e [= <-]. auto.
  - rewrite <- E.
    pose proof (find_block_loop_sound (WikiLinkReader.index self) node_id 0
                  (Z.of_nat (length (WikiLinkReader.index self)) - 1)
                  ltac:(lia) ltac:(lia)) as Hs.
    destruct (WikiLinkReader.find_block_loop _ _ _ _) as [[p|]|e].
    + split; [|discriminate]. intros block_pos [= <-]. exact Hs.
    + split; discriminate.
    + destruct Hs.
Qed.

(** X16: on an index whose ids ascend strictly, [find_block] returns a
    position exactly when the index has an entry with that id and that
    position. *)
Theorem find_block_exact (self : WikiLinkReader.t) (node_id : Z)
    (block_pos : N) :
  ascending (WikiLinkReader.index self) ->
  (WikiLinkReader.find_block self node_id = Ok (Some block_pos) <->
   exists n, Z.of_N n = node_id /\
             In (n, block_pos) (WikiLinkReader.index self)).
Proof.
  intros Hasc. split.
  - intros Hrun.
    unfold WikiLinkReader.find_block in Hrun.
    destruct (WikiLinkReader.index self) as [|x l] eqn:E; [discriminate|].
    rewrite <- E in *.
    pose proof (find_block_loop_sound (WikiLinkReader.index self) node_id 0
                  (Z.of_nat (length (WikiLinkReader.index self)) - 1)
                  ltac:(lia) ltac:(lia)) as Hs.
    rewrite Hrun in Hs. exact Hs.
  - intros (n & <- & Hin).
    exact (find_block_hit self (n, block_pos) Hasc Hin).
Qed.

Lemma find_block_exact_witness :
  ascending (WikiLinkReader.index trailing_byte_reader) /\
  (WikiLinkReader.find_block trailing_byte_reader 0 = Ok (Some 16) <->
   exists n, Z.of_N n = 0%Z /\
             In (n, 16) (WikiLinkReader.index trailing_byte_reader)).
Proof.
  assert (H : ascending (WikiLinkReader.index trailing_byte_reader)).
  { unfold ascending. simpl. repeat constructor. }
  split; [exact H|].
  exact (find_block_exact trailing_byte_reader 0 16 H).
Defined.

(** ** Lines of the sidecar that are skipped *)

Lemma length_split (sep : N) (s : pystr) :
  length (split sep s) = S (count_occ N.eq_dec s sep).
Proof.
  induction s as [|c s IH]; [reflexivity|].
  cbn [split count_occ].
  destruct (N.eqb_spec c sep) as [->|Hne].
  - destruct (N.eq_dec sep sep); [|congruence]. simpl. now rewrite IH.
  - destruct (N.eq_dec c sep); [congruence|].
    destruct (split sep s) as [|p ps]; [discriminate|]. exact IH.
Qed.

(** X17: a line of the sidecar that, once stripped, does not have exactly
    one tab leaves the title map as it is: the line is skipped. *)
Theorem load_title_line_skips (bidict : BiDict.t) (line : pystr) :
  count_occ N.eq_dec (strip line) TAB <> 1%nat ->
  WikiLinkReader.load_title_line bidict line = bidict.
Proof.
  intros Hcount. unfold WikiLinkReader.load_title_line.
  pose proof (length_split TAB (strip line)) as Hlen.
  destruct (split TAB (strip line)) as [|a [|b [|c r]]];
    try reflexivity.
  simpl in Hlen. congruence.
Qed.

Lemma load_title_line_skips_witness :
  count_occ N.eq_dec (strip [49; 9; 65; 9; 66; 10]) TAB <> 1%nat /\
  WikiLinkReader.load_title_line BiDict.init [49; 9; 65; 9; 66; 10]
    = BiDict.init.
Proof.
  assert (H : count_occ N.eq_dec (strip [49; 9; 65; 9; 66; 10]) TAB <> 1%nat)
    by (vm_compute; discriminate).
  split; [exact H|].
  exact (load_title_line_skips BiDict.init [49; 9; 65; 9; 66; 10] H).
Defined.

(** ** The reader of a finished store *)

Lemma title_entries_forward_keys (node_map : dict pystr N) :
  let bidict := fold_left title_entry node_map BiDict.init in
  (forall z v,
     dict_find pyval_eq_dec (BiDict.forward bidict) (PInt z) = Some v ->
     exists i, z = Z.of_N i /\ In i (map snd node_map)) /\
  (forall z, dict_find pyval_eq_dec (BiDict.backward bidict) (PInt z) = None).
Proof.
  induction node_map as [|[t0 i0] node_map IH] using rev_ind; cbn zeta.
  - split; [discriminate | reflexivity].
  - rewrite fold_left_app. cbn [fold_left].
    destruct IH as [Hf Hb].
    remember (fold_left title_entry node_map BiDict.init) as b eqn:Eb.
    unfold title_entry, BiDict.setitem.
    cbn [BiDict.forward BiDict.backward fst snd].
    split.
    + intros z v. rewrite dict_find_setitem.
      destruct (pyval_eq_dec (PInt z) (PInt (Z.of_N i0))) as [E|_].
      * intros _. injection E as ->. exists i0. split; [reflexivity|].
        rewrite map_app. apply in_app_iff. right. now left.
      * intros H. destruct (Hf z v H) as (i & -> & Hi).
        exists i. split; [reflexivity|].
        rewrite map_app. apply in_app_iff. now left.
    + intros z. rewrite dict_find_setitem.
      destruct (pyval_eq_dec (PInt z) (PStr t0)); [discriminate|]. apply Hb.
Qed.

(** X18: when every title of the input is safe for the sidecar, the title
    map that the reader loads has no title for an integer outside
    [0, N): [get_title] returns [None] for it. *)
Theorem get_title_unknown_id {codec : Zlib} (jsonl_file : jsonl)
    (self : WikiLinkWriter.t) :
  convert_wiki_jsonl jsonl_file = Ok self ->
  forallb sidecar_safe (titles (concat jsonl_file)) = true ->
  exists reader,
    WikiLinkReader.init (content (WikiLinkWriter.outfile self))
      (WikiLinkWriter.mapfile self) = Ok reader /\
    forall z : Z,
      (z < 0 \/ Z.of_N (WikiLinkWriter.current_node_id self) <= z)%Z ->
      WikiLinkReader.get_title reader (PInt z) = Ok PNone.
Proof.
  intros Hrun Hsafe. rewrite forallb_forall in Hsafe.
  destruct (convert_opens _ _ Hrun) as (nwe & Hstore & Hopen).
  pose proof (store_pass _ _ _ Hstore) as Hinv.
  pose proof (inv_node_map _ _ _ Hinv) as Hok.
  eexists. split; [exact Hopen|].
  intros z Hz.
  unfold WikiLinkReader.get_title. cbn [WikiLinkReader.title_map opened].
  rewrite (nm_sidecar _ Hok), load_title_map_sidecar.
  - destruct (title_entries_forward_keys (WikiLinkWriter.node_map self))
      as [Hf Hb].
    unfold BiDict.get, BiDict.getitem, dict_getitem.
    destruct (dict_find pyval_eq_dec _ (PInt z)) as [v|] eqn:E.
    + exfalso. destruct (Hf z v E) as (i & -> & Hi).
      rewrite (nm_ids _ Hok) in Hi. apply in_map_iff in Hi.
      destruct Hi as (k & <- & Hk). apply in_seq in Hk.
      rewrite (nm_counter _ Hok) in Hz. unfold len in Hz. lia.
    + now rewrite Hb.
  - apply Forall_forall. intros [t i] Hin. cbn [fst]. apply Hsafe.
    apply (inv_interned _ _ _ Hinv).
    change t with (fst (t, i)). now apply in_map.
Qed.

Lemma get_title_unknown_id_witness :
  exists reader,
    WikiLinkReader.init (content (WikiLinkWriter.outfile two_links_store))
      (WikiLinkWriter.mapfile two_links_store) = Ok reader /\
    forall z : Z,
      (z < 0 \/ Z.of_N (WikiLinkWriter.current_node_id two_links_store)
                <= z)%Z ->
      WikiLinkReader.get_title reader (PInt z) = Ok PNone.
Proof.
  apply (get_title_unknown_id (codec := tagged_codec)
           two_links two_links_store).
  - vm_compute. reflexivity.
  - vm_compute. reflexivity.
Defined.

Lemma ids_of_bound (self : WikiLinkWriter.t) (dsts : list pystr)
    (ids : list N) :
  node_map_ok self ->
  ids_of (WikiLinkWriter.node_map self) dsts ids ->
  Forall (fun i => i < WikiLinkWriter.current_node_id self) ids.
Proof.
  intros Hok Hids. induction Hids as [|t j ts js Hj _ IH]; constructor.
  - eapply node_map_bound; eassumption.
  - exact IH.
Qed.

Section FinishedStore.
Context {codec : Zlib} {codec_ok : ZlibCorrect codec}.

(** What the reader of a finished store answers, for any integer. *)
Lemma opened_neighbors (jsonl_file : jsonl) (self : WikiLinkWriter.t)
    (nwe : dict N (list N)) (node_id : Z) :
  store_of jsonl_file self nwe ->
  let reader := opened (WikiLinkWriter.current_node_id self) nwe
                  (WikiLinkWriter.mapfile self) in
  (exists n edge_ids,
     Z.of_N n = node_id /\ In (n, edge_ids) nwe /\
     WikiLinkReader.get_neighbors reader node_id = Ok (sorted edge_ids)) \/
  (nwe <> [] /\ WikiLinkReader.get_neighbors reader node_id = Ok []) \/
  (nwe = [] /\ WikiLinkReader.get_neighbors reader node_id = Raise ValueError).
Proof.
  intros Hstore. cbn zeta.
  pose proof (store_pass _ _ _ Hstore) as Hinv.
  destruct (in_dec Z.eq_dec node_id (map Z.of_N (map fst nwe))) as [Hin|Hout].
  - left. apply in_map_iff in Hin. destruct Hin as (n & Hn & Hin).
    apply (dict_find_keys N.eq_dec) in Hin. destruct Hin as [edge_ids Hfind].
    apply dict_find_In in Hfind.
    exists n, edge_ids. split; [exact Hn|]. split; [exact Hfind|].
    rewrite <- Hn.
    apply get_neighbors_stored; [apply Hinv | apply Hstore | exact Hfind].
  - right. destruct nwe as [|item rest] eqn:E.
    + right. split; [reflexivity|].
      unfold WikiLinkReader.get_neighbors, WikiLinkReader.find_block.
      reflexivity.
    + left. split; [discriminate|]. rewrite <- E in *.
      apply get_neighbors_absent; [rewrite E; discriminate|].
      intros i Hi Heq. apply Hout. rewrite <- Heq. now apply in_map.
Qed.

End FinishedStore.

(** X19: every id that the reader of a finished store returns as a
    neighbor is the id of an interned title: it is below the id counter. *)
Theorem neighbors_are_interned {codec : Zlib} {codec_ok : ZlibCorrect codec}
    (jsonl_file : jsonl) (self : WikiLinkWriter.t) :
  convert_wiki_jsonl jsonl_file = Ok self ->
  exists reader,
    WikiLinkReader.init (content (WikiLinkWriter.outfile self))
      (WikiLinkWriter.mapfile self) = Ok reader /\
    forall node_id edges,
      WikiLinkReader.get_neighbors reader node_id = Ok edges ->
      Forall (fun i => i < WikiLinkWriter.current_node_id self) edges.
Proof.
  intros Hrun. destruct (convert_opens _ _ Hrun) as (nwe & Hstore & Hopen).
  pose proof (store_pass _ _ _ Hstore) as Hinv.
  eexists. split; [exact Hopen|].
  intros node_id edges Hget.
  destruct (opened_neighbors jsonl_file self nwe node_id Hstore)
    as [(n & edge_ids & _ & Hin & Hn)|[[_ Hn]|[_ Hn]]];
    rewrite Hn in Hget; [|injection Hget as <-; constructor|discriminate].
  injection Hget as <-.
  destruct (stored_edges_source _ _ _ _ _ Hinv Hin)
    as (src & dsts & _ & _ & Hids).
  pose proof (ids_of_bound _ _ _ (inv_node_map _ _ _ Hinv) Hids) as Hall.
  rewrite Forall_forall in *. intros i Hi. apply Hall.
  eapply Permutation_in; [|exact Hi].
  apply Permutation_sym, sorted_permutation.
Qed.

Lemma neighbors_are_interned_witness :
  exists reader,
    WikiLinkReader.init
      (content (WikiLinkWriter.outfile repeated_source_store))
      (WikiLinkWriter.mapfile repeated_source_store) = Ok reader /\
    forall node_id edges,
      WikiLinkReader.get_neighbors (codec := tagged_codec) reader node_id
        = Ok edges ->
      Forall (fun i => i < WikiLinkWriter.current_node_id
                             repeated_source_store) edges.
Proof.
  apply (neighbors_are_interned (codec := tagged_codec)
           (codec_ok := tagged_codec_ok)
           repeated_source repeated_source_store).
  vm_compute. reflexivity.
Defined.

(** X20: the reader of a finished store answers every integer when the
    input has at least one record with a linked title, and raises
    [ValueError] for every integer when it has none. *)
Theorem neighbors_total_or_never {codec : Zlib}
    {codec_ok : ZlibCorrect codec} (jsonl_file : jsonl)
    (self : WikiLinkWriter.t) :
  convert_wiki_jsonl jsonl_file = Ok self ->
  exists reader,
    WikiLinkReader.init (content (WikiLinkWriter.outfile self))
      (WikiLinkWriter.mapfile self) = Ok reader /\
    ((exists src, last_edges (concat jsonl_file) src <> None) ->
     forall node_id,
       exists edges, WikiLinkReader.get_neighbors reader node_id = Ok edges) /\
    ((forall src, last_edges (concat jsonl_file) src = None) ->
     forall node_id,
       WikiLinkReader.get_neighbors reader node_id = Raise ValueError).
Proof.
  intros Hrun. destruct (convert_opens _ _ Hrun) as (nwe & Hstore & Hopen).
  pose proof (store_pass _ _ _ Hstore) as Hinv.
  eexists. split; [exact Hopen|]. split.
  - intros (src & Hsrc) node_id.
    destruct (last_edges (concat jsonl_file) src) as [dsts|] eqn:E;
      [|congruence].
    destruct (inv_stored _ _ _ Hinv _ _ E) as (i & ids & _ & Hfind & _).
    destruct (opened_neighbors jsonl_file self nwe node_id Hstore)
      as [(n & edge_ids & _ & _ & Hn)|[[_ Hn]|[Hnil _]]].
    + eexists. exact Hn.
    + eexists. exact Hn.
    + subst nwe. discriminate.
  - intros Hnone node_id.
    destruct (opened_neighbors jsonl_file self nwe node_id Hstore)
      as [(n & edge_ids & _ & Hin & _)|[[Hne _]|[_ Hn]]].
    + exfalso.
      destruct (stored_edges_source _ _ _ _ _ Hinv Hin)
        as (src & dsts & Hlast & _).
      rewrite Hnone in Hlast. discriminate.
    + exfalso. destruct nwe as [|[n edge_ids] rest]; [congruence|].
      destruct (stored_edges_source _ _ _ n edge_ids Hinv (or_introl eq_refl))
        as (src & dsts & Hlast & _).
      rewrite Hnone in Hlast. discriminate.
    + exact Hn.
Qed.

Lemma neighbors_total_or_never_witness :
  exists reader,
    WikiLinkReader.init (content (WikiLinkWriter.outfile no_edges_store))
      (WikiLinkWriter.mapfile no_edges_store) = Ok reader /\
    ((exists src, last_edges (concat no_edges) src <> None) ->
     forall node_id,
       exists edges,
         WikiLinkReader.get_neighbors (codec := tagged_codec) reader node_id
         = Ok edges) /\
    ((forall src, last_edges (concat no_edges) src = None) ->
     forall node_id,
       WikiLinkReader.get_neighbors (codec := tagged_codec) reader node_id
       = Raise ValueError).
Proof.
  apply (neighbors_total_or_never (codec := tagged_codec)
           (codec_ok := tagged_codec_ok) no_edges no_edges_store).
  vm_compute. reflexivity.
Defined.

Lemma len_index_bytes (index : list (N * N)) :
  len (index_bytes index) = 16 * len index.
Proof.
  induction index as [|e index IH]; [reflexivity|].
  cbn [index_bytes flat_map]. fold (index_bytes index).
  rewrite !len_app, !len_to_le, IH. unfold len. cbn [length]. lia.
Qed.

(** X21: the index that the reader loads from a finished store is the
    writer's index, sorted; it starts where the last eight bytes of the
    file say, after the header and the blocks, and takes 16 bytes per
    entry up to those eight bytes. *)
Theorem index_roundtrip {codec : Zlib} (jsonl_file : jsonl)
    (self : WikiLinkWriter.t) :
  convert_wiki_jsonl jsonl_file = Ok self ->
  exists reader,
    WikiLinkReader.init (content (WikiLinkWriter.outfile self))
      (WikiLinkWriter.mapfile self) = Ok reader /\
    WikiLinkReader.index reader = sorted_pairs (WikiLinkWriter.index self) /\
    16 <= WikiLinkReader.index_pos reader /\
    WikiLinkReader.index_pos reader
      + 16 * len (WikiLinkWriter.index self) + 8
    = len (content (WikiLinkWriter.outfile self)).
Proof.
  intros Hrun. destruct (convert_opens _ _ Hrun) as (nwe & Hstore & Hopen).
  eexists. split; [exact Hopen|].
  cbn [WikiLinkReader.index WikiLinkReader.index_pos opened].
  rewrite (store_index _ _ _ Hstore), (store_content _ _ _ Hstore).
  split; [reflexivity|]. split; [lia|].
  unfold store_bytes.
  rewrite !len_app, len_patched_header, len_index_bytes, len_to_le.
  assert (Hlen : len (sorted_pairs (layout 16 nwe)) = len (layout 16 nwe)).
  { unfold len. f_equal. symmetry.
    apply Permutation_length, sorted_pairs_permutation. }
  rewrite Hlen. lia.
Qed.

Lemma index_roundtrip_witness :
  exists reader,
    WikiLinkReader.init
      (content (WikiLinkWriter.outfile repeated_source_store))
      (WikiLinkWriter.mapfile repeated_source_store) = Ok reader /\
    WikiLinkReader.index reader
      = sorted_pairs (WikiLinkWriter.index repeated_source_store) /\
    16 <= WikiLinkReader.index_pos reader /\
    WikiLinkReader.index_pos reader
      + 16 * len (WikiLinkWriter.index repeated_source_store) + 8
    = len (content (WikiLinkWriter.outfile repeated_source_store)).
Proof.
  apply (index_roundtrip (codec := tagged_codec)
           repeated_source repeated_source_store).
  vm_compute. reflexivity.
Defined.

(** ** The order of the blocks *)

Section BlockOrder.
Context {codec : Zlib}.


End BlockOrder.


